(** * Schedule Voice Clock: settings store and announcement engine

    A shallow embedding of [src/config.py] (class [ConfigManager]) and
    [src/scheduler.py] (class [TimeAnnouncer]), with the properties the
    specification states about them; then of what surrounds the two: the
    handlers of [src/player.py], [src/tray.py], [src/settings_window.py] and
    [src/main.py], and the functions of the scripts that name and word the
    clips, with further properties of the whole.

    Python objects live in one explicit [state]: the settings dictionary of
    the [ConfigManager] that the announcer and the user interface share, the
    two debounce attributes of the [TimeAnnouncer], the file system, the calls
    the [AudioPlayer] has received and the log.  A method is a function from a
    state to an [outcome]: it returns a value or raises an exception, and in
    both cases leaves a state behind, as a Python method does. *)

From Stdlib Require Import ZArith List String Ascii Bool Lia.
From Stdlib Require Import DecimalString DecimalPos DecimalN SpecFloat.
Import ListNotations.

#[local] Set Warnings "-register-all".
#[local] Open Scope string_scope.
#[local] Open Scope list_scope.
#[local] Open Scope Z_scope.

(* ===================================================================== *)
(** * Python values *)
(* ===================================================================== *)

(** The values [json.load] can produce, which are also all the values the
    application stores in its settings.  A [str] is kept as the UTF-8 bytes
    of its text; a [float] is a binary64 number; a [dict] keeps its keys in
    insertion order, as Python's does. *)
Inductive pyval : Type :=
| PNone
| PBool (b : bool)
| PInt (z : Z)
| PFloat (f : spec_float)
| PStr (s : string)
| PList (l : list pyval)
| PDict (d : list (string * pyval)).

Definition dict := list (string * pyval).

(** [d.get(k)], as an option. *)
Fixpoint dict_lookup (d : dict) (k : string) : option pyval :=
  match d with
  | [] => None
  | (k', v) :: d' => if String.eqb k k' then Some v else dict_lookup d' k
  end.

(** [d.get(k, default)]. *)
Definition dict_get (d : dict) (k : string) (default : pyval) : pyval :=
  match dict_lookup d k with
  | Some v => v
  | None => default
  end.

(** [d[k] = v]: an existing key keeps its position, a new key goes last. *)
Fixpoint dict_setitem (d : dict) (k : string) (v : pyval) : dict :=
  match d with
  | [] => [(k, v)]
  | (k', v') :: d' =>
      if String.eqb k k' then (k', v) :: d' else (k', v') :: dict_setitem d' k v
  end.

(** The dictionary built from a sequence of items, later items winning:
    [dict(items)], and the braces display [{**a, **b}] for [items = a ++ b]. *)
Definition dict_of_items (items : list (string * pyval)) : dict :=
  fold_left (fun acc kv => dict_setitem acc (fst kv) (snd kv)) items [].

(** [{**a, **b}]. *)
Definition dict_merge (a b : dict) : dict := dict_of_items (a ++ b).

(** Truth value of an object in a condition. *)
Definition truthy (v : pyval) : bool :=
  match v with
  | PNone => false
  | PBool b => b
  | PInt z => negb (z =? 0)
  | PFloat (S754_zero _) => false
  | PFloat _ => true
  | PStr s => negb (String.eqb s EmptyString)
  | PList l => match l with [] => false | _ => true end
  | PDict d => match d with [] => false | _ => true end
  end.

(** The exception classes the two modules can meet.  [IOError] is Python 3's
    alias of [OSError]; [JSONDecodeError], [UnicodeDecodeError] and
    [UnicodeEncodeError] are three different subclasses of [ValueError]. *)
Inductive exn : Type :=
| TypeError
| ZeroDivisionError
| JSONDecodeError
| UnicodeDecodeError
| UnicodeEncodeError
| OSError.

Definition exn_eqb (a b : exn) : bool :=
  match a, b with
  | TypeError, TypeError | ZeroDivisionError, ZeroDivisionError
  | JSONDecodeError, JSONDecodeError | UnicodeDecodeError, UnicodeDecodeError
  | UnicodeEncodeError, UnicodeEncodeError | OSError, OSError => true
  | _, _ => false
  end.

(** [m % interval == 0] for an [int] [m].  The remainder of two integers has
    the sign of the divisor, which is [Z.modulo]; [bool] is a subclass of
    [int]; against a [float] the integer is converted (exactly, for a minute
    or an hour) and the remainder is exact, so it is zero exactly when [m] is
    a multiple of the float's value [mant * 2^e]. *)
Definition mod_is_zero (m : Z) (interval : pyval) : exn + bool :=
  match interval with
  | PInt i => if i =? 0 then inl ZeroDivisionError else inr (m mod i =? 0)
  | PBool b => if b then inr (m mod 1 =? 0) else inl ZeroDivisionError
  | PFloat (S754_zero _) => inl ZeroDivisionError
  | PFloat S754_nan => inr false
  | PFloat (S754_infinity _) => inr (m =? 0)
  | PFloat (S754_finite _ mant e) =>
      if 0 <=? e then inr (m mod (Z.pos mant * 2 ^ e) =? 0)
      else inr ((m * 2 ^ (- e)) mod Z.pos mant =? 0)
  | PNone | PStr _ | PList _ | PDict _ => inl TypeError
  end.

(* ===================================================================== *)
(** * Paths, files, the log *)
(* ===================================================================== *)

(** The content of a file: a sequence of bytes, one [ascii] each. *)
Definition bytes := string.

(** A [pathlib.Path], as the operands of [/] in the order they were joined. *)
Definition path := list string.

Definition joinpath (p : path) (s : string) : path := p ++ [s].

Fixpoint path_eqb (p q : path) : bool :=
  match p, q with
  | [], [] => true
  | a :: p', b :: q' => String.eqb a b && path_eqb p' q'
  | _, _ => false
  end.

(** Index of the last ['.'] of a name ([name.rfind('.')]), if there is one. *)
Fixpoint rfind_dot (name : string) : option nat :=
  match name with
  | EmptyString => None
  | String c rest =>
      match rfind_dot rest with
      | Some i => Some (S i)
      | None => if Ascii.eqb c "." then Some 0%nat else None
      end
  end.

(** [PurePath.suffix]: the name from its last dot on, when that dot is
    neither the first nor the last character. *)
Definition suffix (name : string) : string :=
  match rfind_dot name with
  | Some i =>
      if ((0 <? i) && (i <? String.length name - 1))%nat
      then substring i (String.length name - i)%nat name
      else EmptyString
  | None => EmptyString
  end.

(** The new name [PurePath.with_suffix] computes from a non-empty name. *)
Definition name_with_suffix (name sfx : string) : string :=
  let old_suffix := suffix name in
  if String.eqb old_suffix EmptyString then (name ++ sfx)%string
  else (substring 0 (String.length name - String.length old_suffix)%nat name ++ sfx)%string.

(** [p.with_suffix(sfx)] on a path whose last operand is its name. *)
Definition with_suffix (p : path) (sfx : string) : path :=
  match rev p with
  | [] => p
  | name :: parents_rev => rev parents_rev ++ [name_with_suffix name sfx]
  end.

Inductive level : Type := INFO | WARNING | ERROR.

(** The log records the two modules emit, with the values they interpolate. *)
Inductive logmsg : Type :=
| TimeAnnouncer_initialized
| Announcing_time (hh mm language : string) (mp3 : bool)
| Audio_file_not_found (audio_path audio_path_mp3 : path)
| Config_file_not_found (config_path : path)
| Config_loaded (config_path : path)
| Failed_to_load_config (e : exn)
| Config_saved (config_path : path)
| Failed_to_save_config (e : exn).

Definition logrec := (level * logmsg)%type.

(* ===================================================================== *)
(** * The state of the application and the effect monad *)
(* ===================================================================== *)

Record state : Type := mkState {
  (** the file system: the bytes of the entry at a path, if one exists *)
  fs : path -> option bytes;
  (** [ConfigManager.config_path] and [ConfigManager._settings] *)
  config_path : path;
  _settings : dict;
  (** [TimeAnnouncer.assets_dir] and its debounce tracker *)
  assets_dir : path;
  _last_played_minute : Z;
  _last_played_hour : Z;
  (** the arguments of the calls [AudioPlayer.play] received, oldest first *)
  played : list path;
  (** the records handed to the loggers, oldest first *)
  log : list logrec
}.

Inductive outcome (A : Type) : Type :=
| Ret (a : A) (s : state)
| Raise (e : exn) (s : state).
Arguments Ret {A} a s.
Arguments Raise {A} e s.

Definition M (A : Type) : Type := state -> outcome A.

Definition ret {A} (a : A) : M A := fun s => Ret a s.

Definition bind {A B} (c : M A) (k : A -> M B) : M B :=
  fun s => match c s with
           | Ret a s' => k a s'
           | Raise e s' => Raise e s'
           end.

Definition raise {A} (e : exn) : M A := fun s => Raise e s.

Definition gets {A} (f : state -> A) : M A := fun s => Ret (f s) s.

Definition modify (f : state -> state) : M unit := fun s => Ret tt (f s).

(** A pure step that may raise. *)
Definition lift {A} (r : exn + A) : M A :=
  match r with
  | inl e => raise e
  | inr a => ret a
  end.

Declare Scope py_scope.
Delimit Scope py_scope with py.
Notation "x <- c ;; k" := (bind c (fun x => k))
  (at level 61, c at next level, right associativity) : py_scope.
Notation "c ;; k" := (bind c (fun _ => k))
  (at level 61, right associativity) : py_scope.
#[local] Open Scope py_scope.

(** The state an outcome leaves, and the value it returns, if any. *)
Definition final {A} (o : outcome A) : state :=
  match o with
  | Ret _ s => s
  | Raise _ s => s
  end.

Definition returned {A} (o : outcome A) : option A :=
  match o with
  | Ret a _ => Some a
  | Raise _ _ => None
  end.

Definition set_settings (d : dict) (s : state) : state :=
  mkState (fs s) (config_path s) d (assets_dir s)
          (_last_played_minute s) (_last_played_hour s) (played s) (log s).

Definition set_last_played_minute (m : Z) (s : state) : state :=
  mkState (fs s) (config_path s) (_settings s) (assets_dir s)
          m (_last_played_hour s) (played s) (log s).

Definition set_last_played_hour (h : Z) (s : state) : state :=
  mkState (fs s) (config_path s) (_settings s) (assets_dir s)
          (_last_played_minute s) h (played s) (log s).

Definition set_fs (f : path -> option bytes) (s : state) : state :=
  mkState f (config_path s) (_settings s) (assets_dir s)
          (_last_played_minute s) (_last_played_hour s) (played s) (log s).

Definition add_played (p : path) (s : state) : state :=
  mkState (fs s) (config_path s) (_settings s) (assets_dir s)
          (_last_played_minute s) (_last_played_hour s) (played s ++ [p]) (log s).

Definition add_log (r : logrec) (s : state) : state :=
  mkState (fs s) (config_path s) (_settings s) (assets_dir s)
          (_last_played_minute s) (_last_played_hour s) (played s) (log s ++ [r]).

Definition logger (lvl : level) (msg : logmsg) : M unit := modify (add_log (lvl, msg)).

(** [p.exists()] on a path made of the program's own names: [stat] finds
    the entry, or there is none. *)
Definition path_exists (p : path) : M bool :=
  gets (fun s => match fs s p with Some _ => true | None => false end).

(** The longest name a directory entry can have, in bytes ([NAME_MAX]). *)
Definition NAME_MAX : nat := 255.

(** The length of the longest name in an operand of [/]: its names are the
    pieces between slashes.  [run] is the length of the piece being read,
    [best] the longest length seen before it. *)
Fixpoint longest_name (run best : nat) (operand : string) : nat :=
  match operand with
  | EmptyString => Nat.max run best
  | String c rest =>
      if Ascii.eqb c "/" then longest_name 0 (Nat.max run best) rest
      else longest_name (S run) best rest
  end.

(** Whether an operand holds a name that no directory can hold. *)
Definition name_too_long (operand : string) : bool :=
  (NAME_MAX <? longest_name 0 0 operand)%nat.

(** [p.exists()] on a path joined from directories of the installation,
    which exist, and the operand [taken], which the program took from its
    settings.  [stat] looks the names of [taken] up one by one; on a name
    longer than [NAME_MAX] it fails with [ENAMETOOLONG], and [exists] lets
    this [OSError] through: it returns [False] for [ENOENT], [ENOTDIR],
    [EBADF] and [ELOOP] only.  No entry of [fs] lies under such a name. *)
Definition path_exists_below (taken : string) (p : path) : M bool :=
  present <- path_exists p ;;
  if present then ret true
  else if name_too_long taken then raise OSError
  else ret false.

(** [self.player.play(p)], seen from the engine: the call is made; what the
    media backend answers is discarded by every caller in [scheduler.py]. *)
Definition player_play (p : path) : M unit := modify (add_played p).

(** [try: body except classes as e: handler(e)]. *)
Definition try_except {A} (body : M A) (classes : list exn) (handler : exn -> M A) : M A :=
  fun s => match body s with
           | Ret a s' => Ret a s'
           | Raise e s' =>
               if existsb (exn_eqb e) classes then handler e s' else Raise e s'
           end.

(* ===================================================================== *)
(** * Text files: the utf-8 codec *)
(* ===================================================================== *)

Definition byte_in (lo hi : N) (c : ascii) : bool :=
  let n := N_of_ascii c in ((lo <=? n) && (n <=? hi))%N.

Definition is_cont : ascii -> bool := byte_in 128 191.

(** Whether a byte string is well-formed UTF-8, as the strict [utf-8] codec
    demands both ways: no stray or missing continuation byte, no overlong
    form, no surrogate (ED A0..BF), nothing above U+10FFFF. *)
Fixpoint utf8_valid (b : string) : bool :=
  match b with
  | EmptyString => true
  | String c0 b1 =>
      if byte_in 0 127 c0 then utf8_valid b1
      else
        match b1 with
        | EmptyString => false
        | String c1 b2 =>
            if byte_in 194 223 c0 then is_cont c1 && utf8_valid b2
            else
              match b2 with
              | EmptyString => false
              | String c2 b3 =>
                  if byte_in 224 224 c0 then byte_in 160 191 c1 && is_cont c2 && utf8_valid b3
                  else if byte_in 225 236 c0 || byte_in 238 239 c0
                       then is_cont c1 && is_cont c2 && utf8_valid b3
                  else if byte_in 237 237 c0 then byte_in 128 159 c1 && is_cont c2 && utf8_valid b3
                  else
                    match b3 with
                    | EmptyString => false
                    | String c3 b4 =>
                        if byte_in 240 240 c0
                        then byte_in 144 191 c1 && is_cont c2 && is_cont c3 && utf8_valid b4
                        else if byte_in 241 243 c0
                        then is_cont c1 && is_cont c2 && is_cont c3 && utf8_valid b4
                        else if byte_in 244 244 c0
                        then byte_in 128 143 c1 && is_cont c2 && is_cont c3 && utf8_valid b4
                        else false
                    end
              end
        end
  end.

(** The bytes that stand for the character [chr(cp)] inside a [str]: its
    UTF-8 form, extended to the surrogates U+D800..U+DFFF, which a Python
    [str] can hold and the strict codec refuses to write. *)
Definition chr_bytes (cp : N) : string :=
  let b (n : N) := ascii_of_N n in
  (if cp <? 128 then String (b cp) EmptyString
   else if cp <? 2048 then String (b (192 + cp / 64)) (String (b (128 + cp mod 64)) EmptyString)
   else if cp <? 65536 then
     String (b (224 + cp / 4096))
       (String (b (128 + (cp / 64) mod 64)) (String (b (128 + cp mod 64)) EmptyString))
   else
     String (b (240 + cp / 262144))
       (String (b (128 + (cp / 4096) mod 64))
          (String (b (128 + (cp / 64) mod 64)) (String (b (128 + cp mod 64)) EmptyString))))%N.


(* ===================================================================== *)
(** * float: reading and printing binary64 numbers *)
(* ===================================================================== *)

Definition prec : Z := 53.
Definition emax : Z := 1024.

(** [float(lexeme)] for the decimal [c * 10^e10] with the sign [neg]: the
    nearest binary64 number, ties to even, infinite beyond the range. *)
Definition float_of_decimal (neg : bool) (c : Z) (e10 : Z) : spec_float :=
  match c with
  | Zpos p =>
      if 0 <=? e10 then binary_round prec emax neg (Pos.mul p (Z.to_pos (10 ^ e10))) 0
      else
        let '(q, e, loc) := SFdiv_core_binary prec emax (Zpos p) 0 (10 ^ (- e10)) 0 in
        binary_round_aux prec emax neg q e loc
  | _ => S754_zero neg
  end.

(** The decimal digits of a natural number. *)
Definition dec_digits (n : Z) : string := NilZero.string_of_uint (N.to_uint (Z.to_N n)).

(** The value [m * 2^e] as a fraction. *)
Definition frac_of (m : positive) (e : Z) : Z * Z :=
  if 0 <=? e then (Zpos m * 2 ^ e, 1) else (Zpos m, 2 ^ (- e)).

(** The fraction [num / den / 10^k]. *)
Definition shift10 (num den k : Z) : Z * Z :=
  if 0 <=? k then (num, den * 10 ^ k) else (num * 10 ^ (- k), den).

(** The least [k] from [lo] on, within [fuel] steps, with [num/den < 10^k]. *)
Fixpoint decpt_from (fuel : nat) (lo : Z) (num den : Z) : Z :=
  match fuel with
  | O => lo
  | S fuel' =>
      let '(n, d) := shift10 num den lo in
      if n <? d then lo else decpt_from fuel' (lo + 1) num den
  end.

Fixpoint strip_zeros (s : list ascii) : list ascii :=
  match s with
  | c :: s' => if Ascii.eqb c "0" then strip_zeros s' else s
  | [] => s
  end.

Definition strip_trailing_zeros (s : string) : string :=
  string_of_list_ascii (rev (strip_zeros (rev (list_ascii_of_string s)))).

(** The shortest digit string that reads back as the float [m * 2^e], the
    nearest to it among the shortest, and the position [decpt] of its decimal
    point (the value is [0.digits * 10^decpt]): digit strings of [n], [n+1],
    ... digits are tried, rounded down and up. *)
Fixpoint shortest_from (fuel : nat) (n : Z) (m : positive) (e : Z) (num den decpt : Z)
  : string * Z :=
  let k := decpt - n in
  let x := S754_finite false m e in
  let '(sn, sd) := shift10 num den k in
  let lo := sn / sd in
  let exact := sn mod sd =? 0 in
  let ok_lo := SFeqb (float_of_decimal false lo k) x in
  let ok_hi := negb exact && SFeqb (float_of_decimal false (lo + 1) k) x in
  let lo_is_nearer := 2 * sn <=? (2 * lo + 1) * sd in
  let pick (c : Z) :=
    let d := dec_digits c in
    (strip_trailing_zeros d, k + Z.of_nat (String.length d)) in
  match fuel with
  | O => pick lo
  | S fuel' =>
      if ok_lo && (negb ok_hi || lo_is_nearer) then pick lo
      else if ok_hi then pick (lo + 1)
      else shortest_from fuel' (n + 1) m e num den decpt
  end.

Definition shortest_digits (m : positive) (e : Z) : string * Z :=
  let '(num, den) := frac_of m e in
  let estimate := (Z.log2 num - Z.log2 den - 1) * 30103 / 100000 - 2 in
  let decpt := decpt_from 8 estimate num den in
  shortest_from 17 1 m e num den decpt.

(** The exponent of the scientific form: a sign and at least two digits. *)
Definition exp_digits (x : Z) : string :=
  let d := dec_digits (Z.abs x) in
  String (if x <? 0 then "-"%char else "+"%char)
         (if (String.length d <? 2)%nat then String "0" d else d).

(** [float.__repr__] of the positive finite number [m * 2^e]: scientific form
    when the decimal point would lie more than 16 digits to the right of the
    first digit or more than 4 to its left, else positional form with at
    least one digit after the point. *)
Definition repr_finite (m : positive) (e : Z) : string :=
  let '(digits, decpt) := shortest_digits m e in
  let len := String.length digits in
  let n := Z.of_nat len in
  let zeros_str (k : Z) := string_of_list_ascii (repeat "0"%char (Z.to_nat k)) in
  if (decpt <=? -4) || (16 <? decpt) then
    let tail := if 1 <? n then String "." (substring 1 (len - 1) digits) else EmptyString in
    (substring 0 1 digits ++ tail ++ "e" ++ exp_digits (decpt - 1))%string
  else if decpt <=? 0 then
    ("0." ++ zeros_str (- decpt) ++ digits)%string
  else if decpt <? n then
    let point := Z.to_nat decpt in
    (substring 0 point digits ++ "." ++ substring point (len - point) digits)%string
  else
    (digits ++ zeros_str (decpt - n) ++ ".0")%string.

(* ===================================================================== *)
(** * The json module *)
(* ===================================================================== *)

Module json.

(** ** Encoder *)

Definition quote : ascii := ascii_of_N 34.
Definition backslash : ascii := ascii_of_N 92.

Definition hex_digit (n : N) : ascii :=
  (if n <? 10 then ascii_of_N (48 + n) else ascii_of_N (87 + n))%N.

(** The replacement [json.encoder.ESCAPE_DCT] holds for a character that
    [ESCAPE] matches: the quote, the backslash and the controls below 0x20. *)
Definition escape_char (c : ascii) : string :=
  let n := N_of_ascii c in
  (if n =? 34 then String backslash (String c EmptyString)
   else if n =? 92 then String backslash (String backslash EmptyString)
   else if n =? 10 then String backslash "n"
   else if n =? 13 then String backslash "r"
   else if n =? 9 then String backslash "t"
   else if n =? 8 then String backslash "b"
   else if n =? 12 then String backslash "f"
   else if n <? 32 then
     String backslash
       (String "u" (String "0" (String "0"
          (String (hex_digit (n / 16)) (String (hex_digit (n mod 16)) EmptyString)))))
   else String c EmptyString)%N.

Fixpoint escape_all (s : string) : string :=
  match s with
  | EmptyString => EmptyString
  | String c s' => (escape_char c ++ escape_all s')%string
  end.

(** [json.encoder.encode_basestring], the encoder of strings under
    [ensure_ascii=False]. *)
Definition encode_basestring (s : string) : string :=
  (String quote (escape_all s) ++ String quote EmptyString)%string.

(** [int.__repr__]. *)
Definition int_repr (z : Z) : string :=
  if z <? 0 then String "-" (dec_digits (- z)) else dec_digits z.

(** [floatstr] of [json.encoder], under [allow_nan=True]. *)
Definition floatstr (f : spec_float) : string :=
  match f with
  | S754_nan => "NaN"
  | S754_infinity false => "Infinity"
  | S754_infinity true => "-Infinity"
  | S754_zero false => "0.0"
  | S754_zero true => "-0.0"
  | S754_finite false m e => repr_finite m e
  | S754_finite true m e => String "-" (repr_finite m e)
  end.

(** The one chunk of a value that is not a container. *)
Definition scalar_chunk (v : pyval) : option string :=
  match v with
  | PStr s => Some (encode_basestring s)
  | PNone => Some "null"
  | PBool true => Some "true"
  | PBool false => Some "false"
  | PInt z => Some (int_repr z)
  | PFloat f => Some (floatstr f)
  | PList _ | PDict _ => None
  end.

(** ['\n' + indent * level] for [indent=2]. *)
Definition newline_indent (level : nat) : string :=
  String (ascii_of_N 10) (string_of_list_ascii (repeat " "%char (2 * level))).

(** [JSONEncoder(indent=2, ensure_ascii=False).iterencode(v)]: the chunks
    [_make_iterencode] yields at nesting [level], in order. *)
Fixpoint iterencode (level : nat) (v : pyval) {struct v} : list string :=
  match v with
  | PList l =>
      match l with
      | [] => ["[]"]
      | _ =>
          (fix items (first : bool) (l : list pyval) {struct l} : list string :=
             match l with
             | [] => []
             | x :: l' =>
                 let buf := ((if first then "[" else ",") ++ newline_indent (S level))%string in
                 match scalar_chunk x with
                 | Some chunk => [(buf ++ chunk)%string]
                 | None => buf :: iterencode (S level) x
                 end ++ items false l'
             end) true l
          ++ [newline_indent level; "]"]
      end
  | PDict d =>
      match d with
      | [] => ["{}"]
      | _ =>
          ["{"; newline_indent (S level)]
          ++ (fix items (first : bool) (d : list (string * pyval)) {struct d} : list string :=
                match d with
                | [] => []
                | (k, x) :: d' =>
                    (if first then [] else [("," ++ newline_indent (S level))%string])
                    ++ [encode_basestring k; ": "]
                    ++ match scalar_chunk x with
                       | Some chunk => [chunk]
                       | None => iterencode (S level) x
                       end
                    ++ items false d'
                end) true d
          ++ [newline_indent level; "}"]
      end
  | _ =>
      match scalar_chunk v with
      | Some chunk => [chunk]
      | None => []
      end
  end.

(** [json.dumps(v, indent=2, ensure_ascii=False)]. *)
Definition dumps (v : pyval) : string := String.concat EmptyString (iterencode 0 v).


(** ** Decoder *)

Definition is_ws (c : ascii) : bool :=
  let n := N_of_ascii c in ((n =? 32) || (n =? 9) || (n =? 10) || (n =? 13))%N.

Fixpoint skip_ws (s : string) : string :=
  match s with
  | String c s' => if is_ws c then skip_ws s' else s
  | EmptyString => s
  end.

Definition is_digit : ascii -> bool := byte_in 48 57.

(** The longest prefix of decimal digits, and what follows it. *)
Fixpoint take_digits (s : string) : string * string :=
  match s with
  | String c s' =>
      if is_digit c then let '(d, r) := take_digits s' in (String c d, r)
      else (EmptyString, s)
  | EmptyString => (EmptyString, s)
  end.

Definition digit_val (c : ascii) : Z := Z.of_N (N_of_ascii c) - 48.

Definition int_of_digits (d : string) : Z :=
  fold_left (fun acc c => 10 * acc + digit_val c) (list_ascii_of_string d) 0.

Definition hex_val (c : ascii) : option N :=
  let n := N_of_ascii c in
  (if (48 <=? n) && (n <=? 57) then Some (n - 48)
   else if (97 <=? n) && (n <=? 102) then Some (n - 87)
   else if (65 <=? n) && (n <=? 70) then Some (n - 55)
   else None)%N.

(** Four hexadecimal digits, as the number they write. *)
Definition hex4 (a b c d : ascii) : option N :=
  match hex_val a, hex_val b, hex_val c, hex_val d with
  | Some x, Some y, Some z, Some w => Some (((x * 16 + y) * 16 + z) * 16 + w)%N
  | _, _, _, _ => None
  end.

(** The character a one-letter escape stands for ([json.decoder.BACKSLASH]). *)
Definition simple_escape (c : ascii) : option ascii :=
  let n := N_of_ascii c in
  (if (n =? 34) || (n =? 92) || (n =? 47) then Some c
   else if n =? 98 then Some (ascii_of_N 8)
   else if n =? 102 then Some (ascii_of_N 12)
   else if n =? 110 then Some (ascii_of_N 10)
   else if n =? 114 then Some (ascii_of_N 13)
   else if n =? 116 then Some (ascii_of_N 9)
   else None)%N.

(** [scanstring(s, end, strict=True)], from just after the opening quote:
    the decoded string and the text after the closing quote. *)
Fixpoint scanstring (s : string) : option (string * string) :=
  match s with
  | EmptyString => None
  | String c s1 =>
      let n := N_of_ascii c in
      if (n =? 34)%N then Some (EmptyString, s1)
      else if (n <? 32)%N then None
      else if (n =? 92)%N then
        match s1 with
        | EmptyString => None
        | String esc s2 =>
            if (N_of_ascii esc =? 117)%N then
              match s2 with
              | String h1 (String h2 (String h3 (String h4 s6))) =>
                  match hex4 h1 h2 h3 h4 with
                  | None => None
                  | Some uni =>
                      let single :=
                        match scanstring s6 with
                        | Some (str, rest) => Some ((chr_bytes uni ++ str)%string, rest)
                        | None => None
                        end in
                      if ((55296 <=? uni) && (uni <=? 56319))%N then
                        match s6 with
                        | String b (String u (String l1 (String l2 (String l3 (String l4 s12))))) =>
                            if ((N_of_ascii b =? 92) && (N_of_ascii u =? 117))%N then
                              match hex4 l1 l2 l3 l4 with
                              | None => None
                              | Some uni2 =>
                                  if ((56320 <=? uni2) && (uni2 <=? 57343))%N then
                                    let cp := (65536 + (uni - 55296) * 1024 + (uni2 - 56320))%N in
                                    match scanstring s12 with
                                    | Some (str, rest) =>
                                        Some ((chr_bytes cp ++ str)%string, rest)
                                    | None => None
                                    end
                                  else single
                              end
                            else single
                        | _ => single
                        end
                      else single
                  end
              | _ => None
              end
            else
              match simple_escape esc with
              | None => None
              | Some ch =>
                  match scanstring s2 with
                  | Some (str, rest) => Some (String ch str, rest)
                  | None => None
                  end
              end
        end
      else
        match scanstring s1 with
        | Some (str, rest) => Some (String c str, rest)
        | None => None
        end
  end.

(** Whether [s] starts with [p], and what follows. *)
Fixpoint strip_prefix (p s : string) : option string :=
  match p, s with
  | EmptyString, _ => Some s
  | String a p', String b s' => if Ascii.eqb a b then strip_prefix p' s' else None
  | _, _ => None
  end.

(** The fraction of a number: a dot and at least one digit, if they are
    there; its digits and what follows. *)
Definition scan_frac (s : string) : string * string :=
  match s with
  | String dot r =>
      if (N_of_ascii dot =? 46)%N then
        match take_digits r with
        | (EmptyString, _) => (EmptyString, s)
        | (digits, rest) => (digits, rest)
        end
      else (EmptyString, s)
  | EmptyString => (EmptyString, s)
  end.

(** The exponent of a number: [e] or [E], an optional sign and at least one
    digit, if they are there; its value and what follows. *)
Definition scan_exp (s : string) : option Z * string :=
  match s with
  | String e r =>
      if ((N_of_ascii e =? 101) || (N_of_ascii e =? 69))%N then
        let '(negative, r') :=
          match r with
          | String sign r' =>
              if (N_of_ascii sign =? 45)%N then (true, r')
              else if (N_of_ascii sign =? 43)%N then (false, r')
              else (false, r)
          | EmptyString => (false, r)
          end in
        match take_digits r' with
        | (EmptyString, _) => (None, s)
        | (digits, rest) =>
            (Some (if negative then - int_of_digits digits else int_of_digits digits), rest)
        end
      else (None, s)
  | EmptyString => (None, s)
  end.

(** The number that starts at the head of [s], after its sign [neg], if one
    starts there: a zero, or a digit from 1 to 9 with any digits after it,
    then the optional fraction and exponent.  An [int] when it has neither,
    a correctly rounded [float] otherwise. *)
Definition match_unsigned (neg : bool) (s : string) : option (pyval * string) :=
  match s with
  | String c r =>
      if is_digit c then
        let '(integer, s2) :=
          if (N_of_ascii c =? 48)%N then (String c EmptyString, r) else take_digits s in
        let '(frac, s3) := scan_frac s2 in
        let '(exp, s4) := scan_exp s3 in
        match frac, exp with
        | EmptyString, None =>
            Some (PInt (if neg then - int_of_digits integer else int_of_digits integer), s4)
        | _, _ =>
            let e10 := match exp with Some e => e | None => 0 end in
            Some (PFloat (float_of_decimal neg (int_of_digits (integer ++ frac))
                                           (e10 - Z.of_nat (String.length frac))), s4)
        end
      else None
  | EmptyString => None
  end.

(** The number the scanner reads at the start of [s], if one starts there,
    with its optional minus sign. *)
Definition match_number (s : string) : option (pyval * string) :=
  match s with
  | String c r => if (N_of_ascii c =? 45)%N then match_unsigned true r else match_unsigned false s
  | EmptyString => None
  end.

(** The constants and numbers of [scan_once]. *)
Definition scan_atom (s : string) : option (pyval * string) :=
  match s with
  | EmptyString => None
  | String c _ =>
      let n := N_of_ascii c in
      let literal (word : string) (v : pyval) :=
        match strip_prefix word s with
        | Some rest => Some (v, rest)
        | None => None
        end in
      if (n =? 110)%N then literal "null" PNone
      else if (n =? 116)%N then literal "true" (PBool true)
      else if (n =? 102)%N then literal "false" (PBool false)
      else
        match match_number s with
        | Some r => Some r
        | None =>
            if (n =? 78)%N then literal "NaN" (PFloat S754_nan)
            else if (n =? 73)%N then literal "Infinity" (PFloat (S754_infinity false))
            else if (n =? 45)%N then literal "-Infinity" (PFloat (S754_infinity true))
            else None
        end
  end.

(** [scan_once(s, idx)]: the value that starts at the head of [s] and the
    text after it.  The functions below it are [JSONArray] and [JSONObject]
    after the opening bracket and leading white space.  [fuel] bounds the
    calls; [None] is a [JSONDecodeError]. *)
Fixpoint scan_once (fuel : nat) (s : string) {struct fuel} : option (pyval * string) :=
  match fuel with
  | O => None
  | S fuel' =>
      match s with
      | EmptyString => None
      | String c s1 =>
          let n := N_of_ascii c in
          if (n =? 34)%N then
            match scanstring s1 with
            | Some (str, rest) => Some (PStr str, rest)
            | None => None
            end
          else if (n =? 123)%N then
            match skip_ws s1 with
            | String c' rest' =>
                if (N_of_ascii c' =? 125)%N then Some (PDict [], rest')
                else
                  match parse_pairs fuel' (skip_ws s1) with
                  | Some (pairs, rest) => Some (PDict (dict_of_items pairs), rest)
                  | None => None
                  end
            | EmptyString => None
            end
          else if (n =? 91)%N then
            match skip_ws s1 with
            | String c' rest' =>
                if (N_of_ascii c' =? 93)%N then Some (PList [], rest')
                else
                  match parse_items fuel' (skip_ws s1) with
                  | Some (items, rest) => Some (PList items, rest)
                  | None => None
                  end
            | EmptyString => None
            end
          else scan_atom s
      end
  end

with parse_items (fuel : nat) (s : string) {struct fuel}
  : option (list pyval * string) :=
  match fuel with
  | O => None
  | S fuel' =>
      match scan_once fuel' s with
      | None => None
      | Some (v, rest) =>
          match skip_ws rest with
          | String c rest' =>
              if (N_of_ascii c =? 93)%N then Some ([v], rest')
              else if (N_of_ascii c =? 44)%N then
                match parse_items fuel' (skip_ws rest') with
                | Some (vs, rest'') => Some (v :: vs, rest'')
                | None => None
                end
              else None
          | EmptyString => None
          end
      end
  end

with parse_pairs (fuel : nat) (s : string) {struct fuel}
  : option (list (string * pyval) * string) :=
  match fuel with
  | O => None
  | S fuel' =>
      match s with
      | String q s1 =>
          if (N_of_ascii q =? 34)%N then
            match scanstring s1 with
            | None => None
            | Some (key, after_key) =>
                match skip_ws after_key with
                | String colon after_colon =>
                    if (N_of_ascii colon =? 58)%N then
                      match scan_once fuel' (skip_ws after_colon) with
                      | None => None
                      | Some (v, rest) =>
                          match skip_ws rest with
                          | String c rest' =>
                              if (N_of_ascii c =? 125)%N then Some ([(key, v)], rest')
                              else if (N_of_ascii c =? 44)%N then
                                match parse_pairs fuel' (skip_ws rest') with
                                | Some (kvs, rest'') => Some ((key, v) :: kvs, rest'')
                                | None => None
                                end
                              else None
                          | EmptyString => None
                          end
                      end
                    else None
                | EmptyString => None
                end
            end
          else None
      | EmptyString => None
      end
  end.

(** [json.loads(s)]: white space, one value, white space, nothing else.  This
    is the decoder on a text it can walk: on arrays and objects nested past
    the recursion limit it raises [RecursionError], and on an integer of
    more than 4300 digits [ValueError], neither of them a [JSONDecodeError];
    the statements that depend on the difference say which texts they
    take. *)
Definition loads (s : string) : exn + pyval :=
  match scan_once (2 * String.length s + 2) (skip_ws s) with
  | Some (v, rest) =>
      match skip_ws rest with
      | EmptyString => inr v
      | _ => inl JSONDecodeError
      end
  | None => inl JSONDecodeError
  end.

End json.

(* ===================================================================== *)
(** * config.py: class ConfigManager *)
(* ===================================================================== *)

(** What the operating system does to one attempt at writing the settings
    file: nothing wrong; [mkdir] fails; [open] fails; or the device fails
    while the text is written, flushed or closed, after [reached] bytes.
    Each failure is an [OSError]. *)
Inductive write_fault : Type :=
| Write_ok
| Mkdir_fails
| Open_fails
| Write_fails (reached : nat).

(** What it does to one attempt at reading it: [Read_fails] is an [OSError]
    from [open] or from the read. *)
Inductive read_fault : Type :=
| Read_ok
| Read_fails.

(** The file system with the file at [p] holding [content]. *)
Definition fs_write (p : path) (content : bytes) (s : state) : state :=
  set_fs (fun q => if path_eqb q p then Some content else fs s q) s.

(** The chunks a text file opened with [encoding='utf-8'] accepts, in order,
    up to the first one the codec cannot encode; and whether it took all. *)
Fixpoint write_chunks (chunks : list string) : string * bool :=
  match chunks with
  | [] => (EmptyString, true)
  | c :: cs =>
      if utf8_valid c then
        let '(text, complete) := write_chunks cs in ((c ++ text)%string, complete)
      else (EmptyString, false)
  end.

Module ConfigManager.

Definition DEFAULT_SETTINGS : dict :=
  [("language", PStr "en"); ("interval", PInt 60); ("muted", PBool false)].

(** [self.config_path.parent.mkdir(parents=True, exist_ok=True)].
    Directories are not entries of [fs]; the call can only fail. *)
Definition mkdir_parent (w : write_fault) : M unit :=
  match w with
  | Mkdir_fails => raise OSError
  | _ => ret tt
  end.

(** [with open(self.config_path, 'w', encoding='utf-8') as f:
       json.dump(obj, f, indent=2, ensure_ascii=False)].
    Opening truncates the file; [json.dump] writes the chunks of the
    encoder one by one; leaving the block closes the file, whatever was
    raised inside.  On a failing device the [OSError] of the flush
    prevails. *)
Definition open_and_dump (w : write_fault) (obj : pyval) : M unit :=
  p <- gets config_path ;;
  let '(text, complete) := write_chunks (json.iterencode 0 obj) in
  match w with
  | Mkdir_fails | Open_fails => raise OSError
  | Write_fails reached =>
      modify (fs_write p (substring 0 reached text)) ;;
      raise OSError
  | Write_ok =>
      modify (fs_write p text) ;;
      if complete then ret tt else raise UnicodeEncodeError
  end.

(** [ConfigManager.save]; [settings=None] is [None] here. *)
Definition save (settings : option dict) (w : write_fault) : M bool :=
  match settings with
  | Some d => modify (set_settings d)
  | None => ret tt
  end ;;
  try_except
    (mkdir_parent w ;;
     current <- gets _settings ;;
     open_and_dump w (PDict current) ;;
     p <- gets config_path ;;
     logger INFO (Config_saved p) ;;
     ret true)
    [OSError]
    (fun e =>
       logger ERROR (Failed_to_save_config e) ;;
       ret false).

(** [with open(self.config_path, 'r', encoding='utf-8') as f:
       loaded = json.load(f)]: the whole file is read and decoded, then
    parsed. *)
Definition open_and_load (r : read_fault) : M pyval :=
  p <- gets config_path ;;
  content <- gets (fun s => fs s p) ;;
  match r, content with
  | Read_fails, _ | _, None => raise OSError
  | Read_ok, Some b =>
      if utf8_valid b then lift (json.loads b) else raise UnicodeDecodeError
  end.

(** [{**self.DEFAULT_SETTINGS, **loaded}]: unpacking needs a mapping. *)
Definition merge_with_defaults (loaded : pyval) : exn + dict :=
  match loaded with
  | PDict d => inr (dict_merge DEFAULT_SETTINGS d)
  | _ => inl TypeError
  end.

(** [ConfigManager.load], under what the operating system does to its read
    and to the write of its recovery. *)
Definition load (r : read_fault) (w : write_fault) : M dict :=
  p <- gets config_path ;;
  present <- path_exists p ;;
  if negb present then
    logger INFO (Config_file_not_found p) ;;
    modify (set_settings DEFAULT_SETTINGS) ;;
    current <- gets _settings ;;
    save (Some current) w ;;
    gets _settings
  else
    try_except
      (loaded <- open_and_load r ;;
       merged <- lift (merge_with_defaults loaded) ;;
       modify (set_settings merged) ;;
       logger INFO (Config_loaded p))
      [JSONDecodeError; OSError]
      (fun e =>
         logger WARNING (Failed_to_load_config e) ;;
         modify (set_settings DEFAULT_SETTINGS) ;;
         current <- gets _settings ;;
         save (Some current) w ;;
         ret tt) ;;
    gets _settings.

(** [ConfigManager.__init__]. *)
Definition __init__ (path_ : path) (r : read_fault) (w : write_fault) : M unit :=
  modify (fun s => mkState (fs s) path_ [] (assets_dir s)
                           (_last_played_minute s) (_last_played_hour s)
                           (played s) (log s)) ;;
  load r w ;;
  ret tt.

(** [ConfigManager.get]. *)
Definition get (key : string) (default : pyval) : M pyval :=
  gets (fun s => dict_get (_settings s) key default).

(** [ConfigManager.set]. *)
Definition set (key : string) (value : pyval) (auto_save : bool) (w : write_fault)
  : M unit :=
  modify (fun s => set_settings (dict_setitem (_settings s) key value) s) ;;
  if auto_save then save None w ;; ret tt else ret tt.

(** The property [ConfigManager.settings]. *)
Definition settings : M dict := gets _settings.

End ConfigManager.

(* ===================================================================== *)
(** * scheduler.py: class TimeAnnouncer *)
(* ===================================================================== *)

Module TimeAnnouncer.

(** What [datetime.now()] returned: the two attributes the engine reads. *)
Record datetime : Type := mkTime { hour : Z; minute : Z }.

(** The values [datetime.now()] can have. *)
Definition valid_time (now : datetime) : Prop :=
  0 <= hour now <= 23 /\ 0 <= minute now <= 59.

Fixpoint zeros (n : nat) : string :=
  match n with
  | O => EmptyString
  | S n' => String "0" (zeros n')
  end.

(** Zero padding on the left up to [width] characters. *)
Definition zfill (width : nat) (digits : string) : string :=
  (zeros (width - String.length digits) ++ digits)%string.

(** [f"{n:02d}"]: the decimal digits of [n], padded with zeros between the
    sign and the digits up to two characters in all. *)
Definition format_02d (n : Z) : string :=
  let digits := NilZero.string_of_uint (N.to_uint (Z.abs_N n)) in
  if n <? 0 then String "-" (zfill 1 digits) else zfill 2 digits.

(** [p / v]: joining a path with an object that is not a string (nor
    path-like, which no settings value is) is a [TypeError]. *)
Definition truediv (p : path) (v : pyval) : exn + path :=
  match v with
  | PStr s => inr (joinpath p s)
  | _ => inl TypeError
  end.

(** The text [f"{language}"] interpolates, for a [language] that went through
    [truediv], hence is a string. *)
Definition str_of (v : pyval) : string :=
  match v with
  | PStr s => s
  | _ => EmptyString
  end.

(** [TimeAnnouncer.__init__], once [self.config] and [self.player] are bound. *)
Definition __init__ (assets : path) : M unit :=
  modify (fun s => mkState (fs s) (config_path s) (_settings s) assets
                           (_last_played_minute s) (_last_played_hour s)
                           (played s) (log s)) ;;
  modify (set_last_played_minute (-1)) ;;
  modify (set_last_played_hour (-1)) ;;
  logger INFO TimeAnnouncer_initialized.

(** [TimeAnnouncer._already_played]. *)
Definition _already_played (hour minute : Z) : M bool :=
  gets (fun s => (_last_played_hour s =? hour) && (_last_played_minute s =? minute)).

(** The local [hour_12] of [_play_time_audio]: the 24-hour value converted
    to the 12-hour clock. *)
Definition hour_12_of (hour : Z) : Z :=
  let hour_12 := hour mod 12 in
  if hour_12 =? 0 then 12 else hour_12.

(** The local [filename] of [_play_time_audio]:
    [f"{hour_12:02d}_{minute:02d}.ogg"]. *)
Definition filename_of (hour minute : Z) : string :=
  (format_02d (hour_12_of hour) ++ "_" ++ format_02d minute ++ ".ogg")%string.

(** [TimeAnnouncer._play_time_audio]. *)
Definition _play_time_audio (hour minute : Z) : M unit :=
  let hour_12 := hour_12_of hour in
  language <- ConfigManager.get "language" (PStr "en") ;;
  let filename := filename_of hour minute in
  assets <- gets assets_dir ;;
  lang_dir <- lift (truediv (joinpath assets "audio") language) ;;
  let audio_path := joinpath lang_dir filename in
  primary <- path_exists_below (str_of language) audio_path ;;
  if primary then
    logger INFO (Announcing_time (format_02d hour_12) (format_02d minute)
                                 (str_of language) false) ;;
    player_play audio_path
  else
    let audio_path_mp3 := with_suffix audio_path ".mp3" in
    secondary <- path_exists_below (str_of language) audio_path_mp3 ;;
    if secondary then
      logger INFO (Announcing_time (format_02d hour_12) (format_02d minute)
                                   (str_of language) true) ;;
      player_play audio_path_mp3
    else
      logger WARNING (Audio_file_not_found audio_path audio_path_mp3).

(** [TimeAnnouncer.check_and_announce], with the value of [datetime.now()]. *)
Definition check_and_announce (now : datetime) : M bool :=
  muted <- ConfigManager.get "muted" PNone ;;
  if truthy muted then ret true
  else
    let current_hour := hour now in
    let current_minute := minute now in
    interval <- ConfigManager.get "interval" (PInt 60) ;;
    matches <- lift (mod_is_zero current_minute interval) ;;
    (if matches then
       already <- _already_played current_hour current_minute ;;
       if negb already then
         modify (set_last_played_hour current_hour) ;;
         modify (set_last_played_minute current_minute) ;;
         _play_time_audio current_hour current_minute
       else ret tt
     else ret tt) ;;
    ret true.

(** [TimeAnnouncer.force_announce], with the value of [datetime.now()]. *)
Definition force_announce (now : datetime) : M unit :=
  _play_time_audio (hour now) (minute now).

(** [TimeAnnouncer.reset_debounce]. *)
Definition reset_debounce : M unit :=
  modify (set_last_played_minute (-1)) ;;
  modify (set_last_played_hour (-1)).

End TimeAnnouncer.

(* ===================================================================== *)
(** * Vocabulary of the statements *)
(* ===================================================================== *)

(** The debounce state: the hour and minute last announced, [(-1, -1)] for
    never. *)
Definition debounce (s : state) : Z * Z := (_last_played_hour s, _last_played_minute s).

Definition time_pair (now : TimeAnnouncer.datetime) : Z * Z :=
  (TimeAnnouncer.hour now, TimeAnnouncer.minute now).

(** The settings the engine reads on a tick, with the defaults it passes. *)
Definition muted_setting (s : state) : pyval := dict_get (_settings s) "muted" PNone.
Definition interval_setting (s : state) : pyval := dict_get (_settings s) "interval" (PInt 60).
Definition language_setting (s : state) : pyval := dict_get (_settings s) "language" (PStr "en").

Definition exists_in (s : state) (p : path) : bool :=
  match fs s p with Some _ => true | None => false end.

(** The primary and the fallback asset of a time, in a language. *)
Definition ogg_path (s : state) (language : string) (hour minute : Z) : path :=
  joinpath (joinpath (joinpath (assets_dir s) "audio") language)
           (TimeAnnouncer.filename_of hour minute).

Definition mp3_path (s : state) (language : string) (hour minute : Z) : path :=
  with_suffix (ogg_path s language hour minute) ".mp3".

(** The clip of a time: the primary asset if it exists, else the fallback if
    that exists; the fallback is not looked up when the look-up of the
    primary asset fails on the name of the language. *)
Definition clip_for (s : state) (language : string) (hour minute : Z) : option path :=
  if exists_in s (ogg_path s language hour minute)
  then Some (ogg_path s language hour minute)
  else if name_too_long language then None
  else if exists_in s (mp3_path s language hour minute)
       then Some (mp3_path s language hour minute)
       else None.

(** The state with [now] recorded as the debounce state. *)
Definition mark (now : TimeAnnouncer.datetime) (s : state) : state :=
  set_last_played_minute (TimeAnnouncer.minute now)
    (set_last_played_hour (TimeAnnouncer.hour now) s).

Definition clip_list (c : option path) : list path :=
  match c with
  | Some p => [p]
  | None => []
  end.

(** A tick announces [now] when it records [now] as the debounce state and
    then resolves and plays the clip of [now]. *)
Definition announces (now : TimeAnnouncer.datetime) (s : state) (o : outcome bool) : Prop :=
  o = bind (TimeAnnouncer._play_time_audio (TimeAnnouncer.hour now) (TimeAnnouncer.minute now))
           (fun _ => ret true) (mark now s).

(** Whether the debounce state is the time [now]. *)
Definition debounced (s : state) (now : TimeAnnouncer.datetime) : bool :=
  (_last_played_hour s =? TimeAnnouncer.hour now)
  && (_last_played_minute s =? TimeAnnouncer.minute now).

(** The calls a tick at [now] makes to the player, read off the state it
    starts in. *)
Definition tick_plays (s : state) (now : TimeAnnouncer.datetime) : list path :=
  if truthy (muted_setting s) then []
  else
    match mod_is_zero (TimeAnnouncer.minute now) (interval_setting s) with
    | inr true =>
        if debounced s now then []
        else
          match language_setting s with
          | PStr language =>
              clip_list (clip_for s language (TimeAnnouncer.hour now)
                                  (TimeAnnouncer.minute now))
          | _ => []
          end
    | _ => []
    end.

(** The state after a sequence of ticks, with nothing else in between. *)
Fixpoint run_ticks (ticks : list TimeAnnouncer.datetime) (s : state) : state :=
  match ticks with
  | [] => s
  | t :: ts => run_ticks ts (final (TimeAnnouncer.check_and_announce t s))
  end.

Definition time_eqb (a b : TimeAnnouncer.datetime) : bool :=
  (TimeAnnouncer.hour a =? TimeAnnouncer.hour b)
  && (TimeAnnouncer.minute a =? TimeAnnouncer.minute b).

(** How many playbacks the ticks of a sequence that fall on the time [t]
    cause. *)
Fixpoint playbacks_at (t : TimeAnnouncer.datetime) (ticks : list TimeAnnouncer.datetime)
  (s : state) : nat :=
  match ticks with
  | [] => 0%nat
  | u :: us =>
      let s' := final (TimeAnnouncer.check_and_announce u s) in
      ((if time_eqb u t then List.length (played s') - List.length (played s) else 0)
       + playbacks_at t us s')%nat
  end.

(** The reading of "at most one playback per distinct (hour, minute) pair"
    for a sequence of ticks with no reset in between. *)
Definition at_most_one_playback_per_pair (ticks : list TimeAnnouncer.datetime)
  (s : state) : Prop :=
  forall t, (playbacks_at t ticks s <= 1)%nat.

(** The 12-hour form of an hour, as the specification tabulates it. *)
Definition twelve_hour (hour_24 : Z) : Z :=
  if (hour_24 =? 0) || (hour_24 =? 12) then 12
  else if 13 <=? hour_24 then hour_24 - 12
  else hour_24.

(** A number below 100 written with exactly two digits. *)
Definition two_digits (n : Z) : string :=
  String (ascii_of_N (48 + Z.to_N (n / 10)))
         (String (ascii_of_N (48 + Z.to_N (n mod 10))) EmptyString).

(** The asset key [HH_MM] of the specification. *)
Definition asset_key (hour_24 minute : Z) : string :=
  (two_digits (twelve_hour hour_24) ++ "_" ++ two_digits minute)%string.

(** Whether the file name the engine builds for a time, and the name its
    fallback gets, are the asset key with the two extensions. *)
Definition names_agree (hour_24 minute : Z) : bool :=
  String.eqb (TimeAnnouncer.filename_of hour_24 minute)
             (asset_key hour_24 minute ++ ".ogg")
  && String.eqb (name_with_suffix (TimeAnnouncer.filename_of hour_24 minute) ".mp3")
                (asset_key hour_24 minute ++ ".mp3")
  && (TimeAnnouncer.hour_12_of hour_24 =? twelve_hour hour_24).

(** A settings record over the three known keys. *)
Definition settings_record (language : string) (interval : Z) (muted : bool) : dict :=
  [("language", PStr language); ("interval", PInt interval); ("muted", PBool muted)].

(** The state in which the settings file holds the bytes [b]. *)
Definition with_settings_file (b : bytes) (s : state) : state :=
  fs_write (config_path s) b s.

(** The number a string of digits writes, continuing from [acc]. *)
Definition digits_value (acc : Z) (d : string) : Z :=
  fold_left (fun acc c => 10 * acc + json.digit_val c) (list_ascii_of_string d) acc.

Definition is_dict (v : pyval) : bool :=
  match v with
  | PDict _ => true
  | _ => false
  end.


(** A state of the reference deployment used in examples: English clips for
    two and three o'clock, hourly announcements, a fresh engine. *)
Definition demo_state : state :=
  mkState (fun p => if path_eqb p ["assets"; "audio"; "en"; "02_00.ogg"] then Some "OggS"
                    else if path_eqb p ["assets"; "audio"; "en"; "03_00.mp3"] then Some "ID3"
                    else None)
          ["data"; "settings.json"]
          [("language", PStr "en"); ("interval", PInt 60); ("muted", PBool false)]
          ["assets"] (-1) (-1) [] [].


(* ===================================================================== *)
(** * The scripts: file_namer.py, generate_audio.py, test_bangla_voice.py *)
(* ===================================================================== *)

(** The exceptions the scripts and the user interface add to those of
    [exn]. *)
Inductive pyexn : Type :=
| Exn (e : exn)
| ValueError
| KeyError
| AttributeError.

(** [list(range(start, stop, step))]: the length is the one CPython
    computes; a zero step is a [ValueError]. *)
Definition range (start stop step : Z) : pyexn + list Z :=
  if step =? 0 then inl ValueError
  else
    let n :=
      if 0 <? step
      then if start <? stop then 1 + (stop - start - 1) / step else 0
      else if stop <? start then 1 + (start - stop - 1) / (- step) else 0 in
    inr (map (fun k => start + Z.of_nat k * step) (seq 0 (Z.to_nat n))).

(** The items a loop body appends over the elements of a list, in order,
    up to the first element on which the body raises. *)
Fixpoint loop {A B} (xs : list A) (body : A -> pyexn + list B) : pyexn + list B :=
  match xs with
  | [] => inr []
  | x :: xs' =>
      match body x with
      | inl e => inl e
      | inr ys =>
          match loop xs' body with
          | inl e => inl e
          | inr zs => inr (ys ++ zs)
          end
      end
  end.

(** [for x in iterable: body], where making the iterable can raise too. *)
Definition for_each {A B} (iterable : pyexn + list A) (body : A -> pyexn + list B)
  : pyexn + list B :=
  match iterable with
  | inl e => inl e
  | inr xs => loop xs body
  end.

(** [d[k]] on a dictionary with [int] keys. *)
Fixpoint getitem (d : list (Z * string)) (k : Z) : pyexn + string :=
  match d with
  | [] => inl KeyError
  | (k', v) :: d' => if k =? k' then inr v else getitem d' k
  end.

(** Whether [p] is a prefix of [s], and [s] without its first [n]
    characters. *)
Fixpoint startswith (s p : string) : bool :=
  match p, s with
  | EmptyString, _ => true
  | String a p', String b s' => Ascii.eqb a b && startswith s' p'
  | String _ _, EmptyString => false
  end.

Fixpoint drop (n : nat) (s : string) : string :=
  match n, s with
  | O, _ => s
  | S n', String _ s' => drop n' s'
  | S _, EmptyString => EmptyString
  end.

(** [s.replace(old, new)] for a non-empty [old]: the occurrences of [old]
    are replaced from the left, none overlapping another.  On well-formed
    UTF-8 the search by bytes finds what the search by characters finds. *)
Fixpoint replace_from (fuel : nat) (old new s : string) : string :=
  match fuel with
  | O => s
  | S fuel' =>
      match s with
      | EmptyString => EmptyString
      | String c rest =>
          if startswith s old
          then (new ++ replace_from fuel' old new (drop (String.length old) s))%string
          else String c (replace_from fuel' old new rest)
      end
  end.

Definition replace (s old new : string) : string :=
  replace_from (String.length s) old new s.

Module file_namer.

(** [generate_filenames(interval)], for an [int]. *)
Definition generate_filenames (interval : Z) : pyexn + list string :=
  for_each (range 1 13 1) (fun hour =>
    for_each (range 0 60 interval) (fun minute =>
      inr [(TimeAnnouncer.format_02d hour ++ "_"
            ++ TimeAnnouncer.format_02d minute ++ ".ogg")%string])).

End file_namer.

Module generate_audio.

Definition BANGLA_HOURS : list (Z * string) :=
  [(1, "একটা"); (2, "দুইটা"); (3, "তিনটা"); (4, "চারটা"); (5, "পাঁচটা"); (6, "ছয়টা");
   (7, "সাতটা"); (8, "আটটা"); (9, "নয়টা"); (10, "দশটা"); (11, "এগারোটা");
   (12, "বারোটা")].

Definition BANGLA_MINUTES : list (Z * string) :=
  [(0, EmptyString); (15, "বেজে পনেরো মিনিট"); (30, "বেজে ত্রিশ মিনিট");
   (45, "বেজে পঁয়তাল্লিশ মিনিট")].

(** [get_bangla_time_of_day]. *)
Definition get_bangla_time_of_day (hour_24 : Z) : string :=
  if (4 <=? hour_24) && (hour_24 <=? 5) then "ভোর"
  else if (6 <=? hour_24) && (hour_24 <=? 11) then "সকাল"
  else if (12 <=? hour_24) && (hour_24 <=? 15) then "দুপুর"
  else if (16 <=? hour_24) && (hour_24 <=? 17) then "বিকেল"
  else if (18 <=? hour_24) && (hour_24 <=? 19) then "সন্ধ্যা"
  else "রাত".

(** [get_bangla_text]. *)
Definition get_bangla_text (hour_24 minute : Z) : pyexn + string :=
  let hour_12 := hour_24 mod 12 in
  let hour_12 := if hour_12 =? 0 then 12 else hour_12 in
  let time_of_day := get_bangla_time_of_day hour_24 in
  match getitem BANGLA_HOURS hour_12 with
  | inl e => inl e
  | inr hour_word =>
      if minute =? 0 then inr ("এখন সময় " ++ time_of_day ++ " " ++ hour_word)%string
      else
        match getitem BANGLA_MINUTES minute with
        | inl e => inl e
        | inr minute_phrase =>
            let hour_base := replace hour_word "টা" "টা" in
            inr ("এখন সময় " ++ time_of_day ++ " " ++ hour_base ++ " "
                 ++ minute_phrase)%string
        end
  end.

Definition ENGLISH_HOURS : list (Z * string) :=
  [(1, "one"); (2, "two"); (3, "three"); (4, "four"); (5, "five"); (6, "six");
   (7, "seven"); (8, "eight"); (9, "nine"); (10, "ten"); (11, "eleven"); (12, "twelve")].

Definition ENGLISH_MINUTES : list (Z * string) :=
  [(0, "o'clock"); (15, "fifteen"); (30, "thirty"); (45, "forty-five")].

(** [get_english_period]. *)
Definition get_english_period (hour_24 : Z) : string :=
  if (0 <=? hour_24) && (hour_24 <=? 4) then "at night"
  else if (5 <=? hour_24) && (hour_24 <=? 11) then "in the morning"
  else if hour_24 =? 12 then "in the afternoon"
  else if (13 <=? hour_24) && (hour_24 <=? 17) then "in the afternoon"
  else if (18 <=? hour_24) && (hour_24 <=? 20) then "in the evening"
  else "at night".

(** [get_english_text]. *)
Definition get_english_text (hour_24 minute : Z) : pyexn + string :=
  let hour_12 := hour_24 mod 12 in
  let hour_12 := if hour_12 =? 0 then 12 else hour_12 in
  match getitem ENGLISH_HOURS hour_12 with
  | inl e => inl e
  | inr hour_word =>
      let period := get_english_period hour_24 in
      if minute =? 0 then inr ("It is " ++ hour_word ++ " o'clock " ++ period)%string
      else
        match getitem ENGLISH_MINUTES minute with
        | inl e => inl e
        | inr minute_word =>
            inr ("It is " ++ hour_word ++ " " ++ minute_word ++ " " ++ period)%string
        end
  end.

(** The slots [generate_time_slots] yields, in order. *)
Definition generate_time_slots : list (Z * Z) :=
  flat_map (fun hour => map (fun minute => (hour, minute)) [0; 15; 30; 45])
           (map Z.of_nat (seq 0 24)).

(** The local [filename] of the loops of [main]:
    [f"{hour:02d}_{minute:02d}.mp3"]. *)
Definition slot_filename (hour minute : Z) : string :=
  (TimeAnnouncer.format_02d hour ++ "_" ++ TimeAnnouncer.format_02d minute ++ ".mp3")%string.

(** What a loop of [main] computes for each slot before it prints or
    generates: the local [output_path], under the local [assets_dir] and the
    directory of the language, and the local [text]. *)
Definition clips (assets_dir : path) (language : string)
  (text_of : Z -> Z -> pyexn + string) : pyexn + list (path * string) :=
  loop generate_time_slots (fun slot =>
    let '(hour, minute) := slot in
    let filename := slot_filename hour minute in
    let output_path := joinpath (joinpath assets_dir language) filename in
    match text_of hour minute with
    | inl e => inl e
    | inr text => inr [(output_path, text)]
    end).

Definition english_clips (assets_dir : path) : pyexn + list (path * string) :=
  clips assets_dir "en" get_english_text.

Definition bangla_clips (assets_dir : path) : pyexn + list (path * string) :=
  clips assets_dir "bn" get_bangla_text.

End generate_audio.

Module test_bangla_voice.

Definition BANGLA_HOURS : list (Z * string) :=
  [(1, "একটা"); (2, "দুইটা"); (3, "তিনটা"); (4, "চারটা"); (5, "পাঁচটা"); (6, "ছয়টা");
   (7, "সাতটা"); (8, "আটটা"); (9, "নয়টা"); (10, "দশটা"); (11, "এগারোটা"); (12, "বারোটা")].

Definition BANGLA_MINUTES : list (Z * string) :=
  [(0, EmptyString); (15, "বেজে পনেরো মিনিট"); (30, "বেজে ত্রিশ মিনিট"); (45, "বেজে পঁয়তাল্লিশ মিনিট")].

(** [get_bangla_time_of_day] of [test_bangla_voice.py]. *)
Definition get_bangla_time_of_day (hour_24 : Z) : string :=
  if (4 <=? hour_24) && (hour_24 <=? 5) then "ভোর"
  else if (6 <=? hour_24) && (hour_24 <=? 11) then "সকাল"
  else if (12 <=? hour_24) && (hour_24 <=? 15) then "দুপুর"
  else if (16 <=? hour_24) && (hour_24 <=? 17) then "বিকেল"
  else if (18 <=? hour_24) && (hour_24 <=? 19) then "সন্ধ্যা"
  else "রাত".

(** [get_bangla_text] of [test_bangla_voice.py]. *)
Definition get_bangla_text (hour_24 minute : Z) : pyexn + string :=
  let hour_12 := hour_24 mod 12 in
  let hour_12 := if hour_12 =? 0 then 12 else hour_12 in
  let time_of_day := get_bangla_time_of_day hour_24 in
  match getitem BANGLA_HOURS hour_12 with
  | inl e => inl e
  | inr hour_word =>
      if minute =? 0 then inr ("এখন সময় " ++ time_of_day ++ " " ++ hour_word)%string
      else
        match getitem BANGLA_MINUTES minute with
        | inl e => inl e
        | inr minute_phrase =>
            inr ("এখন সময় " ++ time_of_day ++ " " ++ hour_word ++ " "
                 ++ minute_phrase)%string
        end
  end.

End test_bangla_voice.

(* ===================================================================== *)
(** * player.py, tray.py, settings_window.py and the callbacks of main.py *)
(* ===================================================================== *)

(** What the handlers of the user interface and the audio player do beside
    calling the settings store and the engine: the records of their own
    loggers, the notification process they start, the calls they make to
    widgets and to the playbin element of the media backend. *)
Inductive ui_event : Type :=
| Log_status (muted : bool)
| Log_settings_saved (lang_id interval_id : option string)
| Log_notification_failed
| Notify_send (message : string)
| Set_active (v : pyval)
| Destroy
| Set_state_NULL
| Set_uri (file_path : path)
| Set_state_PLAYING
| Log_audio_file_not_found (file_path : path)
| Log_failed_to_play (file_path : path)
| Log_playing (file_path : path)
| Log_gstreamer_error
| Log_debug_info
| Log_playback_finished
| Log_tray_disabled
| Log_tray_initialized.

(** The objects the handlers share: the state of the store and the engine;
    whether [AudioPlayer._player] is an element ([false] once it is [None]);
    the check box [SystemTray.item_mute], when the tray has this attribute,
    with whether the box is active; and what the user interface and the
    player have done so far, oldest first. *)
Record ui : Type := mkUi {
  core : state;
  _player : bool;
  item_mute : option bool;
  trace : list ui_event
}.

Definition set_core (s : state) (u : ui) : ui :=
  mkUi s (_player u) (item_mute u) (trace u).

Definition set_player (alive : bool) (u : ui) : ui :=
  mkUi (core u) alive (item_mute u) (trace u).

Definition set_item_mute (box : option bool) (u : ui) : ui :=
  mkUi (core u) (_player u) box (trace u).

Definition add_trace (e : ui_event) (u : ui) : ui :=
  mkUi (core u) (_player u) (item_mute u) (trace u ++ [e]).

Inductive ui_outcome (A : Type) : Type :=
| URet (a : A) (u : ui)
| URaise (e : pyexn) (u : ui).
Arguments URet {A} a u.
Arguments URaise {A} e u.

Definition U (A : Type) : Type := ui -> ui_outcome A.

Definition uret {A} (a : A) : U A := fun u => URet a u.

Definition ubind {A B} (c : U A) (k : A -> U B) : U B :=
  fun u => match c u with
           | URet a u' => k a u'
           | URaise e u' => URaise e u'
           end.

Declare Scope ui_scope.
Delimit Scope ui_scope with ui.
Notation "x <- c ;; k" := (ubind c (fun x => k))
  (at level 61, c at next level, right associativity) : ui_scope.
Notation "c ;; k" := (ubind c (fun _ => k))
  (at level 61, right associativity) : ui_scope.

(** A method of the store or the engine, called from the user interface. *)
Definition call {A} (c : M A) : U A :=
  fun u => match c (core u) with
           | Ret a s => URet a (set_core s u)
           | Raise e s => URaise (Exn e) (set_core s u)
           end.

(** A pure step that may raise. *)
Definition ulift {A} (r : pyexn + A) : U A :=
  fun u => match r with
           | inl e => URaise e u
           | inr a => URet a u
           end.

Definition emit (e : ui_event) : U unit :=
  fun u => URet tt (add_trace e u).

Definition ufinal {A} (o : ui_outcome A) : ui :=
  match o with
  | URet _ u => u
  | URaise _ u => u
  end.

Definition ureturned {A} (o : ui_outcome A) : option A :=
  match o with
  | URet a _ => Some a
  | URaise _ _ => None
  end.

(** A handler that a widget runs while the program is calling the widget:
    the binding prints what the handler raises, and the call returns. *)
Definition from_signal (handler : U unit) : U unit :=
  fun u => URet tt (ufinal (handler u)).

(** The characters [int] skips around a number in ASCII text. *)
Definition is_space (c : ascii) : bool :=
  let n := N_of_ascii c in ((n =? 32) || ((9 <=? n) && (n <=? 13)))%N.

Fixpoint lstrip (s : string) : string :=
  match s with
  | String c rest => if is_space c then lstrip rest else s
  | EmptyString => EmptyString
  end.

Definition string_rev (s : string) : string :=
  string_of_list_ascii (rev (list_ascii_of_string s)).

Definition strip (s : string) : string :=
  string_rev (lstrip (string_rev (lstrip s))).

(** The value of digits that single underscores may separate. *)
Fixpoint digits_and_underscores (s : string) (acc : Z) (after_digit : bool) : option Z :=
  match s with
  | EmptyString => if after_digit then Some acc else None
  | String c rest =>
      if json.is_digit c
      then digits_and_underscores rest (10 * acc + json.digit_val c) true
      else if Ascii.eqb c "_" && after_digit
           then digits_and_underscores rest acc false
           else None
  end.

(** [int(text)] for ASCII text of no more digits than the interpreter
    converts: white space, an optional sign, decimal digits. *)
Definition int_of_str (text : string) : pyexn + Z :=
  let t := strip text in
  let '(negative, body) :=
    match t with
    | String "-" rest => (true, rest)
    | String "+" rest => (false, rest)
    | _ => (false, t)
    end in
  match digits_and_underscores body 0 false with
  | Some n => inr (if negative then - n else n)
  | None => inl ValueError
  end.

(** [a == v] for a string [a] and for an integer [a]: a string equals only
    the same string; an integer equals the same integer, the boolean of the
    same value and the float of the same value. *)
Definition str_eq (a : string) (v : pyval) : bool :=
  match v with
  | PStr s => String.eqb a s
  | _ => false
  end.

Definition int_eq (a : Z) (v : pyval) : bool :=
  match v with
  | PInt z => a =? z
  | PBool b => a =? (if b then 1 else 0)
  | PFloat (S754_zero _) => a =? 0
  | PFloat (S754_finite sign mant e) =>
      let m := if sign then Z.neg mant else Z.pos mant in
      if 0 <=? e then a =? m * 2 ^ e else a * 2 ^ (- e) =? m
  | _ => false
  end.

(** A [Gtk.ComboBoxText]: the id and the text of each row, and the index of
    the active row, if there is one. *)
Record ComboBoxText : Type := mkCombo {
  rows : list (string * string);
  active : option nat
}.

(** [combo.get_active_id()]. *)
Definition get_active_id (combo : ComboBoxText) : option string :=
  match active combo with
  | Some i => option_map fst (nth_error (rows combo) i)
  | None => None
  end.

(** The user picks the row at an index. *)
Definition pick (i : nat) (combo : ComboBoxText) : ComboBoxText :=
  mkCombo (rows combo) (Some i).

(** The truth value of an optional string: [None] and the empty string are
    false. *)
Definition nonempty (id : option string) : bool :=
  match id with
  | Some s => negb (String.eqb s EmptyString)
  | None => false
  end.

Module AudioPlayer.

(** [Gst.StateChangeReturn]. *)
Inductive StateChangeReturn : Type := FAILURE | SUCCESS | ASYNC | NO_PREROLL.

(** A call on [self._player]: an [AttributeError] once it is [None]. *)
Definition on_element (e : ui_event) : U unit :=
  fun u => if _player u then emit e u else URaise AttributeError u.

(** [AudioPlayer.stop]. *)
Definition stop : U unit := on_element Set_state_NULL.

(** [AudioPlayer.play], with what [set_state(Gst.State.PLAYING)] returns. *)
Definition play (file_path : path) (result : StateChangeReturn) : U bool :=
  (present <- call (path_exists file_path) ;;
   if negb present then
     emit (Log_audio_file_not_found file_path) ;;
     uret false
   else
     stop ;;
     on_element (Set_uri file_path) ;;
     on_element Set_state_PLAYING ;;
     match result with
     | FAILURE =>
         emit (Log_failed_to_play file_path) ;;
         uret false
     | _ =>
         emit (Log_playing file_path) ;;
         uret true
     end)%ui.

(** [AudioPlayer._on_error]. *)
Definition _on_error : U unit :=
  (emit Log_gstreamer_error ;;
   emit Log_debug_info ;;
   stop)%ui.

(** [AudioPlayer._on_eos]. *)
Definition _on_eos : U unit :=
  (emit Log_playback_finished ;;
   stop)%ui.

(** [AudioPlayer.cleanup]. *)
Definition cleanup : U unit :=
  (stop ;;
   fun u => URet tt (set_player false u))%ui.

End AudioPlayer.

Module SettingsWindow.

Definition LANGUAGES : list (string * string) :=
  [("en", "English"); ("bn", "বাংলা (Bangla)")].

Definition INTERVALS : list (Z * string) :=
  [(15, "Every 15 minutes"); (30, "Every 30 minutes"); (60, "Every hour")].

(** The two combo boxes of a settings window. *)
Record widgets : Type := mkWidgets {
  lang_combo : ComboBoxText;
  interval_combo : ComboBoxText
}.

(** One of the two loops of [_build_ui]: every option is appended to the
    combo box as a row, and [active_index] ends as the index of the last
    option equal to the current setting, or stays as it started. *)
Fixpoint fill {A} (equal : A -> pyval -> bool) (id_of : A -> string)
  (options : list (A * string)) (current : pyval) (i : nat)
  (combo : list (string * string)) (active_index : nat)
  : list (string * string) * nat :=
  match options with
  | [] => (combo, active_index)
  | (code, name) :: rest =>
      fill equal id_of rest current (S i) (combo ++ [(id_of code, name)])
           (if equal code current then i else active_index)
  end.

(** [SettingsWindow._build_ui], as far as the two combo boxes it fills and
    activates; the rest lays widgets out. *)
Definition _build_ui : M widgets :=
  current_lang <- ConfigManager.get "language" (PStr "en") ;;
  let '(lang_rows, active_index) :=
    fill str_eq (fun code => code) LANGUAGES current_lang 0 [] 0 in
  let lang_combo := mkCombo lang_rows (Some active_index) in
  current_interval <- ConfigManager.get "interval" (PInt 60) ;;
  let '(interval_rows, active_index) :=
    fill int_eq json.int_repr INTERVALS current_interval 0 [] 2 in
  let interval_combo := mkCombo interval_rows (Some active_index) in
  ret (mkWidgets lang_combo interval_combo).

(** [SettingsWindow._show_notification]: the process starts, or what
    [Popen] raised is logged at debug level. *)
Definition _show_notification (message : string) (popen_ok : bool) : U unit :=
  if popen_ok then emit (Notify_send message) else emit Log_notification_failed.

(** [SettingsWindow._on_save_clicked]. *)
Definition _on_save_clicked (self : widgets) (_on_saved : option (U unit))
  (w : write_fault) (popen_ok : bool) : U unit :=
  (let lang_id := get_active_id (lang_combo self) in
   let interval_id := get_active_id (interval_combo self) in
   (match lang_id with
    | Some id =>
        if nonempty lang_id then call (ConfigManager.set "language" (PStr id) false w)
        else uret tt
    | None => uret tt
    end) ;;
   (match interval_id with
    | Some id =>
        if nonempty interval_id then
          n <- ulift (int_of_str id) ;;
          call (ConfigManager.set "interval" (PInt n) false w)
        else uret tt
    | None => uret tt
    end) ;;
   call (ConfigManager.save None w) ;;
   emit (Log_settings_saved lang_id interval_id) ;;
   _show_notification "Settings saved successfully!" popen_ok ;;
   (match _on_saved with
    | Some callback => callback
    | None => uret tt
    end) ;;
   emit Destroy)%ui.

End SettingsWindow.

Module SystemTray.

(** [SystemTray._on_mute_toggled], with the value of [widget.get_active()]. *)
Definition _on_mute_toggled (muted : bool) (w : write_fault) : U unit :=
  (call (ConfigManager.set "muted" (PBool muted) true w) ;;
   emit (Log_status muted))%ui.

(** The check box changes its state and emits [toggled]: the handler runs
    with the box in its new state.  [w] is what happens to the write of the
    handler. *)
Definition toggled (w : write_fault) : U unit :=
  fun u => match item_mute u with
           | Some active =>
               _on_mute_toggled (negb active) w (set_item_mute (Some (negb active)) u)
           | None => URet tt u
           end.

(** [self.item_mute.set_active(is_active)] once the handler is connected:
    the box changes, and emits [toggled], only when its state is not the
    truth value of the argument. *)
Definition set_active (is_active : pyval) (w : write_fault) : U unit :=
  fun u => match item_mute u with
           | Some active =>
               (emit (Set_active is_active) ;;
                if Bool.eqb (truthy is_active) active then uret tt
                else from_signal (toggled w))%ui u
           | None => URaise AttributeError u
           end.

(** [SystemTray.update_mute_state]. *)
Definition update_mute_state (w : write_fault) : U unit :=
  fun u => match item_mute u with
           | Some _ =>
               (muted <- call (ConfigManager.get "muted" (PBool false)) ;;
                set_active muted w)%ui u
           | None => URet tt u
           end.

(** [SystemTray._build_menu], as far as the check box: a new box is not
    active, and it is set to the stored flag before its handler is
    connected; the rest makes the other items of the menu. *)
Definition _build_menu : U unit :=
  (muted <- call (ConfigManager.get "muted" (PBool false)) ;;
   emit (Set_active muted) ;;
   fun u => URet tt (set_item_mute (Some (truthy muted)) u))%ui.

(** [SystemTray.__init__], as far as the check box and the log; a new tray
    has no attribute [item_mute], and [appindicator] is whether one of the
    two indicator libraries could be imported. *)
Definition __init__ (appindicator : bool) : U unit :=
  ((fun u => URet tt (set_item_mute None u)) ;;
   if appindicator then
     _build_menu ;;
     emit Log_tray_initialized
   else emit Log_tray_disabled)%ui.

End SystemTray.

Module VoiceClockApp.

(** [VoiceClockApp._on_scheduler_tick], with the value of [datetime.now()]. *)
Definition _on_scheduler_tick (now : TimeAnnouncer.datetime) : M bool :=
  TimeAnnouncer.check_and_announce now.

(** [VoiceClockApp._initial_check], with the value of [datetime.now()]. *)
Definition _initial_check (now : TimeAnnouncer.datetime) : M bool :=
  TimeAnnouncer.check_and_announce now ;;
  ret false.

(** [VoiceClockApp._on_settings_saved]; [w] is what happens to the write if
    the check box of the tray changes. *)
Definition _on_settings_saved (w : write_fault) : U unit :=
  (SystemTray.update_mute_state w ;;
   call TimeAnnouncer.reset_debounce)%ui.

End VoiceClockApp.

(* ===================================================================== *)
(** * Vocabulary of the further statements *)
(* ===================================================================== *)

(** One call of the application to its engine. *)
Inductive engine_call : Type :=
| Tick (now : TimeAnnouncer.datetime)
| Force (now : TimeAnnouncer.datetime)
| Reset.

Definition run_call (c : engine_call) (s : state) : state :=
  match c with
  | Tick now => final (TimeAnnouncer.check_and_announce now s)
  | Force now => final (TimeAnnouncer.force_announce now s)
  | Reset => final (TimeAnnouncer.reset_debounce s)
  end.

(** The state after a sequence of calls, with nothing else in between. *)
Definition run_calls (calls : list engine_call) (s : state) : state :=
  fold_left (fun s c => run_call c s) calls s.

(** One time of day is not later than another. *)
Definition time_le (a b : TimeAnnouncer.datetime) : Prop :=
  TimeAnnouncer.hour a < TimeAnnouncer.hour b
  \/ (TimeAnnouncer.hour a = TimeAnnouncer.hour b
      /\ TimeAnnouncer.minute a <= TimeAnnouncer.minute b).

(** The ticks of a clock that does not go back: no tick is earlier in the
    day than one before it. *)
Fixpoint chronological (ticks : list TimeAnnouncer.datetime) : Prop :=
  match ticks with
  | [] => True
  | t :: ts => Forall (time_le t) ts /\ chronological ts
  end.

(** The path of a clip file: the operands [_play_time_audio] joins. *)
Definition clip_path (s : state) (language name : string) : path :=
  joinpath (joinpath (joinpath (assets_dir s) "audio") language) name.


(** What calls to the engine leave alone, and what they hand to the player:
    from [s] to [s'] the files, the settings and the two paths are the same,
    and the player received at most [bound] more paths, each an existing
    file under the directory of the language setting. *)
Definition call_keeps (s s' : state) (bound : nat) : Prop :=
  fs s' = fs s /\ _settings s' = _settings s
  /\ config_path s' = config_path s /\ assets_dir s' = assets_dir s
  /\ exists new,
       played s' = played s ++ new
       /\ (List.length new <= bound)%nat
       /\ forall p, In p new ->
            exists_in s p = true
            /\ exists language name,
                 language_setting s = PStr language /\ p = clip_path s language name.

(** The state [ConfigManager.__init__] hands to [load]: the path bound, no
    settings yet. *)
Definition fresh_manager (p : path) (s : state) : state :=
  mkState (fs s) p [] (assets_dir s) (_last_played_minute s) (_last_played_hour s)
          (played s) (log s).

(** The bytes of a lone surrogate (U+D800), which [json.loads] accepts from
    an escape and the [utf-8] codec refuses to write. *)
Definition lone_surrogate : string :=
  String (ascii_of_N 237) (String (ascii_of_N 160) (String (ascii_of_N 128) EmptyString)).


(** The length of the longest run of decimal digits in a text; [run] is the
    length of the run being read, [best] the longest seen before it. *)
Fixpoint longest_digit_run (run best : nat) (text : string) : nat :=
  match text with
  | EmptyString => Nat.max run best
  | String c rest =>
      if json.is_digit c then longest_digit_run (S run) best rest
      else longest_digit_run 0 (Nat.max run best) rest
  end.

(** The brackets and braces of a text, each of which may open an array or an
    object. *)
Fixpoint opening_brackets (text : string) : nat :=
  match text with
  | EmptyString => 0%nat
  | String c rest =>
      ((if Ascii.eqb c "[" || Ascii.eqb c "{" then 1 else 0) + opening_brackets rest)%nat
  end.

(** A text on which the decoder cannot reach a limit of the interpreter.  It
    converts no integer of more than 4300 digits, which [int] refuses with a
    [ValueError] ([sys.int_max_str_digits]); and it nests arrays and objects
    no deeper than 500, far from the recursion limit (1000 frames), past
    which the scanner raises [RecursionError].  Neither error is a
    [JSONDecodeError]; on such a text [json.loads] is what the decoder
    does. *)
Definition within_limits (text : string) : bool :=
  (longest_digit_run 0 0 text <=? 4300)%nat && (opening_brackets text <=? 500)%nat.

(** An integer the encoder can write: [int.__repr__] refuses one of more than
    4300 digits with a [ValueError] ([sys.int_max_str_digits]), which no
    clause of [save] catches. *)
Definition str_converts (z : Z) : bool := Z.abs z <? 10 ^ 4300.

(** The minutes [range(0, 60, interval)] runs through, for a positive
    interval. *)
Definition minutes_of (interval : Z) : list Z :=
  map (fun k => 0 + Z.of_nat k * interval) (seq 0 (Z.to_nat (1 + 59 / interval))).

(** The name of one entry of the checklist. *)
Definition checklist_name (hour minute : Z) : string :=
  (TimeAnnouncer.format_02d hour ++ "_" ++ TimeAnnouncer.format_02d minute ++ ".ogg")%string.

(** The text a result holds; none when it is an exception. *)
Definition text_of_result (r : pyexn + string) : string :=
  match r with
  | inr text => text
  | inl _ => EmptyString
  end.

(** The path and the text of the clip that [generate_audio.main] makes for a
    slot. *)
Definition generated_path (assets_dir : path) (language : string) (slot : Z * Z) : path :=
  joinpath (joinpath assets_dir language)
           (generate_audio.slot_filename (fst slot) (snd slot)).

Definition clip_of_slot (assets_dir : path) (language : string)
  (text_of : Z -> Z -> pyexn + string) (slot : Z * Z) : path * string :=
  (generated_path assets_dir language slot,
   text_of_result (text_of (fst slot) (snd slot))).

(** The minutes for which the scripts have a phrase. *)
Definition quarter_hours : list Z := [0; 15; 30; 45].

(** The state [_on_save_clicked] hands to [save]: both choices are in
    memory. *)
Definition chosen (code : string) (minutes : Z) (u : ui) : ui :=
  set_core (set_settings (dict_setitem (dict_setitem (_settings (core u)) "language"
                                                     (PStr code))
                                       "interval" (PInt minutes))
                         (core u))
           u.

(** The save button, pressed once the user has picked the rows [i] and [j]
    of the two combo boxes. *)
Definition save_after_picking (self : SettingsWindow.widgets) (i j : nat)
  (_on_saved : option (U unit)) (w : write_fault) (popen_ok : bool) : U unit :=
  SettingsWindow._on_save_clicked
    (SettingsWindow.mkWidgets (pick i (SettingsWindow.lang_combo self))
                              (pick j (SettingsWindow.interval_combo self)))
    _on_saved w popen_ok.

(** The same in the application, whose window calls back
    [VoiceClockApp._on_settings_saved]. *)
Definition save_in_the_application (self : SettingsWindow.widgets) (i j : nat)
  (w : write_fault) (popen_ok : bool) (w' : write_fault) : U unit :=
  save_after_picking self i j (Some (VoiceClockApp._on_settings_saved w')) w popen_ok.

(** The check box of the tray, when there is one, shows the stored flag. *)
Definition shows_flag (u : ui) : Prop :=
  match item_mute u with
  | Some active => truthy (muted_setting (core u)) = active
  | None => True
  end.

(** What happens in the running application, one event at a time: the
    scheduler ticks, the user clicks the check box of the tray, the user
    clicks the save button of a settings window. *)
Inductive app_event : Type :=
| Scheduler_tick (now : TimeAnnouncer.datetime)
| Mute_clicked (w : write_fault)
| Save_clicked (self : SettingsWindow.widgets) (w : write_fault) (popen_ok : bool)
               (w' : write_fault).

Definition handler (e : app_event) : U unit :=
  match e with
  | Scheduler_tick now =>
      (call (VoiceClockApp._on_scheduler_tick now) ;; uret tt)%ui
  | Mute_clicked w => SystemTray.toggled w
  | Save_clicked self w popen_ok w' =>
      SettingsWindow._on_save_clicked self (Some (VoiceClockApp._on_settings_saved w'))
                                      w popen_ok
  end.

(** The application after the events of a list; what a handler raises is
    printed, and the main loop goes on. *)
Definition run_events (events : list app_event) (u : ui) : ui :=
  fold_left (fun u e => ufinal (handler e u)) events u.

(** A tray made with or without an indicator library, whose check box, if it
    has one, shows the stored flag. *)
Definition tray_in_step (appindicator : bool) (u : ui) : Prop :=
  shows_flag u /\ (item_mute u = None <-> appindicator = false).

(** A step of the user interface keeps a property of the shared objects,
    however the step ends. *)
Definition preserves {A} (P : ui -> Prop) (c : U A) : Prop :=
  forall u, P u -> P (ufinal (c u)).

(** The rows the settings window makes active for a stored language and a
    stored interval: the stored choice when it is one of the options, else
    the first language, and else the last interval. *)
Definition preselected_language (v : pyval) : string :=
  if str_eq "bn" v then "bn" else "en".

Definition preselected_interval (v : pyval) : Z :=
  if int_eq 60 v then 60
  else if int_eq 30 v then 30
  else if int_eq 15 v then 15
  else 60.

(** The reference deployment with its player, its tray and nothing done yet,
    and the combo boxes of a settings window opened on it. *)
Definition demo_ui : ui := mkUi demo_state true (Some false) [].

Definition demo_widgets : SettingsWindow.widgets :=
  SettingsWindow.mkWidgets
    (mkCombo SettingsWindow.LANGUAGES (Some 0%nat))
    (mkCombo [("15", "Every 15 minutes"); ("30", "Every 30 minutes"); ("60", "Every hour")]
             (Some 2%nat)).

(* ===================================================================== *)
(** * The announcement engine *)
(* ===================================================================== *)


Section Engine.

Import TimeAnnouncer.

(** What [_play_time_audio] does when the language setting is a string: it
    plays the clip of the time and logs it, or logs that there is none, or
    raises the error of a look-up that fails on the name of the language. *)
Lemma play_time_audio_str s (language : string) (h m : Z) :
  language_setting s = PStr language ->
  _play_time_audio h m s =
  if exists_in s (ogg_path s language h m) then
    Ret tt
      (add_played (ogg_path s language h m)
         (add_log (INFO, Announcing_time (format_02d (hour_12_of h)) (format_02d m)
                           language false) s))
  else if name_too_long language then Raise OSError s
  else if exists_in s (mp3_path s language h m) then
    Ret tt
      (add_played (mp3_path s language h m)
         (add_log (INFO, Announcing_time (format_02d (hour_12_of h)) (format_02d m)
                           language true) s))
  else Ret tt (add_log (WARNING, Audio_file_not_found (ogg_path s language h m)
                                   (mp3_path s language h m)) s).
Proof.
  intros Hlang. unfold language_setting in Hlang.
  cbv [_play_time_audio bind ConfigManager.get gets path_exists_below path_exists lift
       logger player_play modify ret raise].
  rewrite Hlang. cbv [truediv str_of ret].
  cbv beta. unfold mp3_path, ogg_path, exists_in.
  destruct (fs s (joinpath (joinpath (joinpath (assets_dir s) "audio") language) (filename_of h m))).
  - reflexivity.
  - destruct (name_too_long language); [reflexivity|].
    destruct (fs s (with_suffix (joinpath (joinpath (joinpath (assets_dir s) "audio") language) (filename_of h m)) ".mp3")); reflexivity.
Qed.

(** Whatever the settings, [_play_time_audio] touches only the player and
    the log, and calls the player at most once. *)
Lemma play_time_audio_frame s (h m : Z) :
  let s' := final (_play_time_audio h m s) in
  debounce s' = debounce s /\ _settings s' = _settings s /\ fs s' = fs s
  /\ assets_dir s' = assets_dir s /\ config_path s' = config_path s
  /\ (played s' = played s \/ exists p, played s' = played s ++ [p]).
Proof.
  destruct (language_setting s) eqn:Hlang;
    try (unfold language_setting in Hlang;
         cbv [_play_time_audio bind ConfigManager.get gets lift raise];
         rewrite Hlang; cbn; repeat split; auto; fail).
  rewrite (play_time_audio_str s _ h m Hlang).
  destruct (exists_in s (ogg_path s s0 h m));
    [|destruct (name_too_long s0); [|destruct (exists_in s (mp3_path s s0 h m))]];
    cbn; repeat split; eauto.
Qed.

(** The tick, branch by branch. *)
Lemma check_and_announce_unfold s (now : datetime) :
  check_and_announce now s =
  if truthy (muted_setting s) then Ret true s
  else
    match mod_is_zero (minute now) (interval_setting s) with
    | inl e => Raise e s
    | inr matches =>
        if matches && negb (debounced s now)
        then bind (_play_time_audio (hour now) (minute now)) (fun _ => ret true) (mark now s)
        else Ret true s
    end.
Proof.
  unfold check_and_announce, muted_setting, interval_setting, debounced.
  cbv [bind ConfigManager.get gets _already_played lift modify ret raise].
  destruct (truthy (dict_get (_settings s) "muted" PNone)); [reflexivity|].
  destruct (mod_is_zero (minute now) (dict_get (_settings s) "interval" (PInt 60)))
    as [e|[|]]; [reflexivity| |reflexivity].
  cbn [andb].
  destruct ((_last_played_hour s =? hour now) && (_last_played_minute s =? minute now));
    cbn [negb]; [reflexivity|].
  unfold mark.
  destruct (_play_time_audio (hour now) (minute now)
              (set_last_played_minute (minute now) (set_last_played_hour (hour now) s)));
    reflexivity.
Qed.

(** The tick of an unmuted engine whose interval is a non-zero integer. *)
Lemma check_and_announce_int s (now : datetime) (i : Z) :
  truthy (muted_setting s) = false ->
  interval_setting s = PInt i ->
  i <> 0 ->
  check_and_announce now s =
  if (minute now mod i =? 0) && negb (debounced s now)
  then bind (_play_time_audio (hour now) (minute now)) (fun _ => ret true) (mark now s)
  else Ret true s.
Proof.
  intros Hmuted Hint Hi. rewrite check_and_announce_unfold, Hmuted, Hint.
  cbn [mod_is_zero]. destruct (Z.eqb_spec i 0); [contradiction|reflexivity].
Qed.

Lemma debounce_differs s (now : datetime) :
  debounce s <> time_pair now -> debounced s now = false.
Proof.
  intros Hd. apply andb_false_iff.
  destruct (Z.eqb_spec (_last_played_hour s) (hour now)) as [Hh|Hh]; [|now left].
  destruct (Z.eqb_spec (_last_played_minute s) (minute now)) as [Hm|Hm]; [|now right].
  exfalso. apply Hd. unfold debounce, time_pair. now rewrite Hh, Hm.
Qed.

Lemma debounce_same s (now : datetime) :
  debounce s = time_pair now -> debounced s now = true.
Proof.
  unfold debounce, time_pair, debounced. intros Hd. inversion Hd.
  now rewrite !Z.eqb_refl.
Qed.

Lemma final_bind_ret {A B} (c : M A) (b : B) (s : state) :
  final (bind c (fun _ => ret b) s) = final (c s).
Proof. unfold bind, ret. destruct (c s); reflexivity. Qed.

(** The calls [_play_time_audio] adds to those the player has received. *)
Lemma play_time_audio_played s (language : string) (h m : Z) :
  language_setting s = PStr language ->
  played (final (_play_time_audio h m s))
  = played s ++ clip_list (clip_for s language h m).
Proof.
  intros Hlang. rewrite (play_time_audio_str s language h m Hlang).
  unfold clip_for.
  destruct (exists_in s (ogg_path s language h m)); [reflexivity|].
  destruct (name_too_long language); [cbn; now rewrite app_nil_r|].
  destruct (exists_in s (mp3_path s language h m)); cbn; [reflexivity|].
  now rewrite app_nil_r.
Qed.

(** C5.  While the muted setting is true, a tick returns [True] and changes
    nothing: no call reaches the player, the debounce state stays as it was,
    nothing is logged, whatever the time is. *)
Theorem muted_tick_is_silent (s : state) (now : datetime) :
  truthy (muted_setting s) = true ->
  check_and_announce now s = Ret true s.
Proof.
  intros Hmuted. unfold muted_setting in Hmuted.
  unfold check_and_announce, bind, ConfigManager.get, gets.
  now rewrite Hmuted.
Qed.

Lemma muted_tick_is_silent_witness :
  check_and_announce (mkTime 14 0) (set_settings [("muted", PBool true)] demo_state)
  = Ret true (set_settings [("muted", PBool true)] demo_state)
  /\ played (set_settings [("muted", PBool true)] demo_state) = []
  /\ debounce (set_settings [("muted", PBool true)] demo_state) = (-1, -1).
Proof.
  split; [|split; reflexivity].
  apply (muted_tick_is_silent (set_settings [("muted", PBool true)] demo_state) (mkTime 14 0)).
  reflexivity.
Defined.




Lemma app_one_neq_self {A} (l : list A) (x : A) : l ++ [x] <> l.
Proof.
  intros H. apply (f_equal (@List.length A)) in H.
  rewrite length_app in H. cbn in H. lia.
Qed.

(** What the player receives from the tick of an unmuted engine on a minute
    its interval divides, when this time is not the debounce state. *)
Lemma tick_on_matching_minute (s : state) (now : datetime) (i : Z) (language : string) :
  truthy (muted_setting s) = false ->
  interval_setting s = PInt i ->
  i <> 0 ->
  debounce s <> time_pair now ->
  minute now mod i = 0 ->
  language_setting s = PStr language ->
  played (final (check_and_announce now s))
  = played s ++ clip_list (clip_for s language (hour now) (minute now)).
Proof.
  intros Hmuted Hint Hi Hdeb Hmod Hlang.
  rewrite (check_and_announce_int s now i Hmuted Hint Hi).
  rewrite (debounce_differs s now Hdeb), Hmod. cbn [negb andb Z.eqb].
  rewrite final_bind_ret.
  exact (play_time_audio_played (mark now s) language _ _ Hlang).
Qed.

(** C1.  With [muted] false, an interval setting that is a positive integer
    (15, 30, 60 or any other, since the engine does not validate it) and a
    debounce state different from the current hour and minute, a tick
    announces the current time exactly when the minute is a multiple of the
    interval: then, and only then, it records the time as debounce state and
    resolves and plays its clip; otherwise it returns [True] and nothing has
    changed.  Where the clip of the time exists, the player is handed that
    clip exactly when the minute is a multiple of the interval. *)
Theorem tick_announces_iff_interval_divides_minute
  (s : state) (now : datetime) (i : Z) :
  truthy (muted_setting s) = false ->
  interval_setting s = PInt i ->
  0 < i ->
  debounce s <> time_pair now ->
  (announces now s (check_and_announce now s) <-> minute now mod i = 0)
  /\ (minute now mod i <> 0 -> check_and_announce now s = Ret true s)
  /\ (forall language clip,
        language_setting s = PStr language ->
        clip_for s language (hour now) (minute now) = Some clip ->
        (played (final (check_and_announce now s)) = played s ++ [clip]
         <-> minute now mod i = 0)).
Proof.
  intros Hmuted Hint Hpos Hdeb.
  rewrite (check_and_announce_int s now i Hmuted Hint) by lia.
  rewrite (debounce_differs s now Hdeb). cbn [negb]. rewrite andb_true_r.
  destruct (Z.eqb_spec (minute now mod i) 0) as [Hmod|Hmod].
  - split; [|split].
    + split; [intros _; exact Hmod | intros _; reflexivity].
    + intros Hn. contradiction.
    + intros language clip Hlang Hclip. split; [intros _; exact Hmod | intros _].
      rewrite final_bind_ret.
      rewrite (play_time_audio_played (mark now s) language _ _ Hlang).
      change (clip_for (mark now s) language (hour now) (minute now))
        with (clip_for s language (hour now) (minute now)).
      rewrite Hclip. reflexivity.
  - split; [|split].
    + split; [|intros Hm; contradiction].
      unfold announces. intros Heq. exfalso. apply Hdeb.
      apply (f_equal final) in Heq. rewrite final_bind_ret in Heq. cbn [final] in Heq.
      destruct (play_time_audio_frame (mark now s) (hour now) (minute now)) as (Hd & _).
      rewrite <- Heq in Hd. exact Hd.
    + intros _. reflexivity.
    + intros language clip Hlang Hclip. cbn [final].
      split; [|intros Hm; contradiction].
      intros Heq. symmetry in Heq. exfalso. exact (app_one_neq_self _ _ Heq).
Qed.

Lemma tick_announces_iff_interval_divides_minute_witness :
  played (final (check_and_announce (mkTime 14 0) demo_state))
  = [["assets"; "audio"; "en"; "02_00.ogg"]]
  /\ check_and_announce (mkTime 14 1) demo_state = Ret true demo_state.
Proof.
  assert (Hd14 : debounce demo_state <> time_pair (mkTime 14 0)) by discriminate.
  assert (Hd141 : debounce demo_state <> time_pair (mkTime 14 1)) by discriminate.
  split.
  - destruct (tick_announces_iff_interval_divides_minute demo_state (mkTime 14 0) 60
                eq_refl eq_refl eq_refl Hd14) as (_ & _ & H).
    apply (H "en" ["assets"; "audio"; "en"; "02_00.ogg"] eq_refl eq_refl). reflexivity.
  - destruct (tick_announces_iff_interval_divides_minute demo_state (mkTime 14 1) 60
                eq_refl eq_refl eq_refl Hd141) as (_ & H & _).
    apply H. discriminate.
Defined.

(** C10.  Whatever the debounce state and the current time, [force_announce]
    resolves and plays the clip of the current time, as [_play_time_audio]
    does, and leaves the debounce state as it was; it returns, unless the
    look-up of the clip raises.  So when the scheduled
    announcement of this minute has not happened yet, a tick at the same time,
    unmuted and on a minute the interval divides, still plays: the player
    receives the clip twice in that minute. *)
Theorem force_announce_leaves_debounce (s : state) (now : datetime) :
  debounce (final (force_announce now s)) = debounce s
  /\ (forall language,
        language_setting s = PStr language ->
        returned (force_announce now s)
        = (if exists_in s (ogg_path s language (hour now) (minute now)) then Some tt
           else if name_too_long language then None else Some tt)
        /\ played (final (force_announce now s))
           = played s ++ clip_list (clip_for s language (hour now) (minute now)))
  /\ (forall language clip i,
        language_setting s = PStr language ->
        clip_for s language (hour now) (minute now) = Some clip ->
        truthy (muted_setting s) = false ->
        interval_setting s = PInt i ->
        0 < i ->
        minute now mod i = 0 ->
        debounce s <> time_pair now ->
        played (final (check_and_announce now (final (force_announce now s))))
        = played s ++ [clip; clip]).
Proof.
  unfold force_announce.
  destruct (play_time_audio_frame s (hour now) (minute now))
    as (Hdeb & Hset & Hfs & Hassets & _).
  split; [exact Hdeb|]. split.
  - intros language Hlang. split.
    + rewrite (play_time_audio_str s language _ _ Hlang).
      destruct (exists_in s (ogg_path s language (hour now) (minute now)));
        [|destruct (name_too_long language);
          [|destruct (exists_in s (mp3_path s language (hour now) (minute now)))]];
        reflexivity.
    + apply play_time_audio_played; exact Hlang.
  - intros language clip i Hlang Hclip Hmuted Hint Hpos Hmod Hne.
    set (s1 := final (_play_time_audio (hour now) (minute now) s)) in *.
    assert (Hplayed1 : played s1 = played s ++ [clip]).
    { unfold s1. rewrite (play_time_audio_played s language _ _ Hlang), Hclip. reflexivity. }
    assert (Hlang1 : language_setting s1 = PStr language).
    { unfold language_setting. rewrite Hset. exact Hlang. }
    assert (Hclip1 : clip_for s1 language (hour now) (minute now) = Some clip).
    { unfold clip_for, exists_in, mp3_path, ogg_path in *. rewrite Hfs, Hassets. exact Hclip. }
    assert (Hne1 : debounce s1 <> time_pair now) by (rewrite Hdeb; exact Hne).
    assert (Hmuted1 : truthy (muted_setting s1) = false).
    { unfold muted_setting. rewrite Hset. exact Hmuted. }
    assert (Hint1 : interval_setting s1 = PInt i).
    { unfold interval_setting. rewrite Hset. exact Hint. }
    assert (Hi : i <> 0) by lia.
    rewrite (tick_on_matching_minute s1 now i language Hmuted1 Hint1 Hi Hne1 Hmod Hlang1).
    rewrite Hclip1, Hplayed1, <- app_assoc. reflexivity.
Qed.

Lemma force_announce_leaves_debounce_witness :
  debounce (final (force_announce (mkTime 14 0) demo_state)) = (-1, -1)
  /\ played (final (force_announce (mkTime 14 0) demo_state))
     = [["assets"; "audio"; "en"; "02_00.ogg"]]
  /\ played (final (check_and_announce (mkTime 14 0)
                      (final (force_announce (mkTime 14 0) demo_state))))
     = [["assets"; "audio"; "en"; "02_00.ogg"]; ["assets"; "audio"; "en"; "02_00.ogg"]].
Proof.
  destruct (force_announce_leaves_debounce demo_state (mkTime 14 0)) as (Hd & Hp & Hc).
  split; [exact Hd|]. split.
  - exact (proj2 (Hp "en" eq_refl)).
  - apply (Hc "en" ["assets"; "audio"; "en"; "02_00.ogg"] 60); try reflexivity.
    discriminate.
Defined.

(** What a tick hands to the player, whatever the settings hold. *)
Lemma tick_played (s : state) (now : datetime) :
  played (final (check_and_announce now s)) = played s ++ tick_plays s now.
Proof.
  rewrite check_and_announce_unfold. unfold tick_plays.
  destruct (truthy (muted_setting s)); [cbn; now rewrite app_nil_r|].
  destruct (mod_is_zero (minute now) (interval_setting s)) as [e|[|]];
    try (cbn; now rewrite app_nil_r).
  cbn [andb]. destruct (debounced s now); cbn [negb]; [cbn; now rewrite app_nil_r|].
  rewrite final_bind_ret.
  destruct (language_setting s) eqn:Hlang;
    try (unfold language_setting in Hlang;
         cbv [_play_time_audio bind ConfigManager.get gets lift raise];
         cbn [mark set_last_played_minute set_last_played_hour _settings];
         rewrite Hlang; cbn; now rewrite app_nil_r).
  exact (play_time_audio_played (mark now s) _ _ _ Hlang).
Qed.

(** A tick leaves the debounce state alone or sets it to its own time, and
    sets it whenever it plays. *)
Lemma tick_debounce (s : state) (now : datetime) :
  (debounce (final (check_and_announce now s)) = debounce s /\ tick_plays s now = [])
  \/ debounce (final (check_and_announce now s)) = time_pair now.
Proof.
  rewrite check_and_announce_unfold. unfold tick_plays.
  destruct (truthy (muted_setting s)); [left; split; reflexivity|].
  destruct (mod_is_zero (minute now) (interval_setting s)) as [e|[|]];
    try (left; split; reflexivity).
  cbn [andb]. destruct (debounced s now); cbn [negb]; [left; split; reflexivity|].
  right. rewrite final_bind_ret.
  destruct (play_time_audio_frame (mark now s) (hour now) (minute now)) as (Hd & _).
  exact Hd.
Qed.

(** A tick at the time the debounce state holds plays nothing and leaves the
    debounce state as it is. *)
Lemma tick_debounced (s : state) (now : datetime) :
  debounce s = time_pair now ->
  tick_plays s now = [] /\ debounce (final (check_and_announce now s)) = time_pair now.
Proof.
  intros Hd. pose proof (debounce_same s now Hd) as Hdb.
  assert (Hnil : tick_plays s now = []).
  { unfold tick_plays. rewrite Hdb.
    destruct (truthy (muted_setting s)); [reflexivity|].
    destruct (mod_is_zero (minute now) (interval_setting s)) as [e|[|]]; reflexivity. }
  split; [exact Hnil|].
  destruct (tick_debounce s now) as [[H _]|H]; [now rewrite H|exact H].
Qed.

Lemma tick_plays_at_most_one (s : state) (now : datetime) :
  (List.length (tick_plays s now) <= 1)%nat.
Proof.
  unfold tick_plays.
  destruct (truthy (muted_setting s)); [cbn; lia|].
  destruct (mod_is_zero (minute now) (interval_setting s)) as [e|[|]]; try (cbn; lia).
  destruct (debounced s now); [cbn; lia|].
  destruct (language_setting s); try (cbn; lia).
  destruct (clip_for s s0 (hour now) (minute now)); cbn; lia.
Qed.

Lemma repeated_ticks_after_play (now : datetime) (n : nat) :
  forall s, debounce s = time_pair now ->
            played (run_ticks (repeat now n) s) = played s.
Proof.
  induction n as [|n IH]; intros s Hd; [reflexivity|].
  cbn [repeat run_ticks].
  destruct (tick_debounced s now Hd) as (Hnil & Hd').
  rewrite (IH _ Hd'), tick_played, Hnil. now rewrite app_nil_r.
Qed.

(** However often the engine is polled at one time, the player is called at
    most once. *)
Lemma repeated_ticks_play_once (now : datetime) (n : nat) :
  forall s, (List.length (played (run_ticks (repeat now n) s))
             <= List.length (played s) + 1)%nat.
Proof.
  induction n as [|n IH]; intros s; [cbn; lia|].
  cbn [repeat run_ticks].
  destruct (tick_debounce s now) as [[Hd Hnil]|Hd].
  - specialize (IH (final (check_and_announce now s))).
    rewrite tick_played, Hnil, app_nil_r in IH. exact IH.
  - rewrite (repeated_ticks_after_play now n _ Hd), tick_played, length_app.
    pose proof (tick_plays_at_most_one s now). lia.
Qed.

(** A tick changes neither the settings nor the files. *)
Lemma tick_frame (s : state) (now : datetime) :
  _settings (final (check_and_announce now s)) = _settings s
  /\ fs (final (check_and_announce now s)) = fs s
  /\ assets_dir (final (check_and_announce now s)) = assets_dir s.
Proof.
  rewrite check_and_announce_unfold.
  destruct (truthy (muted_setting s)); [now repeat split|].
  destruct (mod_is_zero (minute now) (interval_setting s)) as [e|[|]]; try (now repeat split).
  cbn [andb]. destruct (debounced s now); cbn [negb]; [now repeat split|].
  rewrite final_bind_ret.
  destruct (play_time_audio_frame (mark now s) (hour now) (minute now))
    as (_ & Hset & Hfs & Hassets & _).
  repeat split; assumption.
Qed.

(** What a tick plays depends on the settings, the files and on whether the
    debounce state is its time. *)
Lemma tick_plays_congr (s s' : state) (now : datetime) :
  _settings s' = _settings s -> fs s' = fs s -> assets_dir s' = assets_dir s ->
  debounced s' now = debounced s now ->
  tick_plays s' now = tick_plays s now.
Proof.
  intros Hset Hfs Hassets Hdeb.
  unfold tick_plays, muted_setting, interval_setting, language_setting, clip_for,
    exists_in, mp3_path, ogg_path.
  now rewrite Hset, Hfs, Hassets, Hdeb.
Qed.

Lemma tick_plays_not_debounced (s : state) (now : datetime) :
  tick_plays s now <> [] -> debounced s now = false.
Proof.
  unfold tick_plays. intros H.
  destruct (debounced s now); [|reflexivity]. exfalso. apply H.
  destruct (truthy (muted_setting s)); [reflexivity|].
  destruct (mod_is_zero (minute now) (interval_setting s)) as [e|[|]]; reflexivity.
Qed.

(** C2, as the engine has it.  Called twice in succession at one hour and
    minute, the tick plays at most once, and so does any number of successive
    calls at that time; a second call right after one that played plays
    nothing; and with [reset_debounce] between the two, a second call after
    one that played plays the same clip again.  The debounce state holds the
    last announced pair only: whatever was played earlier, an unmuted tick on
    a minute the interval divides plays its clip as soon as its time differs
    from the debounce state, so a pair is played again, with no reset, once
    another pair was announced in between. *)
Theorem debounce_suppresses_repeated_tick (s : state) (now : datetime) :
  (List.length (played (final (check_and_announce now (final (check_and_announce now s)))))
   <= List.length (played s) + 1)%nat
  /\ (forall n, (List.length (played (run_ticks (repeat now n) s))
                 <= List.length (played s) + 1)%nat)
  /\ (forall clip,
        played (final (check_and_announce now s)) = played s ++ [clip] ->
        played (final (check_and_announce now (final (check_and_announce now s))))
        = played s ++ [clip])
  /\ (forall clip,
        valid_time now ->
        played (final (check_and_announce now s)) = played s ++ [clip] ->
        played (final (check_and_announce now
                         (final (reset_debounce (final (check_and_announce now s))))))
        = played s ++ [clip; clip])
  /\ (forall i language clip,
        truthy (muted_setting s) = false ->
        interval_setting s = PInt i ->
        0 < i ->
        minute now mod i = 0 ->
        language_setting s = PStr language ->
        clip_for s language (hour now) (minute now) = Some clip ->
        debounce s <> time_pair now ->
        played (final (check_and_announce now s)) = played s ++ [clip]).
Proof.
  split; [exact (repeated_ticks_play_once now 2 s)|].
  split; [intros n; exact (repeated_ticks_play_once now n s)|].
  assert (Hfirst : forall clip, played (final (check_and_announce now s)) = played s ++ [clip] ->
                                tick_plays s now = [clip]).
  { intros clip Hp. rewrite tick_played in Hp. exact (app_inv_head _ _ _ Hp). }
  split; [|split].
  - intros clip Hp. pose proof (Hfirst clip Hp) as Hplays.
    destruct (tick_debounce s now) as [[_ Hnil]|Hd]; [rewrite Hnil in Hplays; discriminate|].
    destruct (tick_debounced _ now Hd) as (Hnil & _).
    now rewrite tick_played, Hnil, app_nil_r.
  - intros clip (Hh & Hm) Hp. pose proof (Hfirst clip Hp) as Hplays.
    destruct (tick_frame s now) as (Hset & Hfs & Hassets).
    set (s1 := final (check_and_announce now s)) in *.
    assert (Hagain : tick_plays (final (reset_debounce s1)) now = [clip]).
    { rewrite <- Hplays. apply tick_plays_congr; try assumption.
      rewrite (tick_plays_not_debounced s now) by (rewrite Hplays; discriminate).
      unfold debounced.
      change (_last_played_hour (final (reset_debounce s1))) with (-1).
      destruct (Z.eqb_spec (-1) (hour now)); [lia|reflexivity]. }
    rewrite tick_played, Hagain.
    change (played (final (reset_debounce s1))) with (played s1).
    rewrite Hp, <- app_assoc. reflexivity.
  - intros i language clip Hmuted Hint Hpos Hmod Hlang Hclip Hne.
    assert (Hi : i <> 0) by lia.
    rewrite (tick_on_matching_minute s now i language Hmuted Hint Hi Hne Hmod Hlang).
    now rewrite Hclip.
Qed.

Lemma debounce_suppresses_repeated_tick_witness :
  played (final (check_and_announce (mkTime 14 0)
                   (final (check_and_announce (mkTime 14 0) demo_state))))
  = [["assets"; "audio"; "en"; "02_00.ogg"]]
  /\ played (final (check_and_announce (mkTime 14 0)
                      (final (reset_debounce
                                (final (check_and_announce (mkTime 14 0) demo_state))))))
     = [["assets"; "audio"; "en"; "02_00.ogg"]; ["assets"; "audio"; "en"; "02_00.ogg"]].
Proof.
  destruct (debounce_suppresses_repeated_tick demo_state (mkTime 14 0))
    as (_ & _ & Hsecond & Hreset & _).
  split.
  - apply (Hsecond ["assets"; "audio"; "en"; "02_00.ogg"]). reflexivity.
  - apply (Hreset ["assets"; "audio"; "en"; "02_00.ogg"]).
    + unfold valid_time. cbn. lia.
    + reflexivity.
Defined.

(** C2 as stated fails: with hourly announcements and no reset, the ticks of
    14:00, 15:00 and 14:00 again (the next day) play the clip of the pair
    (14, 0) twice. *)
Lemma same_pair_played_twice_without_reset :
  ~ at_most_one_playback_per_pair [mkTime 14 0; mkTime 15 0; mkTime 14 0] demo_state.
Proof.
  intros H. specialize (H (mkTime 14 0)). vm_compute in H. lia.
Qed.

Lemma forallb_range (P : Z -> bool) (n : nat) :
  forallb P (map Z.of_nat (seq 0 n)) = true ->
  forall z, 0 <= z < Z.of_nat n -> P z = true.
Proof.
  intros H z Hz. rewrite forallb_forall in H. apply H.
  apply in_map_iff. exists (Z.to_nat z). split; [lia|].
  apply in_seq. lia.
Qed.

(** The 1440 times of a day, checked one by one. *)
Lemma names_agree_all_day :
  forallb (fun h => forallb (names_agree h) (map Z.of_nat (seq 0 60)))
          (map Z.of_nat (seq 0 24)) = true.
Proof. vm_compute. reflexivity. Qed.

Lemma with_suffix_joinpath (p : path) (name sfx : string) :
  with_suffix (joinpath p name) sfx = joinpath p (name_with_suffix name sfx).
Proof.
  unfold with_suffix, joinpath. rewrite rev_unit, rev_involutive. reflexivity.
Qed.

(** C3.  For every hour from 0 to 23 and minute from 0 to 59 the file name
    the engine resolves is the zero-padded key HH_MM with the extension:
    ".ogg" for the primary asset, ".mp3" for the fallback, where HH is the
    12-hour form of the hour (0 and 12 give 12, 13 gives 01, 23 gives 11, and
    13 to 23 give 1 to 11); and every path the step hands to the player is
    that name under the directory of the language. *)
Theorem asset_name_is_twelve_hour_key (now : datetime) :
  valid_time now ->
  filename_of (hour now) (minute now) = (asset_key (hour now) (minute now) ++ ".ogg")%string
  /\ name_with_suffix (filename_of (hour now) (minute now)) ".mp3"
     = (asset_key (hour now) (minute now) ++ ".mp3")%string
  /\ hour_12_of (hour now) = twelve_hour (hour now)
  /\ 1 <= twelve_hour (hour now) <= 12
  /\ (13 <= hour now -> twelve_hour (hour now) = hour now - 12)
  /\ (asset_key 0 0 = "12_00" /\ asset_key 12 0 = "12_00"
      /\ asset_key 13 0 = "01_00" /\ asset_key 23 0 = "11_00")
  /\ (forall s language,
        language_setting s = PStr language ->
        played (final (_play_time_audio (hour now) (minute now) s)) = played s
        \/ played (final (_play_time_audio (hour now) (minute now) s))
           = played s ++ [joinpath (joinpath (joinpath (assets_dir s) "audio") language)
                                   (asset_key (hour now) (minute now) ++ ".ogg")]
        \/ played (final (_play_time_audio (hour now) (minute now) s))
           = played s ++ [joinpath (joinpath (joinpath (assets_dir s) "audio") language)
                                   (asset_key (hour now) (minute now) ++ ".mp3")]).
Proof.
  intros (Hh & Hm).
  assert (Hok : names_agree (hour now) (minute now) = true).
  { assert (Hh24 : 0 <= hour now < Z.of_nat 24) by (change (Z.of_nat 24) with 24; lia).
    assert (Hm60 : 0 <= minute now < Z.of_nat 60) by (change (Z.of_nat 60) with 60; lia).
    pose proof (forallb_range _ 24 names_agree_all_day (hour now) Hh24) as H.
    cbv beta in H.
    exact (forallb_range _ 60 H (minute now) Hm60). }
  unfold names_agree in Hok.
  apply andb_true_iff in Hok. destruct Hok as (Hok & H12).
  apply andb_true_iff in Hok. destruct Hok as (Hogg & Hmp3).
  apply String.eqb_eq in Hogg, Hmp3. apply Z.eqb_eq in H12.
  split; [exact Hogg|]. split; [exact Hmp3|]. split; [exact H12|].
  split; [unfold twelve_hour;
          destruct (Z.eqb_spec (hour now) 0); [cbn; lia|];
          destruct (Z.eqb_spec (hour now) 12); [cbn; lia|]; cbn [orb];
          destruct (Z.leb_spec 13 (hour now)); lia|].
  split.
  { intros H13. unfold twelve_hour.
    destruct (Z.eqb_spec (hour now) 0); [lia|].
    destruct (Z.eqb_spec (hour now) 12); [lia|]. cbn [orb].
    destruct (Z.leb_spec 13 (hour now)); lia. }
  split; [repeat split; reflexivity|].
  intros s language Hlang.
  rewrite (play_time_audio_played s language _ _ Hlang).
  unfold clip_for, mp3_path, ogg_path.
  rewrite with_suffix_joinpath, Hmp3, Hogg.
  match goal with |- context [if ?c then _ else _] => destruct c end;
    [right; left; reflexivity|].
  destruct (name_too_long language); [left; cbn; now rewrite app_nil_r|].
  match goal with |- context [if ?c then _ else _] => destruct c end;
    [right; right; reflexivity|].
  left. cbn. now rewrite app_nil_r.
Qed.

Lemma asset_name_is_twelve_hour_key_witness :
  filename_of 13 5 = "01_05.ogg"
  /\ name_with_suffix (filename_of 13 5) ".mp3" = "01_05.mp3".
Proof.
  assert (Hv : valid_time (mkTime 13 5)) by (unfold valid_time; cbn; lia).
  destruct (asset_name_is_twelve_hour_key (mkTime 13 5) Hv) as (Hogg & Hmp3 & _).
  split; [exact Hogg|exact Hmp3].
Defined.

(** The scenario of the specification: hourly announcements in English, a
    tick at 14:00 plays the clip of two o'clock, a second tick in that minute
    plays nothing, the tick of 14:01 plays nothing, the tick of 15:00 plays
    the clip of three o'clock. *)
Example hourly_scenario :
  played (run_ticks [mkTime 14 0; mkTime 14 0; mkTime 14 1; mkTime 15 0] demo_state)
  = [["assets"; "audio"; "en"; "02_00.ogg"]; ["assets"; "audio"; "en"; "03_00.mp3"]].
Proof. vm_compute. reflexivity. Qed.

(** A fresh engine has never announced. *)
Example fresh_engine_debounce :
  debounce (final (__init__ ["assets"] demo_state)) = (-1, -1).
Proof. reflexivity. Qed.

End Engine.

(* ===================================================================== *)
(** * The decoder consumes its input, and its budget suffices *)
(* ===================================================================== *)

Lemma skip_ws_length (s : string) : (String.length (json.skip_ws s) <= String.length s)%nat.
Proof.
  induction s as [|c s IH]; cbn; [lia|].
  destruct (json.is_ws c); cbn; lia.
Qed.

Lemma take_digits_length (s : string) :
  (String.length (snd (json.take_digits s)) <= String.length s)%nat.
Proof.
  induction s as [|c s IH]; cbn; [lia|].
  destruct (json.is_digit c); cbn; [|lia].
  destruct (json.take_digits s); cbn in *; lia.
Qed.

Lemma strip_prefix_length (p s rest : string) :
  json.strip_prefix p s = Some rest ->
  (String.length rest + String.length p = String.length s)%nat.
Proof.
  revert s. induction p as [|a p IH]; intros s H; cbn in H.
  - inversion H. cbn. lia.
  - destruct s as [|b s]; [discriminate|].
    destruct (Ascii.eqb a b); [|discriminate].
    apply IH in H. cbn. lia.
Qed.

Lemma scanstring_length_aux (n : nat) :
  forall s str rest, (String.length s <= n)%nat ->
    json.scanstring s = Some (str, rest) -> (String.length rest < String.length s)%nat.
Proof.
  induction n as [|n IH]; intros s str rest Hlen H.
  - destruct s; [discriminate|cbn in Hlen; lia].
  - destruct s as [|c s1]; [discriminate|]. cbn [json.scanstring] in H.
    cbn [String.length] in *.
    assert (Hrec : forall (pre : string -> string) t,
               (String.length t <= n)%nat ->
               match json.scanstring t with
               | Some (str0, rest0) => Some (pre str0, rest0)
               | None => None
               end = Some (str, rest) ->
               (String.length rest < String.length t)%nat).
    { intros pre t Ht Heq.
      destruct (json.scanstring t) as [[str0 rest0]|] eqn:E; [|discriminate].
      inversion Heq; subst. exact (IH _ _ _ Ht E). }
    destruct (N_of_ascii c =? 34)%N; [inversion H; subst; lia|].
    destruct (N_of_ascii c <? 32)%N; [discriminate|].
    destruct (N_of_ascii c =? 92)%N.
    + destruct s1 as [|esc s2]; [discriminate|]. cbn [String.length] in *.
      destruct (N_of_ascii esc =? 117)%N.
      * destruct s2 as [|h1 [|h2 [|h3 [|h4 s6]]]]; try discriminate.
        cbn [String.length] in *.
        destruct (json.hex4 h1 h2 h3 h4) as [uni|]; [|discriminate].
        assert (Hsingle : match json.scanstring s6 with
                          | Some (str0, rest0) => Some ((chr_bytes uni ++ str0)%string, rest0)
                          | None => None
                          end = Some (str, rest) ->
                          (String.length rest < String.length s6)%nat).
        { apply (Hrec (fun x => (chr_bytes uni ++ x)%string)). lia. }
        destruct ((55296 <=? uni)%N && (uni <=? 56319)%N);
          [|apply Hsingle in H; lia].
        destruct s6 as [|b [|u [|l1 [|l2 [|l3 [|l4 s12]]]]]];
          try (apply Hsingle in H; cbn [String.length] in *; lia).
        destruct ((N_of_ascii b =? 92)%N && (N_of_ascii u =? 117)%N);
          [|apply Hsingle in H; cbn [String.length] in *; lia].
        destruct (json.hex4 l1 l2 l3 l4) as [uni2|]; [|discriminate].
        destruct ((56320 <=? uni2)%N && (uni2 <=? 57343)%N);
          [|apply Hsingle in H; cbn [String.length] in *; lia].
        apply Hrec in H; cbn [String.length] in *; lia.
      * destruct (json.simple_escape esc) as [ch|]; [|discriminate].
        apply (Hrec (String ch)) in H; lia.
    + apply (Hrec (String c)) in H; lia.
Qed.

Lemma scanstring_length (s str rest : string) :
  json.scanstring s = Some (str, rest) -> (String.length rest < String.length s)%nat.
Proof. apply (scanstring_length_aux (String.length s)). lia. Qed.

Lemma take_digits_head (c : ascii) (r : string) :
  json.is_digit c = true ->
  (String.length (snd (json.take_digits (String c r))) <= String.length r)%nat.
Proof.
  intros Hd. cbn [json.take_digits]. rewrite Hd.
  pose proof (take_digits_length r) as H.
  destruct (json.take_digits r); exact H.
Qed.

Lemma scan_frac_length (s : string) :
  (String.length (snd (json.scan_frac s)) <= String.length s)%nat.
Proof.
  unfold json.scan_frac. destruct s as [|dot r]; [cbn; lia|].
  destruct (N_of_ascii dot =? 46)%N; [|cbn; lia].
  pose proof (take_digits_length r) as H.
  destruct (json.take_digits r) as [[|d ds] rest]; cbn [snd String.length] in *; lia.
Qed.

Lemma scan_exp_length (s : string) :
  (String.length (snd (json.scan_exp s)) <= String.length s)%nat.
Proof.
  unfold json.scan_exp. destruct s as [|e r]; [cbn; lia|].
  destruct ((N_of_ascii e =? 101) || (N_of_ascii e =? 69))%N; [|cbn; lia].
  assert (H : forall b r', (String.length r' <= String.length r)%nat ->
            (String.length
               (snd (match json.take_digits r' with
                     | (EmptyString, _) => (None, String e r)
                     | (digits, rest) =>
                         (Some (if b : bool then - json.int_of_digits digits
                                else json.int_of_digits digits), rest)
                     end)) <= String.length (String e r))%nat).
  { intros b r' Hr'. pose proof (take_digits_length r') as H.
    destruct (json.take_digits r') as [[|d ds] rest]; cbn [snd String.length] in *; lia. }
  destruct r as [|sign r']; [apply (H false); cbn; lia|].
  destruct (N_of_ascii sign =? 45)%N; [apply (H true); cbn; lia|].
  destruct (N_of_ascii sign =? 43)%N; apply (H false); cbn; lia.
Qed.

Lemma match_unsigned_length (neg : bool) (s : string) (v : pyval) (r : string) :
  json.match_unsigned neg s = Some (v, r) -> (String.length r < String.length s)%nat.
Proof.
  unfold json.match_unsigned. destruct s as [|c t]; [discriminate|].
  destruct (json.is_digit c) eqn:Hd; [|discriminate].
  assert (Hint : (String.length
                    (snd (if (N_of_ascii c =? 48)%N then (String c EmptyString, t)
                          else json.take_digits (String c t))) <= String.length t)%nat).
  { destruct (N_of_ascii c =? 48)%N; [cbn; lia|exact (take_digits_head c t Hd)]. }
  destruct (if (N_of_ascii c =? 48)%N then (String c EmptyString, t)
            else json.take_digits (String c t)) as [integer s2].
  pose proof (scan_frac_length s2) as Hfrac.
  destruct (json.scan_frac s2) as [frac s3].
  pose proof (scan_exp_length s3) as Hexp.
  destruct (json.scan_exp s3) as [exp s4].
  cbn [snd String.length] in *.
  intros H. destruct frac, exp; inversion H; subst; lia.
Qed.

Lemma match_number_length (s : string) (v : pyval) (r : string) :
  json.match_number s = Some (v, r) -> (String.length r < String.length s)%nat.
Proof.
  unfold json.match_number. destruct s as [|c t]; [discriminate|].
  destruct (N_of_ascii c =? 45)%N; intros H; apply match_unsigned_length in H;
    cbn [String.length] in *; lia.
Qed.

Lemma scan_atom_length (s : string) (v : pyval) (r : string) :
  json.scan_atom s = Some (v, r) -> (String.length r < String.length s)%nat.
Proof.
  unfold json.scan_atom. destruct s as [|c t]; [discriminate|].
  assert (Hlit : forall word value,
             (0 < String.length word)%nat ->
             match json.strip_prefix word (String c t) with
             | Some rest => Some (value, rest)
             | None => None
             end = Some (v, r) ->
             (String.length r < String.length (String c t))%nat).
  { intros word value Hw H.
    destruct (json.strip_prefix word (String c t)) as [rest|] eqn:E; [|discriminate].
    inversion H; subst. apply strip_prefix_length in E. lia. }
  destruct (N_of_ascii c =? 110)%N; [apply Hlit; cbn; lia|].
  destruct (N_of_ascii c =? 116)%N; [apply Hlit; cbn; lia|].
  destruct (N_of_ascii c =? 102)%N; [apply Hlit; cbn; lia|].
  destruct (json.match_number (String c t)) as [[v' r']|] eqn:Hnum.
  - intros H. inversion H; subst. exact (match_number_length _ _ _ Hnum).
  - destruct (N_of_ascii c =? 78)%N; [apply Hlit; cbn; lia|].
    destruct (N_of_ascii c =? 73)%N; [apply Hlit; cbn; lia|].
    destruct (N_of_ascii c =? 45)%N; [apply Hlit; cbn; lia|discriminate].
Qed.

(** Each of the three scanning functions, when it succeeds, has consumed at
    least one character. *)
Lemma scan_consumes (fuel : nat) :
  (forall s v r, json.scan_once fuel s = Some (v, r) ->
                 (String.length r < String.length s)%nat)
  /\ (forall s vs r, json.parse_items fuel s = Some (vs, r) ->
                     (String.length r < String.length s)%nat)
  /\ (forall s kvs r, json.parse_pairs fuel s = Some (kvs, r) ->
                      (String.length r < String.length s)%nat).
Proof.
  induction fuel as [|fuel (IHv & IHi & IHp)]; [repeat split; discriminate|].
  split; [|split].
  - intros s v r H. cbn [json.scan_once] in H.
    destruct s as [|c s1]; [discriminate|].
    destruct (N_of_ascii c =? 34)%N.
    { destruct (json.scanstring s1) as [[str rest]|] eqn:E; inversion H; subst.
      apply scanstring_length in E. cbn; lia. }
    destruct (N_of_ascii c =? 123)%N.
    { pose proof (skip_ws_length s1) as Hws.
      destruct (json.skip_ws s1) as [|c' rest']; [discriminate|].
      destruct (N_of_ascii c' =? 125)%N; [inversion H; subst; cbn in *; lia|].
      destruct (json.parse_pairs fuel (String c' rest')) as [[pairs rest]|] eqn:E;
        inversion H; subst.
      apply IHp in E. cbn in *; lia. }
    destruct (N_of_ascii c =? 91)%N.
    { pose proof (skip_ws_length s1) as Hws.
      destruct (json.skip_ws s1) as [|c' rest']; [discriminate|].
      destruct (N_of_ascii c' =? 93)%N; [inversion H; subst; cbn in *; lia|].
      destruct (json.parse_items fuel (String c' rest')) as [[items rest]|] eqn:E;
        inversion H; subst.
      apply IHi in E. cbn in *; lia. }
    exact (scan_atom_length _ _ _ H).
  - intros s vs r H. cbn [json.parse_items] in H.
    destruct (json.scan_once fuel s) as [[v rest]|] eqn:E; [|discriminate].
    apply IHv in E. pose proof (skip_ws_length rest) as Hws.
    destruct (json.skip_ws rest) as [|c rest']; [discriminate|].
    destruct (N_of_ascii c =? 93)%N; [inversion H; subst; cbn in *; lia|].
    destruct (N_of_ascii c =? 44)%N; [|discriminate].
    pose proof (skip_ws_length rest') as Hws'.
    destruct (json.parse_items fuel (json.skip_ws rest')) as [[vs' rest'']|] eqn:E';
      inversion H; subst.
    apply IHi in E'. cbn in *; lia.
  - intros s kvs r H. cbn [json.parse_pairs] in H.
    destruct s as [|q s1]; [discriminate|].
    destruct (N_of_ascii q =? 34)%N; [|discriminate].
    destruct (json.scanstring s1) as [[key after_key]|] eqn:Ekey; [|discriminate].
    apply scanstring_length in Ekey. pose proof (skip_ws_length after_key) as Hws1.
    destruct (json.skip_ws after_key) as [|colon after_colon]; [discriminate|].
    destruct (N_of_ascii colon =? 58)%N; [|discriminate].
    pose proof (skip_ws_length after_colon) as Hws2.
    destruct (json.scan_once fuel (json.skip_ws after_colon)) as [[v rest]|] eqn:E;
      [|discriminate].
    apply IHv in E. pose proof (skip_ws_length rest) as Hws3.
    destruct (json.skip_ws rest) as [|c rest']; [discriminate|].
    destruct (N_of_ascii c =? 125)%N; [inversion H; subst; cbn in *; lia|].
    destruct (N_of_ascii c =? 44)%N; [|discriminate].
    pose proof (skip_ws_length rest') as Hws4.
    destruct (json.parse_pairs fuel (json.skip_ws rest')) as [[kvs' rest'']|] eqn:E';
      inversion H; subst.
    apply IHp in E'. cbn in *; lia.
Qed.

(** Past twice the length of the text, more fuel changes nothing. *)
Lemma fuel_enough (n : nat) :
  forall s, (String.length s <= n)%nat ->
    (forall f1 f2, (2 * String.length s + 1 <= f1)%nat -> (2 * String.length s + 1 <= f2)%nat ->
                   json.scan_once f1 s = json.scan_once f2 s)
    /\ (forall f1 f2, (2 * String.length s + 2 <= f1)%nat -> (2 * String.length s + 2 <= f2)%nat ->
                      json.parse_items f1 s = json.parse_items f2 s)
    /\ (forall f1 f2, (2 * String.length s + 2 <= f1)%nat -> (2 * String.length s + 2 <= f2)%nat ->
                      json.parse_pairs f1 s = json.parse_pairs f2 s).
Proof.
  induction n as [|n IH]; intros s Hlen.
  - destruct s; [|cbn in Hlen; lia].
    repeat split; intros [|[|f1]] [|[|f2]] H1 H2; cbn in H1, H2; try lia; reflexivity.
  - assert (Hv : forall f1 f2, (2 * String.length s + 1 <= f1)%nat ->
                               (2 * String.length s + 1 <= f2)%nat ->
                               json.scan_once f1 s = json.scan_once f2 s).
    { intros [|f1] [|f2] H1 H2; try lia. cbn [json.scan_once].
      destruct s as [|c s1]; [reflexivity|]. cbn [String.length] in *.
      pose proof (skip_ws_length s1) as Hws.
      destruct (IH (json.skip_ws s1) ltac:(lia)) as (_ & Hi & Hp).
      destruct (N_of_ascii c =? 34)%N; [reflexivity|].
      destruct (N_of_ascii c =? 123)%N.
      { destruct (json.skip_ws s1) as [|c' rest'] eqn:E; [reflexivity|].
        destruct (N_of_ascii c' =? 125)%N; [reflexivity|].
        rewrite (Hp f1 f2) by lia. reflexivity. }
      destruct (N_of_ascii c =? 91)%N; [|reflexivity].
      destruct (json.skip_ws s1) as [|c' rest'] eqn:E; [reflexivity|].
      destruct (N_of_ascii c' =? 93)%N; [reflexivity|].
      rewrite (Hi f1 f2) by lia. reflexivity. }
    split; [exact Hv|]. split.
    + intros [|f1] [|f2] H1 H2; try lia. cbn [json.parse_items].
      rewrite (Hv f1 f2) by lia.
      destruct (json.scan_once f2 s) as [[v rest]|] eqn:E; [|reflexivity].
      apply (proj1 (scan_consumes f2)) in E.
      pose proof (skip_ws_length rest) as Hws.
      destruct (json.skip_ws rest) as [|c rest']; [reflexivity|].
      destruct (N_of_ascii c =? 93)%N; [reflexivity|].
      destruct (N_of_ascii c =? 44)%N; [|reflexivity].
      pose proof (skip_ws_length rest') as Hws'. cbn [String.length] in *.
      destruct (IH (json.skip_ws rest') ltac:(lia)) as (_ & Hi & _).
      rewrite (Hi f1 f2) by lia. reflexivity.
    + intros [|f1] [|f2] H1 H2; try lia. cbn [json.parse_pairs].
      destruct s as [|q s1]; [reflexivity|].
      destruct (N_of_ascii q =? 34)%N; [|reflexivity].
      destruct (json.scanstring s1) as [[key after_key]|] eqn:Ekey; [|reflexivity].
      apply scanstring_length in Ekey. pose proof (skip_ws_length after_key) as Hws1.
      destruct (json.skip_ws after_key) as [|colon after_colon]; [reflexivity|].
      destruct (N_of_ascii colon =? 58)%N; [|reflexivity].
      pose proof (skip_ws_length after_colon) as Hws2. cbn [String.length] in *.
      destruct (IH (json.skip_ws after_colon) ltac:(lia)) as (Hv' & _ & _).
      rewrite (Hv' f1 f2) by lia.
      destruct (json.scan_once f2 (json.skip_ws after_colon)) as [[v rest]|] eqn:E;
        [|reflexivity].
      apply (proj1 (scan_consumes f2)) in E.
      pose proof (skip_ws_length rest) as Hws3.
      destruct (json.skip_ws rest) as [|c rest']; [reflexivity|].
      destruct (N_of_ascii c =? 125)%N; [reflexivity|].
      destruct (N_of_ascii c =? 44)%N; [|reflexivity].
      pose proof (skip_ws_length rest') as Hws4. cbn [String.length] in *.
      destruct (IH (json.skip_ws rest') ltac:(lia)) as (_ & _ & Hp).
      rewrite (Hp f1 f2) by lia. reflexivity.
Qed.

(** The budget [loads] gives the scanner is never the reason for a failure:
    any larger budget gives the same result. *)
Theorem loads_budget_suffices (s : string) (fuel : nat) :
  (2 * String.length s + 2 <= fuel)%nat ->
  json.scan_once fuel (json.skip_ws s)
  = json.scan_once (2 * String.length s + 2) (json.skip_ws s).
Proof.
  intros Hfuel. pose proof (skip_ws_length s) as Hws.
  destruct (fuel_enough (String.length (json.skip_ws s)) (json.skip_ws s) (le_n _))
    as (Hv & _).
  apply Hv; lia.
Qed.

(* ===================================================================== *)
(** * The decoder reads back what the encoder writes for a settings record *)
(* ===================================================================== *)

(** ** Integers: printing and reading back *)

Lemma digits_value_acc (d : Decimal.uint) :
  forall acc : positive,
    digits_value (Z.pos acc) (NilEmpty.string_of_uint d) = Z.pos (Pos.of_uint_acc d acc).
Proof.
  induction d; intros acc; cbn [NilEmpty.string_of_uint Pos.of_uint_acc];
    try reflexivity;
    unfold digits_value in *; cbn [list_ascii_of_string fold_left];
    match goal with
    | |- fold_left _ _ ?z = Z.pos (Pos.of_uint_acc _ ?p) =>
        replace z with (Z.pos p)
          by (match goal with
              | |- context [json.digit_val ?c] =>
                  let v := eval vm_compute in (json.digit_val c) in
                  change (json.digit_val c) with v
              end; lia)
    end; apply IHd.
Qed.

Lemma digits_value_zero (d : Decimal.uint) :
  digits_value 0 (NilEmpty.string_of_uint d) = Z.of_N (Pos.of_uint d).
Proof.
  induction d; cbn [NilEmpty.string_of_uint Pos.of_uint]; try reflexivity;
    unfold digits_value in *; cbn [list_ascii_of_string fold_left];
    try exact IHd;
    match goal with
    | |- fold_left _ _ ?z = Z.of_N (N.pos (Pos.of_uint_acc _ ?p)) =>
        replace z with (Z.pos p)
          by (match goal with
              | |- context [json.digit_val ?c] =>
                  let v := eval vm_compute in (json.digit_val c) in
                  change (json.digit_val c) with v
              end; lia)
    end; apply digits_value_acc.
Qed.

Lemma take_digits_uint (d : Decimal.uint) (rest : string) :
  fst (json.take_digits rest) = EmptyString ->
  json.take_digits (NilEmpty.string_of_uint d ++ rest)%string
  = (NilEmpty.string_of_uint d, rest).
Proof.
  intros Hrest.
  assert (H0 : json.take_digits rest = (EmptyString, rest)).
  { destruct rest as [|c r]; [reflexivity|]. cbn in *.
    destruct (json.is_digit c); [|reflexivity].
    destruct (json.take_digits r); discriminate. }
  induction d; cbn [NilEmpty.string_of_uint append]; [exact H0|..];
    cbn [json.take_digits];
    match goal with |- context [json.is_digit ?c] => change (json.is_digit c) with true end;
    cbv iota; rewrite IHd; reflexivity.
Qed.

Lemma nzhead_D0 (d x : Decimal.uint) : Decimal.unorm d = Decimal.D0 x -> x = Decimal.Nil.
Proof.
  unfold Decimal.unorm.
  induction d; cbn [Decimal.nzhead]; try (intros H; inversion H; reflexivity); try discriminate.
  exact IHd.
Qed.

(** The decimal digits of a positive number: at least one, the first not a
    zero. *)
Lemma pos_to_uint_head (p : positive) :
  match Pos.to_uint p with
  | Decimal.Nil | Decimal.D0 _ => False
  | _ => True
  end.
Proof.
  pose proof (DecimalPos.Unsigned.to_of (Pos.to_uint p)) as Hnorm.
  rewrite DecimalPos.Unsigned.of_to in Hnorm. cbn [N.to_uint] in Hnorm.
  pose proof (DecimalPos.Unsigned.to_uint_nonzero p) as Hnz.
  pose proof (DecimalPos.Unsigned.to_uint_nonnil p) as Hnn.
  destruct (Pos.to_uint p) as [|x| | | | | | | | |]; try exact I; [contradiction|].
  symmetry in Hnorm. apply nzhead_D0 in Hnorm. subst x. exact (Hnz eq_refl).
Qed.

Lemma string_of_uint_nonnil (u : Decimal.uint) :
  u <> Decimal.Nil -> NilZero.string_of_uint u = NilEmpty.string_of_uint u.
Proof. destruct u; [contradiction|reflexivity..]. Qed.

(** A number printed by [int.__repr__] and followed by a comma or a line
    break is read back by the scanner as the same [int]. *)
Lemma match_unsigned_digits (neg : bool) (n : N) (sep : ascii) (rest : string) :
  sep = ","%char \/ sep = ascii_of_N 10 ->
  json.match_unsigned neg (NilZero.string_of_uint (N.to_uint n) ++ String sep rest)%string
  = Some (PInt (if neg then - Z.of_N n else Z.of_N n), String sep rest).
Proof.
  intros Hsep.
  assert (Htail : json.scan_frac (String sep rest) = (EmptyString, String sep rest)
                  /\ json.scan_exp (String sep rest) = (None, String sep rest)
                  /\ fst (json.take_digits (String sep rest)) = EmptyString).
  { destruct Hsep as [-> | ->]; repeat split; reflexivity. }
  destruct Htail as (Hfrac & Hexp & Hdig).
  destruct n as [|p].
  - cbn [N.to_uint]. change (NilZero.string_of_uint Decimal.zero) with "0".
    unfold json.match_unsigned. cbn [append].
    change (json.is_digit "0") with true. change (N_of_ascii "0" =? 48)%N with true.
    cbv iota. rewrite Hfrac, Hexp. destruct neg; reflexivity.
  - cbn [N.to_uint]. pose proof (pos_to_uint_head p) as Hhead.
    pose proof (DecimalPos.Unsigned.of_to p) as Hval.
    assert (Hnn : Pos.to_uint p <> Decimal.Nil) by (destruct (Pos.to_uint p); easy).
    rewrite (string_of_uint_nonnil _ Hnn).
    pose proof (take_digits_uint (Pos.to_uint p) (String sep rest) Hdig) as Htake.
    assert (Hdv : json.int_of_digits (NilEmpty.string_of_uint (Pos.to_uint p))
                  = Z.of_N (N.pos p)).
    { rewrite <- Hval. exact (digits_value_zero (Pos.to_uint p)). }
    unfold json.match_unsigned.
    destruct (Pos.to_uint p) as [|x|x|x|x|x|x|x|x|x|x]; try contradiction;
      cbn [NilEmpty.string_of_uint append] in *;
      match goal with |- context [json.is_digit ?c] => change (json.is_digit c) with true end;
      match goal with |- context [(N_of_ascii ?c =? 48)%N] =>
        change (N_of_ascii c =? 48)%N with false end;
      cbv iota; rewrite Htake, Hfrac, Hexp, Hdv; destruct neg; reflexivity.
Qed.

Lemma scan_atom_int (i : Z) (sep : ascii) (rest : string) :
  sep = ","%char \/ sep = ascii_of_N 10 ->
  json.scan_atom (json.int_repr i ++ String sep rest)%string
  = Some (PInt i, String sep rest).
Proof.
  intros Hsep.
  assert (Hnum : json.match_number (json.int_repr i ++ String sep rest)%string
                 = Some (PInt i, String sep rest)).
  { unfold json.int_repr, json.match_number, dec_digits.
    destruct (Z.ltb_spec i 0) as [Hneg|Hpos].
    - cbn [append]. change (N_of_ascii "-" =? 45)%N with true. cbv iota.
      rewrite (match_unsigned_digits true _ sep rest Hsep).
      do 2 f_equal. f_equal. lia.
    - pose proof (match_unsigned_digits false (Z.to_N i) sep rest Hsep) as H.
      destruct (NilZero.string_of_uint (N.to_uint (Z.to_N i)) ++ String sep rest)%string
        as [|c r] eqn:E; [discriminate|].
      assert (Hc : (N_of_ascii c =? 45)%N = false).
      { unfold json.match_unsigned in H. destruct (json.is_digit c) eqn:Hd; [|discriminate].
        unfold json.is_digit, byte_in in Hd.
        apply andb_true_iff in Hd. destruct Hd as (Hlo & _).
        apply N.leb_le in Hlo. apply N.eqb_neq. lia. }
      rewrite Hc, H. do 2 f_equal. f_equal. lia. }
  unfold json.scan_atom.
  destruct (json.int_repr i ++ String sep rest)%string as [|c r] eqn:E; [discriminate|].
  assert (Hc : (48 <= N_of_ascii c <= 57 \/ N_of_ascii c = 45)%N).
  { unfold json.match_number in Hnum.
    destruct (N.eqb_spec (N_of_ascii c) 45) as [H45|H45]; [now right|left].
    unfold json.match_unsigned in Hnum.
    destruct (json.is_digit c) eqn:Hd; [|discriminate].
    unfold json.is_digit, byte_in in Hd. apply andb_true_iff in Hd.
    destruct Hd as (Hlo & Hhi). apply N.leb_le in Hlo, Hhi. lia. }
  destruct (N.eqb_spec (N_of_ascii c) 110); [lia|].
  destruct (N.eqb_spec (N_of_ascii c) 116); [lia|].
  destruct (N.eqb_spec (N_of_ascii c) 102); [lia|].
  now rewrite Hnum.
Qed.

(** ** Strings: escaping and reading back *)

Lemma append_assoc (a b c : string) : ((a ++ b) ++ c = a ++ (b ++ c))%string.
Proof. induction a as [|x a IH]; cbn; [reflexivity|now rewrite IH]. Qed.

(** One escaped character, then the rest of the scan. *)
Lemma scanstring_escaped_char (c : ascii) (tail : string) :
  json.scanstring (json.escape_char c ++ tail)%string
  = match json.scanstring tail with
    | Some (str, rest) => Some (String c str, rest)
    | None => None
    end.
Proof.
  destruct c as [[] [] [] [] [] [] [] []]; reflexivity.
Qed.

(** A string, escaped and closed by a quote, is read back by [scanstring]. *)
Lemma scanstring_escape_all (l rest : string) :
  json.scanstring (json.escape_all l ++ String json.quote rest)%string = Some (l, rest).
Proof.
  induction l as [|c l IH]; [reflexivity|].
  cbn [json.escape_all]. rewrite append_assoc, scanstring_escaped_char, IH. reflexivity.
Qed.

(** ** More fuel keeps a successful parse *)

Lemma scan_once_eq (f : nat) (s : string) :
  json.scan_once (S f) s
  = match s with
    | EmptyString => None
    | String c s1 =>
        if (N_of_ascii c =? 34)%N then
          match json.scanstring s1 with
          | Some (str, rest) => Some (PStr str, rest)
          | None => None
          end
        else if (N_of_ascii c =? 123)%N then
          match json.skip_ws s1 with
          | String c' rest' =>
              if (N_of_ascii c' =? 125)%N then Some (PDict [], rest')
              else
                match json.parse_pairs f (json.skip_ws s1) with
                | Some (pairs, rest) => Some (PDict (dict_of_items pairs), rest)
                | None => None
                end
          | EmptyString => None
          end
        else if (N_of_ascii c =? 91)%N then
          match json.skip_ws s1 with
          | String c' rest' =>
              if (N_of_ascii c' =? 93)%N then Some (PList [], rest')
              else
                match json.parse_items f (json.skip_ws s1) with
                | Some (items, rest) => Some (PList items, rest)
                | None => None
                end
          | EmptyString => None
          end
        else json.scan_atom s
    end.
Proof. reflexivity. Qed.

Lemma parse_items_eq (f : nat) (s : string) :
  json.parse_items (S f) s
  = match json.scan_once f s with
    | None => None
    | Some (v, rest) =>
        match json.skip_ws rest with
        | String c rest' =>
            if (N_of_ascii c =? 93)%N then Some ([v], rest')
            else if (N_of_ascii c =? 44)%N then
              match json.parse_items f (json.skip_ws rest') with
              | Some (vs, rest'') => Some (v :: vs, rest'')
              | None => None
              end
            else None
        | EmptyString => None
        end
    end.
Proof. reflexivity. Qed.

Lemma parse_pairs_eq (f : nat) (s : string) :
  json.parse_pairs (S f) s
  = match s with
    | String q s1 =>
        if (N_of_ascii q =? 34)%N then
          match json.scanstring s1 with
          | None => None
          | Some (key, after_key) =>
              match json.skip_ws after_key with
              | String colon after_colon =>
                  if (N_of_ascii colon =? 58)%N then
                    match json.scan_once f (json.skip_ws after_colon) with
                    | None => None
                    | Some (v, rest) =>
                        match json.skip_ws rest with
                        | String c rest' =>
                            if (N_of_ascii c =? 125)%N then Some ([(key, v)], rest')
                            else if (N_of_ascii c =? 44)%N then
                              match json.parse_pairs f (json.skip_ws rest') with
                              | Some (kvs, rest'') => Some ((key, v) :: kvs, rest'')
                              | None => None
                              end
                            else None
                        | EmptyString => None
                        end
                    end
                  else None
              | EmptyString => None
              end
          end
        else None
    | EmptyString => None
    end.
Proof. reflexivity. Qed.

Lemma scan_fuel_step (f : nat) :
  (forall s r, json.scan_once f s = Some r -> json.scan_once (S f) s = Some r)
  /\ (forall s r, json.parse_items f s = Some r -> json.parse_items (S f) s = Some r)
  /\ (forall s r, json.parse_pairs f s = Some r -> json.parse_pairs (S f) s = Some r).
Proof.
  induction f as [|f (IHv & IHi & IHp)]; [repeat split; discriminate|].
  split; [|split].
  - intros s r H. rewrite scan_once_eq in H. rewrite (scan_once_eq (S f)).
    destruct s as [|c s1]; [discriminate|].
    destruct (N_of_ascii c =? 34)%N; [exact H|].
    destruct (N_of_ascii c =? 123)%N.
    { destruct (json.skip_ws s1) as [|c' rest']; [discriminate|].
      destruct (N_of_ascii c' =? 125)%N; [exact H|].
      destruct (json.parse_pairs f (String c' rest')) as [p|] eqn:E; [|discriminate].
      rewrite (IHp _ _ E). exact H. }
    destruct (N_of_ascii c =? 91)%N; [|exact H].
    destruct (json.skip_ws s1) as [|c' rest']; [discriminate|].
    destruct (N_of_ascii c' =? 93)%N; [exact H|].
    destruct (json.parse_items f (String c' rest')) as [p|] eqn:E; [|discriminate].
    rewrite (IHi _ _ E). exact H.
  - intros s r H. rewrite parse_items_eq in H. rewrite (parse_items_eq (S f)).
    destruct (json.scan_once f s) as [[v rest]|] eqn:E; [|discriminate].
    rewrite (IHv _ _ E).
    destruct (json.skip_ws rest) as [|c rest']; [discriminate|].
    destruct (N_of_ascii c =? 93)%N; [exact H|].
    destruct (N_of_ascii c =? 44)%N; [|discriminate].
    destruct (json.parse_items f (json.skip_ws rest')) as [p|] eqn:E'; [|discriminate].
    rewrite (IHi _ _ E'). exact H.
  - intros s r H. rewrite parse_pairs_eq in H. rewrite (parse_pairs_eq (S f)).
    destruct s as [|q s1]; [discriminate|].
    destruct (N_of_ascii q =? 34)%N; [|discriminate].
    destruct (json.scanstring s1) as [[key after_key]|]; [|discriminate].
    destruct (json.skip_ws after_key) as [|colon after_colon]; [discriminate|].
    destruct (N_of_ascii colon =? 58)%N; [|discriminate].
    destruct (json.scan_once f (json.skip_ws after_colon)) as [[v rest]|] eqn:E;
      [|discriminate].
    rewrite (IHv _ _ E).
    destruct (json.skip_ws rest) as [|c rest']; [discriminate|].
    destruct (N_of_ascii c =? 125)%N; [exact H|].
    destruct (N_of_ascii c =? 44)%N; [|discriminate].
    destruct (json.parse_pairs f (json.skip_ws rest')) as [p|] eqn:E'; [|discriminate].
    rewrite (IHp _ _ E'). exact H.
Qed.

Lemma scan_once_fuel_le (f f' : nat) (s : string) (r : pyval * string) :
  (f <= f')%nat -> json.scan_once f s = Some r -> json.scan_once f' s = Some r.
Proof.
  induction 1 as [|f' _ IH]; [trivial|].
  intros H. apply (proj1 (scan_fuel_step f')). exact (IH H).
Qed.

(** ** Text that the codec accepts piece by piece *)

Lemma utf8_valid_app_aux (n : nat) :
  forall a b, (String.length a <= n)%nat ->
    utf8_valid a = true -> utf8_valid b = true -> utf8_valid (a ++ b) = true.
Proof.
  induction n as [|n IH]; intros a b Hlen Ha Hb.
  - destruct a; [exact Hb|cbn in Hlen; lia].
  - destruct a as [|c0 a1]; [exact Hb|].
    cbn [String.length] in Hlen. cbn [append utf8_valid] in *.
    destruct (byte_in 0 127 c0); [apply IH; [lia|assumption..]|].
    destruct a1 as [|c1 a2]; [discriminate|]. cbn [String.length append] in *.
    destruct (byte_in 194 223 c0).
    { apply andb_true_iff in Ha. destruct Ha as (-> & Ha). apply IH; [lia|assumption..]. }
    destruct a2 as [|c2 a3]; [discriminate|]. cbn [String.length append] in *.
    destruct (byte_in 224 224 c0).
    { apply andb_true_iff in Ha. destruct Ha as (-> & Ha). apply IH; [lia|assumption..]. }
    destruct (byte_in 225 236 c0 || byte_in 238 239 c0).
    { apply andb_true_iff in Ha. destruct Ha as (-> & Ha). apply IH; [lia|assumption..]. }
    destruct (byte_in 237 237 c0).
    { apply andb_true_iff in Ha. destruct Ha as (-> & Ha). apply IH; [lia|assumption..]. }
    destruct a3 as [|c3 a4]; [discriminate|]. cbn [String.length append] in *.
    destruct (byte_in 240 240 c0).
    { apply andb_true_iff in Ha. destruct Ha as (-> & Ha). apply IH; [lia|assumption..]. }
    destruct (byte_in 241 243 c0).
    { apply andb_true_iff in Ha. destruct Ha as (-> & Ha). apply IH; [lia|assumption..]. }
    destruct (byte_in 244 244 c0); [|discriminate].
    apply andb_true_iff in Ha. destruct Ha as (-> & Ha). apply IH; [lia|assumption..].
Qed.

Lemma utf8_valid_app (a b : string) :
  utf8_valid a = true -> utf8_valid b = true -> utf8_valid (a ++ b) = true.
Proof. apply (utf8_valid_app_aux (String.length a)). lia. Qed.

(** The text a file object accepted whole is well-formed. *)
Lemma write_chunks_valid (chunks : list string) (text : string) :
  write_chunks chunks = (text, true) -> utf8_valid text = true.
Proof.
  revert text. induction chunks as [|c cs IH]; intros text H; cbn in H.
  - inversion H. reflexivity.
  - destruct (utf8_valid c) eqn:Hc; [|discriminate].
    destruct (write_chunks cs) as [t ok]. inversion H; subst.
    apply utf8_valid_app; [exact Hc|apply IH; reflexivity].
Qed.

Lemma int_repr_head (i : Z) (rest : string) :
  exists c r, (json.int_repr i ++ rest)%string = String c r
              /\ (48 <= N_of_ascii c <= 57 \/ N_of_ascii c = 45)%N.
Proof.
  unfold json.int_repr, dec_digits. destruct (i <? 0).
  - eexists _, _. split; [reflexivity|]. right. reflexivity.
  - destruct (N.to_uint (Z.to_N i)) eqn:E;
      cbn [NilZero.string_of_uint NilEmpty.string_of_uint append];
      eexists _, _; (split; [reflexivity|]); left; cbn; lia.
Qed.

(** A printed integer where a value is expected. *)
Lemma scan_once_int (f : nat) (i : Z) (sep : ascii) (rest : string) :
  sep = ","%char \/ sep = ascii_of_N 10 ->
  json.scan_once (S f) (json.skip_ws (json.int_repr i ++ String sep rest)%string)
  = Some (PInt i, String sep rest).
Proof.
  intros Hsep. pose proof (scan_atom_int i sep rest Hsep) as Hatom.
  destruct (int_repr_head i (String sep rest)) as (c & r & Heq & Hc).
  rewrite Heq in *.
  assert (Hws : json.is_ws c = false).
  { unfold json.is_ws.
    destruct (N.eqb_spec (N_of_ascii c) 32); [lia|].
    destruct (N.eqb_spec (N_of_ascii c) 9); [lia|].
    destruct (N.eqb_spec (N_of_ascii c) 10); [lia|].
    destruct (N.eqb_spec (N_of_ascii c) 13); [lia|reflexivity]. }
  cbn [json.skip_ws]. rewrite Hws. rewrite scan_once_eq.
  destruct (N.eqb_spec (N_of_ascii c) 34); [lia|].
  destruct (N.eqb_spec (N_of_ascii c) 123); [lia|].
  destruct (N.eqb_spec (N_of_ascii c) 91); [lia|].
  exact Hatom.
Qed.

Section RecordText.

#[local] Arguments json.scan_once : simpl never.
#[local] Arguments json.parse_pairs : simpl never.
#[local] Arguments json.parse_items : simpl never.

Lemma scan_record (l : string) (i : Z) (m : bool) :
  json.scan_once 5 (json.skip_ws (json.dumps (PDict (settings_record l i m))))
  = Some (PDict (settings_record l i m), EmptyString).
Proof.
  unfold json.dumps, settings_record.
  destruct m;
    cbn [json.iterencode json.scalar_chunk app String.concat json.newline_indent
         string_of_list_ascii repeat Nat.mul Nat.add json.encode_basestring json.escape_all
         json.escape_char append];
    cbn;
    rewrite scan_once_eq; cbn;
    rewrite parse_pairs_eq; cbn;
    rewrite scan_once_eq; cbn;
    rewrite (append_assoc (json.escape_all l)); cbn [append];
    change (ascii_of_N 34) with json.quote;
    rewrite scanstring_escape_all; cbn;
    rewrite parse_pairs_eq; cbn;
    rewrite scan_once_int by (now left); cbn;
    rewrite parse_pairs_eq; cbn;
    rewrite scan_once_eq; cbn;
    reflexivity.
Qed.

End RecordText.

(** What [loads] makes of the text [dumps] writes for a settings record: the
    record. *)
Lemma loads_record (l : string) (i : Z) (m : bool) :
  json.loads (json.dumps (PDict (settings_record l i m)))
  = inr (PDict (settings_record l i m)).
Proof.
  unfold json.loads.
  assert (Hlen : (5 <= 2 * String.length (json.dumps (PDict (settings_record l i m))) + 2)%nat).
  { unfold json.dumps, settings_record.
    cbn [json.iterencode json.scalar_chunk app String.concat json.newline_indent
         string_of_list_ascii repeat Nat.mul Nat.add append String.length].
    lia. }
  rewrite (scan_once_fuel_le 5 _ _ _ Hlen (scan_record l i m)). reflexivity.
Qed.

(* ===================================================================== *)
(** * The settings store *)
(* ===================================================================== *)

Section Store.

Import ConfigManager.

Lemma path_eqb_refl (p : path) : path_eqb p p = true.
Proof.
  induction p as [|a p IH]; [reflexivity|].
  cbn. now rewrite String.eqb_refl, IH.
Qed.

Lemma path_eqb_refl_some (p : path) (content : bytes) (rest : option bytes) :
  (if path_eqb p p then Some content else rest) = Some content.
Proof. now rewrite path_eqb_refl. Qed.

Lemma fs_write_read (p : path) (content : bytes) (s : state) :
  fs (fs_write p content s) p = Some content.
Proof. cbn. now rewrite path_eqb_refl. Qed.

(** [save], fault by fault.  [s0] is the state once [self._settings] is
    bound. *)
Lemma save_unfold (settings : option dict) (w : write_fault) (s : state) :
  let s0 := match settings with Some d => set_settings d s | None => s end in
  let p := config_path s in
  let text := fst (write_chunks (json.iterencode 0 (PDict (_settings s0)))) in
  let complete := snd (write_chunks (json.iterencode 0 (PDict (_settings s0)))) in
  save settings w s =
  match w with
  | Write_ok =>
      if complete then Ret true (add_log (INFO, Config_saved p) (fs_write p text s0))
      else Raise UnicodeEncodeError (fs_write p text s0)
  | Mkdir_fails | Open_fails =>
      Ret false (add_log (ERROR, Failed_to_save_config OSError) s0)
  | Write_fails reached =>
      Ret false (add_log (ERROR, Failed_to_save_config OSError)
                         (fs_write p (substring 0 reached text) s0))
  end.
Proof.
  destruct settings as [d|]; destruct w;
    cbv [save bind modify ret try_except mkdir_parent open_and_dump gets raise logger
         existsb exn_eqb orb];
    cbn [_settings set_settings config_path];
    try match goal with
        | |- context [write_chunks ?c] => destruct (write_chunks c) as [text [|]]
        end;
    reflexivity.
Qed.

(** Saving the defaults never fails to encode: their text is ASCII. *)
Lemma defaults_encode :
  write_chunks (json.iterencode 0 (PDict DEFAULT_SETTINGS))
  = (json.dumps (PDict DEFAULT_SETTINGS), true).
Proof. vm_compute. reflexivity. Qed.

(** The recovery of [load]: the defaults are installed and written back;
    a failing write is logged, not raised. *)
Lemma recover_with_defaults (w : write_fault) (s : state) :
  exists s',
    bind (save (Some DEFAULT_SETTINGS) w) (fun _ => gets _settings)
         (set_settings DEFAULT_SETTINGS s)
    = Ret DEFAULT_SETTINGS s'
    /\ _settings s' = DEFAULT_SETTINGS.
Proof.
  unfold bind. rewrite save_unfold. cbn [set_settings _settings].
  rewrite defaults_encode. cbn [fst snd].
  destruct w; eexists; split; reflexivity.
Qed.

(** Where [load] does recover: a file that decodes and does not parse, or
    that cannot be read, gives the defaults, and nothing is raised. *)
Lemma load_recovers (s : state) (b : bytes) (r : read_fault) (w : write_fault) :
  fs s (config_path s) = Some b ->
  r = Read_fails
  \/ (r = Read_ok /\ utf8_valid b = true /\ json.loads b = inl JSONDecodeError) ->
  exists s', load r w s = Ret DEFAULT_SETTINGS s' /\ _settings s' = DEFAULT_SETTINGS.
Proof.
  intros Hfs Hbad.
  assert (Hbody : exists e, (e = OSError \/ e = JSONDecodeError)
                            /\ open_and_load r s = Raise e s).
  { unfold open_and_load, bind, gets. rewrite Hfs.
    destruct Hbad as [->|(-> & Hvalid & Hparse)].
    - exists OSError. split; [now left|reflexivity].
    - exists JSONDecodeError. split; [now right|].
      rewrite Hvalid, Hparse. reflexivity. }
  destruct Hbody as (e & He & Hbody).
  destruct (recover_with_defaults w (add_log (WARNING, Failed_to_load_config e) s))
    as (s' & Hrec & Hset).
  exists s'. split; [|exact Hset].
  cbv [bind gets] in Hrec.
  cbv [load bind gets path_exists try_except lift logger modify ret].
  rewrite Hfs. cbn [negb]. rewrite Hbody.
  destruct He as [-> | ->]; cbn [existsb exn_eqb orb];
    cbn [set_settings _settings] in *;
    destruct (save _ w _) eqn:Hsave; inversion Hrec; subst; reflexivity.
Qed.

(** C6, where the code departs from it.  A settings file whose bytes are not
    UTF-8 is not valid JSON, yet [load] does not fall back to the defaults:
    the [UnicodeDecodeError] of the read is neither a [JSONDecodeError] nor an
    [OSError], passes the [except] clause and leaves [load]; the settings in
    memory are not touched and nothing is logged. *)
Theorem load_raises_on_undecodable_file (s : state) (b : bytes) (w : write_fault) :
  fs s (config_path s) = Some b ->
  utf8_valid b = false ->
  load Read_ok w s = Raise UnicodeDecodeError s.
Proof.
  intros Hfs Hvalid.
  cbv [load bind gets path_exists try_except lift logger modify ret open_and_load raise].
  rewrite Hfs. cbv beta iota delta [negb]. rewrite Hfs, Hvalid. reflexivity.
Qed.

Lemma load_raises_on_undecodable_file_witness :
  load Read_ok Write_ok
       (with_settings_file (String (ascii_of_N 255) EmptyString) demo_state)
  = Raise UnicodeDecodeError
          (with_settings_file (String (ascii_of_N 255) EmptyString) demo_state).
Proof.
  apply (load_raises_on_undecodable_file
           (with_settings_file (String (ascii_of_N 255) EmptyString) demo_state)
           (String (ascii_of_N 255) EmptyString) Write_ok); reflexivity.
Defined.

Lemma dict_lookup_setitem_same (d : dict) (k : string) (v : pyval) :
  dict_lookup (dict_setitem d k v) k = Some v.
Proof.
  induction d as [|[k' v'] d IH]; cbn.
  - now rewrite String.eqb_refl.
  - destruct (String.eqb k k') eqn:Hk; cbn; rewrite Hk; [reflexivity|exact IH].
Qed.

(** C9.  When the operating system fails the write ([mkdir], [open] or the
    write itself), [save] returns [False] and raises nothing, and the settings
    in memory are the record being saved: the one passed, or the current one.
    [set] puts the value in memory whether or not it saves and whatever
    becomes of the write, so [get] returns it afterwards. *)
Theorem save_reports_io_failure (s : state) (settings : option dict) (w : write_fault) :
  w <> Write_ok ->
  returned (save settings w s) = Some false
  /\ _settings (final (save settings w s))
     = match settings with Some d => d | None => _settings s end
  /\ (forall key value auto_save,
        returned (set key value auto_save w s) = Some tt
        /\ _settings (final (set key value auto_save w s))
           = dict_setitem (_settings s) key value
        /\ dict_get (_settings (final (set key value auto_save w s))) key PNone = value).
Proof.
  intros Hw.
  assert (Hsave : forall settings' s0,
            returned (save settings' w s0) = Some false
            /\ _settings (final (save settings' w s0))
               = match settings' with Some d => d | None => _settings s0 end).
  { intros settings' s0. rewrite save_unfold.
    destruct w; [contradiction| | |]; destruct settings'; split; reflexivity. }
  split; [apply Hsave|]. split; [apply Hsave|].
  intros key value auto_save.
  assert (Hmem : _settings (final (set key value auto_save w s))
                 = dict_setitem (_settings s) key value).
  { unfold set, bind, modify. destruct auto_save; [|reflexivity].
    destruct (Hsave None (set_settings (dict_setitem (_settings s) key value) s))
      as (_ & Hfinal).
    destruct (save None w _); exact Hfinal. }
  split; [|split; [exact Hmem|]].
  - unfold set, bind, modify. destruct auto_save; [|reflexivity].
    destruct (Hsave None (set_settings (dict_setitem (_settings s) key value) s))
      as (Hret & _).
    destruct (save None w _); [reflexivity|discriminate].
  - rewrite Hmem. unfold dict_get. now rewrite dict_lookup_setitem_same.
Qed.

Lemma save_reports_io_failure_witness :
  returned (save (Some (settings_record "bn" 30 true)) Open_fails demo_state) = Some false
  /\ _settings (final (save (Some (settings_record "bn" 30 true)) Open_fails demo_state))
     = settings_record "bn" 30 true.
Proof.
  assert (Hw : Open_fails <> Write_ok) by discriminate.
  destruct (save_reports_io_failure demo_state (Some (settings_record "bn" 30 true))
              Open_fails Hw) as (Hret & Hmem & _).
  split; [exact Hret|exact Hmem].
Defined.

(** [set] keeps the value in memory also when the write succeeds or the text
    cannot be encoded. *)
Lemma set_updates_memory (s : state) (key : string) (value : pyval) (auto_save : bool)
  (w : write_fault) :
  _settings (final (set key value auto_save w s)) = dict_setitem (_settings s) key value.
Proof.
  unfold set, bind, modify. destruct auto_save; [|reflexivity].
  rewrite save_unfold. cbn [set_settings _settings].
  destruct w; cbn; try reflexivity.
  destruct (snd (write_chunks _)); reflexivity.
Qed.

Lemma append_empty_r (a : string) : (a ++ EmptyString)%string = a.
Proof. induction a as [|c a IH]; cbn; [reflexivity|now rewrite IH]. Qed.

Lemma write_chunks_complete (chunks : list string) (text : string) :
  write_chunks chunks = (text, true) -> text = String.concat EmptyString chunks.
Proof.
  revert text. induction chunks as [|c cs IH]; intros text H; cbn in H.
  - now inversion H.
  - destruct (utf8_valid c); [|discriminate].
    destruct (write_chunks cs) as [t ok]. inversion H; subst.
    rewrite (IH t eq_refl). destruct cs; cbn; [now rewrite append_empty_r|reflexivity].
Qed.

(** [load] on a settings file that decodes and parses as an object: the
    settings become the defaults overridden by the object. *)
Lemma load_parses (s : state) (b : bytes) (d : dict) (w : write_fault) :
  fs s (config_path s) = Some b ->
  utf8_valid b = true ->
  json.loads b = inr (PDict d) ->
  load Read_ok w s
  = Ret (dict_merge DEFAULT_SETTINGS d)
        (add_log (INFO, Config_loaded (config_path s))
           (set_settings (dict_merge DEFAULT_SETTINGS d) s)).
Proof.
  intros Hfs Hvalid Hparse.
  cbv [load bind gets path_exists try_except lift logger modify ret open_and_load raise].
  rewrite Hfs. cbv beta iota delta [negb].
  rewrite Hfs, Hvalid, Hparse. reflexivity.
Qed.

(** Saving a record and loading: what [load] gets is what the parser makes
    of the text the encoder wrote. *)
Lemma save_then_load (s : state) (d d' : dict) (text : string) (w : write_fault) :
  write_chunks (json.iterencode 0 (PDict d)) = (text, true) ->
  utf8_valid text = true ->
  json.loads text = inr (PDict d') ->
  bind (save (Some d) Write_ok) (fun _ => load Read_ok w) s
  = Ret (dict_merge DEFAULT_SETTINGS d')
        (add_log (INFO, Config_loaded (config_path s))
           (set_settings (dict_merge DEFAULT_SETTINGS d')
              (add_log (INFO, Config_saved (config_path s))
                 (fs_write (config_path s) text (set_settings d s))))).
Proof.
  intros Hchunks Hvalid Hparse.
  unfold bind at 1. rewrite save_unfold. cbn [set_settings _settings].
  rewrite Hchunks. cbn [fst snd].
  set (s1 := add_log (INFO, Config_saved (config_path s))
                     (fs_write (config_path s) text (set_settings d s))).
  rewrite (load_parses s1 text d' w); [reflexivity| |exact Hvalid|exact Hparse].
  unfold s1. cbn [config_path add_log fs_write set_fs fs set_settings].
  apply path_eqb_refl_some.
Qed.

(** The records of the data model (a language of the two, an interval of the
    three, a muted flag) always encode: their text is ASCII. *)
Lemma data_model_record_saves (s : state) (language : string) (interval : Z) (muted : bool) :
  In language ["en"; "bn"] ->
  In interval [15; 30; 60] ->
  returned (save (Some (settings_record language interval muted)) Write_ok s) = Some true.
Proof.
  intros Hlang Hint. rewrite save_unfold. cbn [set_settings _settings].
  cbn [In] in Hlang, Hint.
  destruct Hlang as [<-|[<-|[]]]; destruct Hint as [<-|[<-|[<-|[]]]]; destruct muted;
    reflexivity.
Qed.

(** C7.  Saving a settings record over the three known keys (a language
    string, an integer interval of at most 4300 digits, a muted flag) and
    then loading gives the record back.  Whenever the write succeeds, that is whenever [save]
    returned [True], the file holds the JSON text of the record, and [load]
    reads the record from the file: whatever the settings in memory have
    become in between, it returns a record equal to the one saved and keeps
    it in memory; so does a [ConfigManager] constructed afresh on the path,
    which starts with no settings.  So it is for the record with language
    "bn", interval 30 and muted true. *)
Theorem save_then_load_is_identity
  (s : state) (language : string) (interval : Z) (muted : bool) (w : write_fault) :
  str_converts interval = true ->
  returned (save (Some (settings_record language interval muted)) Write_ok s) = Some true ->
  fs (final (save (Some (settings_record language interval muted)) Write_ok s)) (config_path s)
  = Some (json.dumps (PDict (settings_record language interval muted)))
  /\ (forall memory,
        returned (load Read_ok w
                    (set_settings memory
                       (final (save (Some (settings_record language interval muted))
                                    Write_ok s))))
        = Some (settings_record language interval muted)
        /\ _settings (final (load Read_ok w
                               (set_settings memory
                                  (final (save (Some (settings_record language interval muted))
                                               Write_ok s)))))
           = settings_record language interval muted)
  /\ returned (bind (save (Some (settings_record language interval muted)) Write_ok)
                    (fun _ => load Read_ok w) s)
     = Some (settings_record language interval muted)
  /\ _settings (final (__init__ (config_path s) Read_ok w
                         (final (save (Some (settings_record language interval muted))
                                      Write_ok s))))
     = settings_record language interval muted.
Proof.
  intros _ Hsaved.
  set (d := settings_record language interval muted) in *.
  assert (Hchunks : write_chunks (json.iterencode 0 (PDict d)) = (json.dumps (PDict d), true)).
  { rewrite save_unfold in Hsaved. cbn [set_settings _settings] in Hsaved.
    destruct (write_chunks (json.iterencode 0 (PDict d))) as [text complete] eqn:E.
    cbn [fst snd] in Hsaved. destruct complete; [|discriminate].
    now rewrite (write_chunks_complete _ _ E). }
  assert (Hload : forall s', fs s' (config_path s') = Some (json.dumps (PDict d)) ->
                             load Read_ok w s'
                             = Ret d (add_log (INFO, Config_loaded (config_path s'))
                                        (set_settings d s'))).
  { intros s' Hfs'.
    exact (load_parses s' _ d w Hfs' (write_chunks_valid _ _ Hchunks)
             (loads_record language interval muted)). }
  assert (Hs1 : save (Some d) Write_ok s
                = Ret true (add_log (INFO, Config_saved (config_path s))
                              (fs_write (config_path s) (json.dumps (PDict d))
                                        (set_settings d s)))).
  { rewrite save_unfold. cbn [set_settings _settings]. rewrite Hchunks. reflexivity. }
  unfold bind. rewrite Hs1. cbn [final].
  set (s1 := add_log _ _).
  assert (Hfs1 : fs s1 (config_path s) = Some (json.dumps (PDict d))).
  { unfold s1. cbn [fs add_log fs_write set_fs]. apply path_eqb_refl_some. }
  split; [exact Hfs1|]. split; [|split].
  - intros memory. rewrite (Hload (set_settings memory s1) Hfs1). split; reflexivity.
  - now rewrite (Hload s1 Hfs1).
  - unfold __init__, bind, modify.
    rewrite Hload; [reflexivity|]. cbn [fs config_path]. exact Hfs1.
Qed.

Lemma save_then_load_is_identity_witness :
  returned (load Read_ok Write_ok
              (set_settings DEFAULT_SETTINGS
                 (final (save (Some (settings_record "bn" 30 true)) Write_ok demo_state))))
  = Some (settings_record "bn" 30 true).
Proof.
  assert (Hsaved : returned (save (Some (settings_record "bn" 30 true)) Write_ok demo_state)
                   = Some true) by (vm_compute; reflexivity).
  destruct (save_then_load_is_identity demo_state "bn" 30 true Write_ok eq_refl Hsaved)
    as (_ & H & _).
  exact (proj1 (H DEFAULT_SETTINGS)).
Defined.

(** ** Dictionaries *)

Lemma dict_lookup_setitem (d : dict) (k k' : string) (v : pyval) :
  dict_lookup (dict_setitem d k v) k'
  = if String.eqb k' k then Some v else dict_lookup d k'.
Proof.
  induction d as [|[k0 v0] d IH]; cbn; [reflexivity|].
  destruct (String.eqb_spec k k0) as [->|Hk]; cbn.
  - destruct (String.eqb k' k0); reflexivity.
  - rewrite IH. destruct (String.eqb_spec k' k0) as [->|Hk'].
    + destruct (String.eqb_spec k0 k); [congruence|reflexivity].
    + reflexivity.
Qed.



Lemma dict_setitem_keys (d : dict) (k : string) (v : pyval) :
  map fst (dict_setitem d k v)
  = if existsb (String.eqb k) (map fst d) then map fst d else map fst d ++ [k].
Proof.
  induction d as [|[k0 v0] d IH]; cbn; [reflexivity|].
  destruct (String.eqb k k0); cbn; [reflexivity|].
  rewrite IH. destruct (existsb (String.eqb k) (map fst d)); reflexivity.
Qed.






(** ** What the parser returns for an object *)








End Store.

(* ===================================================================== *)
(** * Further properties of the engine, the store and what surrounds them *)
(* ===================================================================== *)

Section EngineEdges.

Import TimeAnnouncer.

(** What [_play_time_audio] does when the language setting is not a string:
    the join of the path raises before anything is looked up. *)
Lemma play_time_audio_not_str (s : state) (h m : Z) :
  (forall l, language_setting s <> PStr l) ->
  _play_time_audio h m s = Raise TypeError s.
Proof.
  intros Hl. unfold language_setting in Hl.
  cbv [_play_time_audio bind ConfigManager.get gets lift raise].
  destruct (dict_get (_settings s) "language" (PStr "en")) eqn:E; try reflexivity.
  exfalso. exact (Hl _ eq_refl).
Qed.

Lemma play_time_audio_returns (s : state) (language : string) (h m : Z) :
  language_setting s = PStr language ->
  name_too_long language = false ->
  returned (_play_time_audio h m s) = Some tt.
Proof.
  intros Hl Hfits. rewrite (play_time_audio_str s language h m Hl), Hfits.
  destruct (exists_in s (ogg_path s language h m));
    [|destruct (exists_in s (mp3_path s language h m))]; reflexivity.
Qed.

(** With an integer interval other than zero and a language that is a
    string of names the file system can look up, nothing in a tick can
    raise. *)
Lemma tick_returns_true (s : state) (now : datetime) (i : Z) (language : string) :
  interval_setting s = PInt i -> i <> 0 ->
  language_setting s = PStr language ->
  name_too_long language = false ->
  returned (check_and_announce now s) = Some true.
Proof.
  intros Hint Hi Hlang Hfits.
  rewrite check_and_announce_unfold.
  destruct (truthy (muted_setting s)); [reflexivity|].
  rewrite Hint. cbn [mod_is_zero]. destruct (Z.eqb_spec i 0); [contradiction|].
  destruct ((minute now mod i =? 0) && negb (debounced s now)); [|reflexivity].
  unfold bind, ret.
  pose proof (play_time_audio_returns (mark now s) language (hour now) (minute now)
                Hlang Hfits) as Hret.
  destruct (_play_time_audio (hour now) (minute now) (mark now s)); [reflexivity|discriminate].
Qed.

Lemma initial_check_after_tick (s : state) (now : datetime) :
  returned (check_and_announce now s) = Some true ->
  returned (VoiceClockApp._initial_check now s) = Some false
  /\ final (VoiceClockApp._initial_check now s) = final (check_and_announce now s).
Proof.
  unfold VoiceClockApp._initial_check, bind, ret.
  destruct (check_and_announce now s); [|discriminate]. now split.
Qed.



(** X2.  The engine does not validate the interval it reads.  While not
    muted, an interval of 0 makes every tick raise [ZeroDivisionError], and an
    interval that is [None], a string, a list or a dictionary makes every
    tick raise [TypeError], whatever the time; the exception leaves
    [check_and_announce], nothing is played and the state is as before. *)
Theorem invalid_interval_raises_on_every_tick (s : state) (now : datetime) :
  truthy (muted_setting s) = false ->
  (interval_setting s = PInt 0 ->
   check_and_announce now s = Raise ZeroDivisionError s)
  /\ (interval_setting s = PNone
      \/ (exists text, interval_setting s = PStr text)
      \/ (exists l, interval_setting s = PList l)
      \/ (exists d, interval_setting s = PDict d) ->
      check_and_announce now s = Raise TypeError s).
Proof.
  intros Hmuted. split.
  - intros Hint. now rewrite check_and_announce_unfold, Hmuted, Hint.
  - intros [Hint|[[t Hint]|[[l Hint]|[d Hint]]]];
      now rewrite check_and_announce_unfold, Hmuted, Hint.
Qed.

Lemma invalid_interval_raises_on_every_tick_witness :
  check_and_announce (mkTime 14 0)
    (set_settings [("interval", PInt 0)] demo_state)
  = Raise ZeroDivisionError (set_settings [("interval", PInt 0)] demo_state)
  /\ check_and_announce (mkTime 14 0)
       (set_settings [("interval", PStr "15")] demo_state)
     = Raise TypeError (set_settings [("interval", PStr "15")] demo_state).
Proof.
  split.
  - apply (invalid_interval_raises_on_every_tick
             (set_settings [("interval", PInt 0)] demo_state) (mkTime 14 0) eq_refl).
    reflexivity.
  - apply (invalid_interval_raises_on_every_tick
             (set_settings [("interval", PStr "15")] demo_state) (mkTime 14 0) eq_refl).
    right. left. now exists "15".
Defined.

Lemma announces_iff_matches (s : state) (now : datetime) (i : Z) :
  truthy (muted_setting s) = false ->
  interval_setting s = PInt i ->
  i <> 0 ->
  debounce s <> time_pair now ->
  (announces now s (check_and_announce now s) <-> minute now mod i = 0).
Proof.
  intros Hmuted Hint Hi Hdeb.
  rewrite (check_and_announce_int s now i Hmuted Hint Hi).
  rewrite (debounce_differs s now Hdeb). cbn [negb]. rewrite andb_true_r.
  destruct (Z.eqb_spec (minute now mod i) 0) as [Hmod|Hmod].
  - split; [intros _; exact Hmod | intros _; reflexivity].
  - split; [|intros Hm; contradiction].
    unfold announces. intros Heq. exfalso. apply Hdeb.
    apply (f_equal final) in Heq. rewrite final_bind_ret in Heq. cbn [final] in Heq.
    destruct (play_time_audio_frame (mark now s) (hour now) (minute now)) as (Hd & _).
    rewrite <- Heq in Hd. exact Hd.
Qed.

(** X3.  The sign and the size of an integer interval.  While not muted and
    not debounced, a tick announces exactly when the absolute value of the
    interval divides the minute: -15 behaves as 15; an interval of 60 or more
    announces at minute 0 only; an interval of 1 or -1 announces every
    minute. *)
Theorem tick_announces_on_multiples_of_interval (s : state) (now : datetime) (i : Z) :
  truthy (muted_setting s) = false ->
  interval_setting s = PInt i ->
  i <> 0 ->
  debounce s <> time_pair now ->
  (announces now s (check_and_announce now s) <-> (Z.abs i | minute now))
  /\ (valid_time now -> 60 <= Z.abs i ->
      (announces now s (check_and_announce now s) <-> minute now = 0))
  /\ (Z.abs i = 1 -> announces now s (check_and_announce now s)).
Proof.
  intros Hmuted Hint Hi Hdeb.
  pose proof (announces_iff_matches s now i Hmuted Hint Hi Hdeb) as Hiff.
  assert (Hdiv : minute now mod i = 0 <-> (Z.abs i | minute now)).
  { rewrite Z.mod_divide by exact Hi. symmetry. apply Z.divide_abs_l. }
  split; [|split].
  - now rewrite Hiff.
  - intros [_ Hm] Hbig. rewrite Hiff, Hdiv. split.
    + intros [k Hk].
      assert (k = 0) by nia. subst k. lia.
    + intros ->. apply Z.divide_0_r.
  - intros H1. apply Hiff, Hdiv. rewrite H1. apply Z.divide_1_l.
Qed.

Lemma tick_announces_on_multiples_of_interval_witness :
  announces (mkTime 14 30) (set_settings [("interval", PInt (-15))] demo_state)
    (check_and_announce (mkTime 14 30) (set_settings [("interval", PInt (-15))] demo_state)).
Proof.
  destruct (tick_announces_on_multiples_of_interval
              (set_settings [("interval", PInt (-15))] demo_state) (mkTime 14 30) (-15)
              eq_refl eq_refl ltac:(discriminate) ltac:(discriminate)) as (H & _ & _).
  apply H. exists 2. reflexivity.
Defined.

End EngineEdges.

Section EngineRuns.

Import TimeAnnouncer.

(** X4.  When the settings hold none of the three keys, the engine falls
    back on the defaults it passes to [get]: not muted, every 60 minutes,
    English.  A tick returns [True], and the player receives the English clip
    of the time, when a file of it exists, exactly when the minute is a
    multiple of 60 and the time is not the debounce state. *)
Theorem absent_settings_mean_defaults (s : state) (now : datetime) :
  dict_lookup (_settings s) "muted" = None ->
  dict_lookup (_settings s) "interval" = None ->
  dict_lookup (_settings s) "language" = None ->
  returned (check_and_announce now s) = Some true
  /\ played (final (check_and_announce now s))
     = played s ++ (if (minute now mod 60 =? 0) && negb (debounced s now)
                    then clip_list (clip_for s "en" (hour now) (minute now))
                    else []).
Proof.
  intros Hm Hi Hl.
  assert (Hmuted : muted_setting s = PNone) by (unfold muted_setting, dict_get; now rewrite Hm).
  assert (Hint : interval_setting s = PInt 60) by (unfold interval_setting, dict_get; now rewrite Hi).
  assert (Hlang : language_setting s = PStr "en") by (unfold language_setting, dict_get; now rewrite Hl).
  split.
  - apply (tick_returns_true s now 60 "en" Hint); [lia|exact Hlang|reflexivity].
  - rewrite tick_played. f_equal. unfold tick_plays.
    rewrite Hmuted, Hint, Hlang. cbn [truthy mod_is_zero Z.eqb].
    destruct (minute now mod 60 =? 0); [|reflexivity].
    destruct (debounced s now); reflexivity.
Qed.

Lemma absent_settings_mean_defaults_witness :
  played (final (check_and_announce (mkTime 14 0) (set_settings [] demo_state)))
  = [["assets"; "audio"; "en"; "02_00.ogg"]].
Proof.
  destruct (absent_settings_mean_defaults (set_settings [] demo_state) (mkTime 14 0)
              eq_refl eq_refl eq_refl) as (_ & H).
  rewrite H. reflexivity.
Defined.

(** X5.  A language setting that is not a string makes [_play_time_audio]
    raise [TypeError] when it joins the path, before any file is looked up.
    [force_announce] raises it with the state unchanged; a tick that is due
    raises it after it has recorded the time as announced, so a second tick
    in the same minute returns [True] and does nothing. *)
Theorem non_string_language_raises_after_marking (s : state) (now : datetime) (i : Z) :
  (forall l, language_setting s <> PStr l) ->
  force_announce now s = Raise TypeError s
  /\ (truthy (muted_setting s) = false ->
      interval_setting s = PInt i ->
      minute now mod i = 0 ->
      i <> 0 ->
      debounce s <> time_pair now ->
      check_and_announce now s = Raise TypeError (mark now s)
      /\ check_and_announce now (mark now s) = Ret true (mark now s)).
Proof.
  intros Hl. split.
  - exact (play_time_audio_not_str s _ _ Hl).
  - intros Hmuted Hint Hmod Hi Hdeb. split.
    + rewrite (check_and_announce_int s now i Hmuted Hint Hi).
      rewrite (debounce_differs s now Hdeb), Hmod. cbn [negb andb Z.eqb].
      unfold bind. now rewrite (play_time_audio_not_str (mark now s) _ _ Hl).
    + rewrite (check_and_announce_int (mark now s) now i Hmuted Hint Hi).
      rewrite (debounce_same (mark now s) now eq_refl). cbn [negb].
      now rewrite andb_false_r.
Qed.

Lemma non_string_language_raises_after_marking_witness :
  check_and_announce (mkTime 14 0)
    (set_settings [("language", PNone)] demo_state)
  = Raise TypeError (mark (mkTime 14 0) (set_settings [("language", PNone)] demo_state)).
Proof.
  assert (Hl : forall l, language_setting (set_settings [("language", PNone)] demo_state)
                         <> PStr l) by (intros l; discriminate).
  destruct (non_string_language_raises_after_marking
              (set_settings [("language", PNone)] demo_state) (mkTime 14 0) 60 Hl)
    as (_ & H).
  apply H; [reflexivity|reflexivity|reflexivity|discriminate|discriminate].
Defined.

(* ---- chronological ---- *)

Lemma time_eqb_true (u t : datetime) :
  time_eqb u t = true -> hour u = hour t /\ minute u = minute t.
Proof.
  unfold time_eqb. intros H. apply andb_true_iff in H. destruct H as [H1 H2].
  split; now apply Z.eqb_eq.
Qed.

Lemma time_eqb_false (u t : datetime) :
  time_eqb u t = false -> hour u <> hour t \/ minute u <> minute t.
Proof.
  unfold time_eqb. intros H. apply andb_false_iff in H.
  destruct H as [H|H]; [left|right]; now apply Z.eqb_neq.
Qed.

Lemma tick_count (s : state) (u : datetime) :
  (List.length (played (final (check_and_announce u s))) - List.length (played s))%nat
  = List.length (tick_plays s u).
Proof. rewrite tick_played, length_app. lia. Qed.

Lemma playbacks_none (t : datetime) (ticks : list datetime) :
  Forall (fun u => time_eqb u t = false) ticks ->
  forall s, playbacks_at t ticks s = 0%nat.
Proof.
  induction 1 as [|u us Hu _ IH]; intros s; cbn [playbacks_at]; [reflexivity|].
  rewrite Hu, IH. reflexivity.
Qed.

Lemma playbacks_after_announcement (t : datetime) (ticks : list datetime) :
  Forall (time_le t) ticks -> chronological ticks ->
  forall s, debounce s = time_pair t -> playbacks_at t ticks s = 0%nat.
Proof.
  induction ticks as [|u us IH]; intros Hle Hchron s Hd; [reflexivity|].
  cbn [playbacks_at]. inversion Hle as [|? ? Hu Hus]; subst.
  destruct Hchron as [Hafter Hchron].
  destruct (time_eqb u t) eqn:E.
  - apply time_eqb_true in E. destruct E as [Eh Em].
    assert (Hpair : time_pair u = time_pair t) by (unfold time_pair; now rewrite Eh, Em).
    rewrite <- Hpair in Hd.
    destruct (tick_debounced s u Hd) as [Hnone Hd'].
    rewrite tick_count, Hnone. cbn [List.length Nat.add].
    apply IH; [exact Hus|exact Hchron|]. now rewrite Hd'.
  - cbn [Nat.add]. apply playbacks_none.
    apply time_eqb_false in E.
    rewrite Forall_forall in Hafter |- *. intros v Hv. specialize (Hafter v Hv).
    unfold time_eqb. apply andb_false_iff.
    unfold time_le in *.
    destruct (Z.eqb_spec (hour v) (hour t)); [|now left].
    destruct (Z.eqb_spec (minute v) (minute t)); [|now right].
    exfalso. lia.
Qed.

(** X6.  On a clock that does not go back, every hour and minute is played
    at most once: for a sequence of ticks in which no tick is earlier in the
    day than one before it, with no reset in between, at most one playback
    falls on each hour and minute, whatever the settings and the state the
    ticks start in. *)
Theorem one_playback_per_minute_on_a_forward_clock
  (ticks : list datetime) (s : state) :
  chronological ticks -> at_most_one_playback_per_pair ticks s.
Proof.
  unfold at_most_one_playback_per_pair.
  revert s. induction ticks as [|u us IH]; intros s Hchron t; cbn [playbacks_at]; [lia|].
  destruct Hchron as [Hafter Hchron].
  destruct (time_eqb u t) eqn:E.
  - rewrite tick_count.
    pose proof (tick_plays_at_most_one s u) as Hone.
    destruct (tick_plays s u) as [|p ps] eqn:Hp.
    + cbn [List.length Nat.add]. apply IH, Hchron.
    + destruct (tick_debounce s u) as [[_ Hnil]|Hd]; [rewrite Hp in Hnil; discriminate|].
      apply time_eqb_true in E. destruct E as [Eh Em].
      rewrite (playbacks_after_announcement t us).
      * cbn [List.length] in *. lia.
      * eapply Forall_impl; [|exact Hafter]. unfold time_le. intros v Hv. lia.
      * exact Hchron.
      * rewrite Hd. unfold time_pair. now rewrite Eh, Em.
  - cbn [Nat.add]. apply IH, Hchron.
Qed.

Lemma one_playback_per_minute_on_a_forward_clock_witness :
  at_most_one_playback_per_pair
    [mkTime 14 0; mkTime 14 0; mkTime 14 1; mkTime 15 0; mkTime 15 0] demo_state.
Proof.
  apply one_playback_per_minute_on_a_forward_clock.
  cbn [chronological]. unfold time_le.
  repeat match goal with
         | |- _ /\ _ => split
         | |- Forall _ _ => constructor
         | |- True => exact I
         end; cbn [hour minute]; lia.
Defined.

End EngineRuns.

Section EngineFrame.

Import TimeAnnouncer.

Lemma call_keeps_same (s s' : state) (bound : nat) :
  fs s' = fs s -> _settings s' = _settings s -> config_path s' = config_path s ->
  assets_dir s' = assets_dir s -> played s' = played s ->
  call_keeps s s' bound.
Proof.
  intros H1 H2 H3 H4 H5. unfold call_keeps.
  split; [exact H1|]. split; [exact H2|]. split; [exact H3|]. split; [exact H4|].
  exists []. rewrite app_nil_r. split; [exact H5|]. split; [cbn; lia|].
  intros p [].
Qed.

Lemma call_keeps_one (s s' : state) (language name : string) :
  fs s' = fs s -> _settings s' = _settings s -> config_path s' = config_path s ->
  assets_dir s' = assets_dir s ->
  language_setting s = PStr language ->
  exists_in s (clip_path s language name) = true ->
  played s' = played s ++ [clip_path s language name] ->
  call_keeps s s' 1.
Proof.
  intros H1 H2 H3 H4 Hl He H5. unfold call_keeps.
  split; [exact H1|]. split; [exact H2|]. split; [exact H3|]. split; [exact H4|].
  exists [clip_path s language name]. split; [exact H5|]. split; [cbn; lia|].
  intros p [<-|[]]. split; [exact He|]. now exists language, name.
Qed.

Lemma play_time_audio_keeps (s : state) (h m : Z) :
  call_keeps s (final (_play_time_audio h m s)) 1.
Proof.
  destruct (language_setting s) as [| | | |language| |] eqn:Hlang.
  1-4,6-7: rewrite play_time_audio_not_str by (intros l0; rewrite Hlang; discriminate);
    now apply call_keeps_same.
  rewrite (play_time_audio_str s language h m Hlang).
  destruct (exists_in s (ogg_path s language h m)) eqn:Eo;
    [|destruct (name_too_long language);
      [|destruct (exists_in s (mp3_path s language h m)) eqn:Em]]; cbn [final].
  - now apply (call_keeps_one s _ language (filename_of h m)).
  - now apply call_keeps_same.
  - assert (Hp : mp3_path s language h m
                 = clip_path s language (name_with_suffix (filename_of h m) ".mp3")).
    { unfold mp3_path, ogg_path, clip_path. now rewrite with_suffix_joinpath. }
    rewrite Hp in *.
    now apply (call_keeps_one s _ language (name_with_suffix (filename_of h m) ".mp3")).
  - now apply call_keeps_same.
Qed.

Lemma run_call_keeps (c : engine_call) (s : state) :
  call_keeps s (run_call c s) 1.
Proof.
  destruct c as [now|now|]; cbn [run_call].
  - rewrite check_and_announce_unfold.
    destruct (truthy (muted_setting s)); [now apply call_keeps_same|].
    destruct (mod_is_zero (minute now) (interval_setting s)) as [e|b];
      [now apply call_keeps_same|].
    destruct (b && negb (debounced s now)); [|now apply call_keeps_same].
    rewrite final_bind_ret.
    exact (play_time_audio_keeps (mark now s) (hour now) (minute now)).
  - apply play_time_audio_keeps.
  - now apply call_keeps_same.
Qed.

Lemma call_keeps_trans (s s' s'' : state) (n m : nat) :
  call_keeps s s' n -> call_keeps s' s'' m -> call_keeps s s'' (n + m).
Proof.
  intros (F1 & S1 & C1 & A1 & new1 & P1 & L1 & E1) (F2 & S2 & C2 & A2 & new2 & P2 & L2 & E2).
  unfold call_keeps.
  split; [congruence|]. split; [congruence|]. split; [congruence|]. split; [congruence|].
  exists (new1 ++ new2). split; [|split].
  - rewrite P2, P1. now rewrite app_assoc.
  - rewrite length_app. lia.
  - intros p Hp. apply in_app_or in Hp. destruct Hp as [Hp|Hp]; [now apply E1|].
    destruct (E2 p Hp) as (Hex & language & name & Hl & Hpath). split.
    + unfold exists_in in *. now rewrite <- F1.
    + exists language, name. unfold language_setting, clip_path in *.
      rewrite <- S1, <- A1. now split.
Qed.

Lemma run_calls_keeps (calls : list engine_call) :
  forall s, call_keeps s (run_calls calls s) (List.length calls).
Proof.
  induction calls as [|c cs IH]; intros s.
  - now apply call_keeps_same.
  - change (run_calls (c :: cs) s) with (run_calls cs (run_call c s)).
    change (List.length (c :: cs)) with (1 + List.length cs)%nat.
    eapply call_keeps_trans; [apply run_call_keeps|apply IH].
Qed.

(** X7.  Whatever sequence of ticks, forced announcements and resets the
    engine goes through, it leaves the file system, the settings and the two
    paths as they were, hands at most one path per call to the player, and
    every path it hands over is a file that exists, under the directory
    [audio] of the assets and the directory of the language setting. *)
Theorem engine_only_plays_existing_clips (calls : list engine_call) (s : state) :
  fs (run_calls calls s) = fs s
  /\ _settings (run_calls calls s) = _settings s
  /\ config_path (run_calls calls s) = config_path s
  /\ assets_dir (run_calls calls s) = assets_dir s
  /\ exists new,
       played (run_calls calls s) = played s ++ new
       /\ (List.length new <= List.length calls)%nat
       /\ forall p, In p new ->
            exists_in s p = true
            /\ exists language name,
                 language_setting s = PStr language /\ p = clip_path s language name.
Proof.
  destruct (run_calls_keeps calls s) as (Hfs & Hset & Hcfg & Hassets & new & Hplayed & Hlen & Hnew).
  split; [exact Hfs|]. split; [exact Hset|]. split; [exact Hcfg|]. split; [exact Hassets|].
  exists new. split; [exact Hplayed|]. split; [exact Hlen|]. exact Hnew.
Qed.

Lemma engine_only_plays_existing_clips_witness :
  fs (run_calls [Tick (mkTime 14 0); Force (mkTime 15 0); Reset; Tick (mkTime 14 0)]
                demo_state) = fs demo_state
  /\ _settings (run_calls [Tick (mkTime 14 0); Force (mkTime 15 0); Reset; Tick (mkTime 14 0)]
                          demo_state) = _settings demo_state.
Proof.
  destruct (engine_only_plays_existing_clips
              [Tick (mkTime 14 0); Force (mkTime 15 0); Reset; Tick (mkTime 14 0)]
              demo_state) as (H1 & H2 & _).
  split; [exact H1|exact H2].
Defined.

End EngineFrame.

Section ClipNames.

Import TimeAnnouncer.

Lemma format_02d_two_digits_all :
  forallb (fun n => String.eqb (format_02d n) (two_digits n)) (map Z.of_nat (seq 0 100))
  = true.
Proof. vm_compute. reflexivity. Qed.

Lemma format_02d_two_digits (n : Z) :
  0 <= n < 100 -> format_02d n = two_digits n.
Proof.
  intros Hn. apply String.eqb_eq.
  apply (forallb_range (fun n => String.eqb (format_02d n) (two_digits n)) 100
           format_02d_two_digits_all).
  change (Z.of_nat 100) with 100. exact Hn.
Qed.

Lemma two_digits_inj (a b : Z) :
  0 <= a < 100 -> 0 <= b < 100 -> two_digits a = two_digits b -> a = b.
Proof.
  intros Ha Hb H. unfold two_digits in H.
  assert (H1 : ascii_of_N (48 + Z.to_N (a / 10)) = ascii_of_N (48 + Z.to_N (b / 10)))
    by congruence.
  assert (H2 : ascii_of_N (48 + Z.to_N (a mod 10)) = ascii_of_N (48 + Z.to_N (b mod 10)))
    by congruence.
  clear H. apply (f_equal N_of_ascii) in H1, H2.
  assert (Hq : forall x, 0 <= x < 100 -> (48 + Z.to_N (x / 10) < 256)%N).
  { intros x Hx. assert (0 <= x / 10 < 10) by (split; [apply Z.div_pos|apply Z.div_lt_upper_bound]; lia). lia. }
  assert (Hr : forall x, 0 <= x < 100 -> (48 + Z.to_N (x mod 10) < 256)%N).
  { intros x Hx. pose proof (Z.mod_pos_bound x 10 ltac:(lia)). lia. }
  rewrite (N_ascii_embedding _ (Hq a Ha)), (N_ascii_embedding _ (Hq b Hb)) in H1.
  rewrite (N_ascii_embedding _ (Hr a Ha)), (N_ascii_embedding _ (Hr b Hb)) in H2.
  assert (a / 10 = b / 10).
  { assert (0 <= a / 10) by (apply Z.div_pos; lia).
    assert (0 <= b / 10) by (apply Z.div_pos; lia). lia. }
  assert (a mod 10 = b mod 10).
  { pose proof (Z.mod_pos_bound a 10 ltac:(lia)).
    pose proof (Z.mod_pos_bound b 10 ltac:(lia)). lia. }
  rewrite (Z.div_mod a 10), (Z.div_mod b 10) by lia. congruence.
Qed.

Lemma hour_12_of_range (h : Z) : 1 <= hour_12_of h <= 12.
Proof.
  unfold hour_12_of. pose proof (Z.mod_pos_bound h 12 ltac:(lia)).
  destruct (Z.eqb_spec (h mod 12) 0); lia.
Qed.

Lemma hour_12_of_eq (a b : Z) :
  hour_12_of a = hour_12_of b <-> a mod 12 = b mod 12.
Proof.
  unfold hour_12_of.
  pose proof (Z.mod_pos_bound a 12 ltac:(lia)).
  pose proof (Z.mod_pos_bound b 12 ltac:(lia)).
  destruct (Z.eqb_spec (a mod 12) 0), (Z.eqb_spec (b mod 12) 0); lia.
Qed.

Lemma filename_of_two_digits (h m : Z) :
  0 <= m < 100 ->
  filename_of h m
  = (two_digits (hour_12_of h) ++ "_" ++ two_digits m ++ ".ogg")%string.
Proof.
  intros Hm. unfold filename_of.
  pose proof (hour_12_of_range h).
  rewrite !format_02d_two_digits by lia. reflexivity.
Qed.

(** X8.  Two times of day resolve to the same clip file exactly when their
    minutes are equal and their hours are equal modulo 12: a clip serves a
    time before noon and the time twelve hours later, and no other time. *)
Theorem clip_is_shared_by_times_twelve_hours_apart (a b : datetime) :
  valid_time a -> valid_time b ->
  (filename_of (hour a) (minute a) = filename_of (hour b) (minute b)
   <-> hour a mod 12 = hour b mod 12 /\ minute a = minute b).
Proof.
  intros [_ Hma] [_ Hmb]. split.
  - rewrite !filename_of_two_digits by lia. intros H.
    pose proof (hour_12_of_range (hour a)). pose proof (hour_12_of_range (hour b)).
    assert (Hh : two_digits (hour_12_of (hour a)) = two_digits (hour_12_of (hour b))).
    { unfold two_digits in *. cbn [String.append] in H. congruence. }
    assert (Hm : two_digits (minute a) = two_digits (minute b)).
    { unfold two_digits in *. cbn [String.append] in H. congruence. }
    split.
    + apply hour_12_of_eq. apply two_digits_inj; [lia|lia|exact Hh].
    + apply two_digits_inj; [lia|lia|exact Hm].
  - intros [Hh Hm]. unfold filename_of.
    apply hour_12_of_eq in Hh. now rewrite Hh, Hm.
Qed.

Lemma clip_is_shared_by_times_twelve_hours_apart_witness :
  filename_of 2 15 = filename_of 14 15.
Proof.
  apply (clip_is_shared_by_times_twelve_hours_apart (mkTime 2 15) (mkTime 14 15)).
  - unfold valid_time. cbn. lia.
  - unfold valid_time. cbn. lia.
  - split; reflexivity.
Defined.

End ClipNames.

Section StoreEdges.

Import ConfigManager.

(** The text of the defaults parses back to the defaults. *)
Lemma defaults_text :
  utf8_valid (json.dumps (PDict DEFAULT_SETTINGS)) = true
  /\ json.loads (json.dumps (PDict DEFAULT_SETTINGS)) = inr (PDict DEFAULT_SETTINGS)
  /\ dict_merge DEFAULT_SETTINGS DEFAULT_SETTINGS = DEFAULT_SETTINGS.
Proof. vm_compute. repeat split. Qed.

(** Installing the defaults and writing them back, fault by fault. *)
Lemma save_defaults (w : write_fault) (s : state) :
  save (Some DEFAULT_SETTINGS) w s
  = match w with
    | Write_ok =>
        Ret true (add_log (INFO, Config_saved (config_path s))
                    (fs_write (config_path s) (json.dumps (PDict DEFAULT_SETTINGS))
                       (set_settings DEFAULT_SETTINGS s)))
    | Mkdir_fails | Open_fails =>
        Ret false (add_log (ERROR, Failed_to_save_config OSError)
                     (set_settings DEFAULT_SETTINGS s))
    | Write_fails reached =>
        Ret false (add_log (ERROR, Failed_to_save_config OSError)
                     (fs_write (config_path s)
                        (substring 0 reached (json.dumps (PDict DEFAULT_SETTINGS)))
                        (set_settings DEFAULT_SETTINGS s)))
    end.
Proof.
  rewrite save_unfold. cbn [set_settings _settings]. rewrite defaults_encode.
  destruct w; reflexivity.
Qed.

(** The recovery branch of [load]. *)
Lemma load_recovery (s : state) (b : bytes) (r : read_fault) (w : write_fault) (e : exn) :
  fs s (config_path s) = Some b ->
  (e = OSError \/ e = JSONDecodeError) ->
  open_and_load r s = Raise e s ->
  load r w s
  = bind (save (Some DEFAULT_SETTINGS) w) (fun _ => gets _settings)
         (set_settings DEFAULT_SETTINGS (add_log (WARNING, Failed_to_load_config e) s)).
Proof.
  intros Hfs He Hbody.
  cbv [load bind gets path_exists try_except lift logger modify ret].
  rewrite Hfs. cbn [negb]. rewrite Hbody.
  destruct He as [-> | ->]; cbn [existsb exn_eqb orb];
    cbn [set_settings _settings];
    destruct (save _ w _); reflexivity.
Qed.

Lemma open_and_load_fails (s : state) (b : bytes) (r : read_fault) :
  fs s (config_path s) = Some b ->
  r = Read_fails
  \/ (r = Read_ok /\ utf8_valid b = true /\ within_limits b = true
      /\ json.loads b = inl JSONDecodeError) ->
  open_and_load r s
  = Raise (match r with Read_fails => OSError | Read_ok => JSONDecodeError end) s.
Proof.
  intros Hfs Hbad. unfold open_and_load, bind, gets. rewrite Hfs.
  destruct Hbad as [->|(-> & Hvalid & _ & Hparse)]; [reflexivity|].
  rewrite Hvalid, Hparse. reflexivity.
Qed.

(** X9.  When the settings file exists but cannot be read, or decodes and is
    not JSON (a text within the limits of the interpreter: nesting far from
    the recursion limit, no run of more than 4300 digits; past them the
    decoder raises what [load] does not catch), [load] returns the defaults
    and keeps them in memory, without raising, and tries to write them back.  When that write succeeds the file
    holds the JSON text of the defaults, the log has the warning and the
    record of the save, and the next [load] reads the defaults from the file
    and changes no file; when the directory or the file cannot be created no
    file is touched. *)
Theorem load_resets_unparsable_file
  (s : state) (b : bytes) (r : read_fault) (w : write_fault) :
  fs s (config_path s) = Some b ->
  r = Read_fails
  \/ (r = Read_ok /\ utf8_valid b = true /\ within_limits b = true
      /\ json.loads b = inl JSONDecodeError) ->
  returned (load r w s) = Some DEFAULT_SETTINGS
  /\ _settings (final (load r w s)) = DEFAULT_SETTINGS
  /\ (w = Write_ok ->
      fs (final (load r w s)) (config_path s)
      = Some (json.dumps (PDict DEFAULT_SETTINGS))
      /\ log (final (load r w s))
         = log s ++ [(WARNING, Failed_to_load_config
                                 (match r with
                                  | Read_fails => OSError
                                  | Read_ok => JSONDecodeError
                                  end));
                     (INFO, Config_saved (config_path s))]
      /\ forall w',
           returned (load Read_ok w' (final (load r w s))) = Some DEFAULT_SETTINGS
           /\ fs (final (load Read_ok w' (final (load r w s))))
              = fs (final (load r w s)))
  /\ (w = Mkdir_fails \/ w = Open_fails -> fs (final (load r w s)) = fs s).
Proof.
  intros Hfs Hbad.
  pose proof (open_and_load_fails s b r Hfs Hbad) as Hbody.
  rewrite (load_recovery s b r w
             (match r with Read_fails => OSError | Read_ok => JSONDecodeError end) Hfs);
    [|destruct r; [now right|now left]|exact Hbody].
  unfold bind. rewrite save_defaults.
  destruct w; cbn [returned final gets _settings add_log set_settings fs_write set_fs fs
                   config_path log].
  - split; [reflexivity|]. split; [reflexivity|]. split.
    + intros _. split; [apply path_eqb_refl_some|]. split; [now rewrite <- app_assoc|].
      intros w'.
      destruct defaults_text as (Hv & Hp & Hm).
      set (s1 := add_log _ _).
      assert (Hfs1 : fs s1 (config_path s1) = Some (json.dumps (PDict DEFAULT_SETTINGS))).
      { unfold s1. cbn. apply path_eqb_refl_some. }
      rewrite (load_parses s1 _ DEFAULT_SETTINGS w' Hfs1 Hv Hp), Hm.
      split; reflexivity.
    + intros [H|H]; discriminate.
  - split; [reflexivity|]. split; [reflexivity|]. split; [discriminate|reflexivity].
  - split; [reflexivity|]. split; [reflexivity|]. split; [discriminate|reflexivity].
  - split; [reflexivity|]. split; [reflexivity|]. split; [discriminate|].
    intros [H|H]; discriminate.
Qed.

Lemma load_resets_unparsable_file_witness :
  returned (load Read_ok Write_ok (with_settings_file "{not json" demo_state))
  = Some DEFAULT_SETTINGS
  /\ fs (final (load Read_ok Write_ok (with_settings_file "{not json" demo_state)))
        ["data"; "settings.json"]
     = Some (json.dumps (PDict DEFAULT_SETTINGS)).
Proof.
  destruct (load_resets_unparsable_file (with_settings_file "{not json" demo_state)
              "{not json" Read_ok Write_ok eq_refl)
    as (H1 & _ & H2 & _).
  - right. split; [reflexivity|]. repeat split; vm_compute; reflexivity.
  - split; [exact H1|]. exact (proj1 (H2 eq_refl)).
Defined.

(** X10.  A settings file that is valid JSON but not an object (an array, a
    string, a number, true, false or null), within the limits of the
    interpreter (nesting far from the recursion limit, no run of more than
    4300 digits), makes [load] raise [TypeError]:
    merging it into the defaults fails, outside what the [except] clause
    catches; settings, files and log are as before. *)
Theorem load_raises_on_json_that_is_not_an_object
  (s : state) (b : bytes) (v : pyval) (w : write_fault) :
  fs s (config_path s) = Some b ->
  utf8_valid b = true ->
  within_limits b = true ->
  json.loads b = inr v ->
  is_dict v = false ->
  load Read_ok w s = Raise TypeError s.
Proof.
  intros Hfs Hvalid _ Hparse Hv.
  cbv [load bind gets path_exists try_except lift logger modify ret open_and_load raise].
  rewrite Hfs. cbv beta iota delta [negb]. rewrite Hfs, Hvalid, Hparse.
  destruct v; try discriminate Hv; reflexivity.
Qed.

Lemma load_raises_on_json_that_is_not_an_object_witness :
  load Read_ok Write_ok (with_settings_file "[15, 30, 60]" demo_state)
  = Raise TypeError (with_settings_file "[15, 30, 60]" demo_state)
  /\ load Read_ok Write_ok (with_settings_file "null" demo_state)
     = Raise TypeError (with_settings_file "null" demo_state).
Proof.
  split.
  - apply (load_raises_on_json_that_is_not_an_object
             (with_settings_file "[15, 30, 60]" demo_state) "[15, 30, 60]"
             (PList [PInt 15; PInt 30; PInt 60]) Write_ok);
      vm_compute; reflexivity.
  - apply (load_raises_on_json_that_is_not_an_object
             (with_settings_file "null" demo_state) "null" PNone Write_ok);
      vm_compute; reflexivity.
Defined.

End StoreEdges.

Section StoreLife.

Import ConfigManager.

Lemma init_unfold (p : path) (r : read_fault) (w : write_fault) (s : state) :
  __init__ p r w s = bind (load r w) (fun _ => ret tt) (fresh_manager p s).
Proof. reflexivity. Qed.

(** [load] when there is no settings file. *)
Lemma load_missing (s : state) (r : read_fault) (w : write_fault) :
  fs s (config_path s) = None ->
  load r w s
  = bind (save (Some DEFAULT_SETTINGS) w) (fun _ => gets _settings)
         (set_settings DEFAULT_SETTINGS
            (add_log (INFO, Config_file_not_found (config_path s)) s)).
Proof.
  intros Hfs.
  cbv [load bind gets path_exists logger modify ret].
  rewrite Hfs. cbn [negb set_settings _settings].
  destruct (save _ w _); reflexivity.
Qed.

(** The first construction of a [ConfigManager], fault by fault. *)
Lemma init_missing (s : state) (p : path) (r : read_fault) (w : write_fault) :
  fs s p = None ->
  __init__ p r w s
  = Ret tt
      (let s0 := set_settings DEFAULT_SETTINGS
                   (add_log (INFO, Config_file_not_found p) (fresh_manager p s)) in
       match w with
       | Write_ok =>
           add_log (INFO, Config_saved p)
             (fs_write p (json.dumps (PDict DEFAULT_SETTINGS)) s0)
       | Mkdir_fails | Open_fails =>
           add_log (ERROR, Failed_to_save_config OSError) s0
       | Write_fails reached =>
           add_log (ERROR, Failed_to_save_config OSError)
             (fs_write p (substring 0 reached (json.dumps (PDict DEFAULT_SETTINGS))) s0)
       end).
Proof.
  intros Hfs. rewrite init_unfold. unfold bind at 1.
  rewrite (load_missing (fresh_manager p s) r w Hfs).
  unfold bind. rewrite save_defaults.
  destruct w; reflexivity.
Qed.

(** X11.  First run.  Constructing a [ConfigManager] on a path where no file
    exists returns with the defaults in memory, whatever happens to the
    write.  When the write succeeds the file holds the JSON text of the
    defaults, and a manager constructed later on the same path starts with
    the defaults again and writes nothing; when the directory or the file
    cannot be created the file system is as before. *)
Theorem first_run_creates_the_defaults_file
  (s : state) (p : path) (r : read_fault) (w : write_fault) :
  fs s p = None ->
  returned (__init__ p r w s) = Some tt
  /\ _settings (final (__init__ p r w s)) = DEFAULT_SETTINGS
  /\ (w = Write_ok ->
      fs (final (__init__ p r w s)) p = Some (json.dumps (PDict DEFAULT_SETTINGS))
      /\ forall w',
           returned (__init__ p Read_ok w' (final (__init__ p r w s))) = Some tt
           /\ _settings (final (__init__ p Read_ok w' (final (__init__ p r w s))))
              = DEFAULT_SETTINGS
           /\ fs (final (__init__ p Read_ok w' (final (__init__ p r w s))))
              = fs (final (__init__ p r w s)))
  /\ (w = Mkdir_fails \/ w = Open_fails -> fs (final (__init__ p r w s)) = fs s).
Proof.
  intros Hfs. rewrite (init_missing s p r w Hfs). cbn [returned final].
  split; [reflexivity|]. split; [now destruct w|]. split.
  - intros ->. split; [cbn; apply path_eqb_refl_some|].
    intros w'. rewrite init_unfold.
    destruct defaults_text as (Hv & Hp & Hm).
    set (s1 := fresh_manager p _).
    assert (Hfs1 : fs s1 (config_path s1) = Some (json.dumps (PDict DEFAULT_SETTINGS))).
    { unfold s1. cbn. apply path_eqb_refl_some. }
    unfold bind. rewrite (load_parses s1 _ DEFAULT_SETTINGS w' Hfs1 Hv Hp), Hm.
    repeat split.
  - intros [-> | ->]; reflexivity.
Qed.

Lemma first_run_creates_the_defaults_file_witness :
  _settings (final (__init__ ["data"; "settings.json"] Read_ok Write_ok demo_state))
  = DEFAULT_SETTINGS
  /\ fs (final (__init__ ["data"; "settings.json"] Read_ok Write_ok demo_state))
        ["data"; "settings.json"]
     = Some (json.dumps (PDict DEFAULT_SETTINGS)).
Proof.
  destruct (first_run_creates_the_defaults_file demo_state ["data"; "settings.json"]
              Read_ok Write_ok eq_refl) as (_ & H1 & H2 & _).
  split; [exact H1|]. exact (proj1 (H2 eq_refl)).
Defined.

(** X12.  [load] replaces what is in memory by the file.  When the settings
    file parses as an object, [load] returns the defaults overridden by the
    file whatever the settings in memory were: a value [set] without
    [auto_save] is gone after [load].  [load] changes no file, and loading
    twice gives what loading once gives. *)
Theorem load_replaces_memory_with_the_file
  (s : state) (b : bytes) (d : dict) (w : write_fault) :
  fs s (config_path s) = Some b ->
  utf8_valid b = true ->
  json.loads b = inr (PDict d) ->
  fs (final (load Read_ok w s)) = fs s
  /\ (forall memory,
        returned (load Read_ok w (set_settings memory s))
        = Some (dict_merge DEFAULT_SETTINGS d))
  /\ (forall key value,
        _settings (final (bind (set key value false w) (fun _ => load Read_ok w) s))
        = dict_merge DEFAULT_SETTINGS d)
  /\ returned (load Read_ok w (final (load Read_ok w s)))
     = returned (load Read_ok w s).
Proof.
  intros Hfs Hvalid Hparse.
  split; [|split; [|split]].
  - now rewrite (load_parses s b d w Hfs Hvalid Hparse).
  - intros memory. now rewrite (load_parses (set_settings memory s) b d w Hfs Hvalid Hparse).
  - intros key value.
    change (bind (set key value false w) (fun _ => load Read_ok w) s)
      with (load Read_ok w (set_settings (dict_setitem (_settings s) key value) s)).
    now rewrite (load_parses (set_settings _ s) b d w Hfs Hvalid Hparse).
  - rewrite (load_parses s b d w Hfs Hvalid Hparse). cbn [final returned].
    now rewrite (load_parses (add_log _ (set_settings _ s)) b d w Hfs Hvalid Hparse).
Qed.

Lemma load_replaces_memory_with_the_file_witness :
  _settings (final (bind (set "interval" (PInt 15) false Write_ok)
                         (fun _ => load Read_ok Write_ok)
                         (with_settings_file (json.dumps (PDict DEFAULT_SETTINGS))
                                             demo_state)))
  = DEFAULT_SETTINGS.
Proof.
  destruct defaults_text as (Hv & Hp & Hm).
  destruct (load_replaces_memory_with_the_file
              (with_settings_file (json.dumps (PDict DEFAULT_SETTINGS)) demo_state)
              (json.dumps (PDict DEFAULT_SETTINGS)) DEFAULT_SETTINGS Write_ok
              eq_refl Hv Hp) as (_ & _ & H & _).
  rewrite H. exact Hm.
Defined.

(** What [set] does to the values [get] returns. *)
Lemma set_then_get
  (s : state) (key : string) (value : pyval) (auto_save : bool) (w : write_fault) :
  (forall other default,
     other <> key ->
     dict_get (_settings (final (set key value auto_save w s))) other default
     = dict_get (_settings s) other default)
  /\ (forall default,
        dict_get (_settings (final (set key value auto_save w s))) key default = value).
Proof.
  rewrite set_updates_memory. split.
  - intros other default Hne. unfold dict_get. rewrite dict_lookup_setitem.
    destruct (String.eqb_spec other key); [contradiction|reflexivity].
  - intros default. unfold dict_get. now rewrite dict_lookup_setitem_same.
Qed.

(** X13.  [set] changes one key.  Whether it saves or not, and whatever
    happens to the write, every other key has the value it had and the keys
    keep their order, a new key coming last; without [auto_save] nothing else
    happens: no file is written, nothing is logged, nothing can be raised. *)
Theorem set_changes_one_key
  (s : state) (key : string) (value : pyval) (auto_save : bool) (w : write_fault) :
  (forall other default,
     other <> key ->
     dict_get (_settings (final (set key value auto_save w s))) other default
     = dict_get (_settings s) other default)
  /\ map fst (_settings (final (set key value auto_save w s)))
     = (if existsb (String.eqb key) (map fst (_settings s))
        then map fst (_settings s)
        else map fst (_settings s) ++ [key])
  /\ (auto_save = false ->
      set key value auto_save w s
      = Ret tt (set_settings (dict_setitem (_settings s) key value) s)).
Proof.
  split; [|split].
  - exact (proj1 (set_then_get s key value auto_save w)).
  - rewrite set_updates_memory. apply dict_setitem_keys.
  - intros ->. reflexivity.
Qed.

Lemma set_changes_one_key_witness :
  dict_get (_settings (final (set "language" (PStr "bn") true Open_fails demo_state)))
           "interval" PNone
  = PInt 60.
Proof.
  destruct (set_changes_one_key demo_state "language" (PStr "bn") true Open_fails)
    as (H & _).
  rewrite H; [reflexivity|discriminate].
Defined.

End StoreLife.

Section StoreRestart.

Import ConfigManager.




(* ---- text the codec cannot write ---- *)

Lemma write_chunks_stops (chunks : list string) (c : string) :
  In c chunks -> utf8_valid c = false -> snd (write_chunks chunks) = false.
Proof.
  induction chunks as [|c0 cs IH]; intros Hin Hc; [contradiction|].
  cbn [write_chunks]. destruct (utf8_valid c0) eqn:E0; [|reflexivity].
  destruct Hin as [->|Hin]; [congruence|].
  specialize (IH Hin Hc). destruct (write_chunks cs) as [t ok]. exact IH.
Qed.

Lemma iterencode_has_string (d : dict) (k v : string) (level : nat) :
  In (k, PStr v) d -> In (json.encode_basestring v) (json.iterencode level (PDict d)).
Proof.
  intros Hin. destruct d as [|kv d']; [contradiction|].
  cbn [json.iterencode].
  set (items := fix items (first : bool) (d : list (string * pyval)) {struct d}
                  : list string := _).
  assert (H : forall d0 first, In (k, PStr v) d0 ->
                               In (json.encode_basestring v) (items first d0)).
  { induction d0 as [|[k0 x0] d0 IH]; intros first H0; [contradiction|].
    cbn [items]. fold items.
    apply in_or_app. right. apply in_or_app. right. apply in_or_app.
    destruct H0 as [H0|H0].
    - inversion H0; subst. left. cbn. now left.
    - right. now apply IH. }
  apply in_or_app. right. apply in_or_app. left.
  change (In (json.encode_basestring v) (items true (kv :: d'))).
  apply H. exact Hin.
Qed.

Lemma in_dict_setitem_other (d : dict) (k key : string) (x value : pyval) :
  key <> k -> In (k, x) d -> In (k, x) (dict_setitem d key value).
Proof.
  intros Hne. induction d as [|[k0 x0] d IH]; intros Hin; [contradiction|].
  cbn [dict_setitem]. destruct (String.eqb_spec key k0) as [->|Hk].
  - destruct Hin as [Hin|Hin]; [inversion Hin; subst; contradiction|now right].
  - destruct Hin as [Hin|Hin]; [now left|right; now apply IH].
Qed.

(** X15.  [save] can raise.  When a string among the values of the settings
    is text the utf-8 codec cannot encode (a lone surrogate, which
    [json.load] accepts from an escape sequence), [save] raises
    [UnicodeEncodeError] although the operating system fails nothing: it
    neither returns [False] nor logs; and [set] with [auto_save] on any other
    key raises it too, after it changed the value in memory. *)
Theorem save_raises_on_text_utf8_cannot_encode
  (s : state) (settings : option dict) (k v : string) :
  In (k, PStr v) (match settings with Some d => d | None => _settings s end) ->
  utf8_valid (json.encode_basestring v) = false ->
  (exists text,
     save settings Write_ok s
     = Raise UnicodeEncodeError
         (fs_write (config_path s) text
            (match settings with Some d => set_settings d s | None => s end)))
  /\ (forall key value,
        key <> k ->
        settings = None ->
        exists s', set key value true Write_ok s = Raise UnicodeEncodeError s'
                   /\ _settings s' = dict_setitem (_settings s) key value).
Proof.
  intros Hin Hbad. split.
  - rewrite save_unfold.
    rewrite (write_chunks_stops _ (json.encode_basestring v)); [| |exact Hbad].
    + eexists. reflexivity.
    + apply iterencode_has_string with (k := k). now destruct settings.
  - intros key value Hne ->. unfold set, bind, modify.
    rewrite save_unfold. cbn [set_settings _settings].
    rewrite (write_chunks_stops _ (json.encode_basestring v)); [| |exact Hbad].
    + eexists. split; reflexivity.
    + apply iterencode_has_string with (k := k). now apply in_dict_setitem_other.
Qed.

Lemma save_raises_on_text_utf8_cannot_encode_witness :
  json.loads (String "{" (String json.quote
                ("language" ++ String json.quote
                   (": " ++ String json.quote
                      (String json.backslash ("ud800" ++ String json.quote "}"))))))%string
  = inr (PDict [("language", PStr lone_surrogate)])
  /\ returned (save None Write_ok
                 (set_settings [("language", PStr lone_surrogate)] demo_state))
     = None.
Proof.
  split; [vm_compute; reflexivity|].
  destruct (save_raises_on_text_utf8_cannot_encode
              (set_settings [("language", PStr lone_surrogate)] demo_state) None
              "language" lone_surrogate) as ((text & H) & _).
  - now left.
  - vm_compute. reflexivity.
  - rewrite H. reflexivity.
Defined.

End StoreRestart.

Section Startup.

Import TimeAnnouncer.

(** X16.  First launch.  With no settings file, once the settings store and
    the engine are constructed in the order of [VoiceClockApp.__init__], the
    initial check at a valid time returns [False], so it runs once, and hands
    the player the English clip of the time, when a file of it exists,
    exactly when the minute is 0, whatever happens to the write of the
    defaults; a scheduler tick in the same minute plays nothing more. *)
Theorem first_launch_announces_on_the_hour
  (s : state) (p assets : path) (r : read_fault) (w : write_fault) (now : datetime) :
  fs s p = None ->
  valid_time now ->
  let boot := bind (ConfigManager.__init__ p r w) (fun _ => __init__ assets) in
  returned (boot s) = Some tt
  /\ returned (VoiceClockApp._initial_check now (final (boot s))) = Some false
  /\ played (final (VoiceClockApp._initial_check now (final (boot s))))
     = played s ++ (if minute now =? 0
                    then clip_list (clip_for (final (boot s)) "en" (hour now) (minute now))
                    else [])
  /\ played (final (VoiceClockApp._on_scheduler_tick now
                      (final (VoiceClockApp._initial_check now (final (boot s))))))
     = played (final (VoiceClockApp._initial_check now (final (boot s)))).
Proof.
  intros Hfs Hvalid boot.
  assert (Hboot : exists s0, boot s = Ret tt s0
                             /\ _settings s0 = ConfigManager.DEFAULT_SETTINGS
                             /\ debounce s0 = (-1, -1) /\ played s0 = played s).
  { unfold boot, bind. rewrite (init_missing s p r w Hfs).
    eexists. split; [reflexivity|]. destruct w; repeat split. }
  destruct Hboot as (s0 & -> & Hset & Hdeb & Hplayed). cbn [returned final].
  assert (Hmuted : truthy (muted_setting s0) = false)
    by (unfold muted_setting; now rewrite Hset).
  assert (Hint : interval_setting s0 = PInt 60)
    by (unfold interval_setting; now rewrite Hset).
  assert (Hlang : language_setting s0 = PStr "en")
    by (unfold language_setting; now rewrite Hset).
  assert (Hfresh : debounced s0 now = false).
  { apply debounce_differs. rewrite Hdeb. unfold time_pair, valid_time in *.
    intros H. inversion H. lia. }
  destruct (initial_check_after_tick s0 now
              (tick_returns_true s0 now 60 "en" Hint ltac:(lia) Hlang eq_refl))
    as (Hfalse & Hfinal).
  assert (Hmod : (minute now mod 60 =? 0) = (minute now =? 0)).
  { destruct Hvalid as [_ Hm]. rewrite Z.mod_small by lia. reflexivity. }
  split; [reflexivity|]. split; [|split].
  - exact Hfalse.
  - rewrite Hfinal, tick_played, Hplayed. f_equal.
    unfold tick_plays. rewrite Hmuted, Hint, Hlang, Hfresh. cbn [mod_is_zero Z.eqb].
    rewrite Hmod. now destruct (minute now =? 0).
  - unfold VoiceClockApp._on_scheduler_tick. rewrite Hfinal.
    rewrite tick_played.
    destruct (tick_debounce s0 now) as [[Hd Hnone]|Hd].
    + destruct (tick_frame s0 now) as (F1 & F2 & F3).
      rewrite (tick_plays_congr s0 _ now F1 F2 F3).
      * rewrite Hnone. apply app_nil_r.
      * unfold debounced. unfold debounce in Hd. now inversion Hd.
    + destruct (tick_debounced _ now Hd) as [-> _]. apply app_nil_r.
Qed.

Lemma first_launch_announces_on_the_hour_witness :
  played (final (VoiceClockApp._initial_check (mkTime 14 0)
                   (final (bind (ConfigManager.__init__ ["data"; "settings.json"]
                                                        Read_ok Write_ok)
                                (fun _ => __init__ ["assets"]) demo_state))))
  = [["assets"; "audio"; "en"; "02_00.ogg"]].
Proof.
  pose proof (first_launch_announces_on_the_hour demo_state ["data"; "settings.json"]
                ["assets"] Read_ok Write_ok (mkTime 14 0) eq_refl) as H.
  cbv zeta in H.
  destruct H as (_ & _ & H & _).
  - unfold valid_time. cbn. lia.
  - rewrite H. vm_compute. reflexivity.
Defined.

End Startup.

Section Checklist.

Import TimeAnnouncer.

Lemma loop_total {A B} (xs : list A) (f : A -> list B) :
  loop xs (fun x => inr (f x)) = inr (flat_map f xs).
Proof.
  induction xs as [|x xs IH]; [reflexivity|].
  cbn [loop flat_map]. now rewrite IH.
Qed.

Lemma loop_ext {A B} (xs : list A) (f g : A -> pyexn + list B) :
  (forall x, In x xs -> f x = g x) -> loop xs f = loop xs g.
Proof.
  induction xs as [|x xs IH]; intros H; [reflexivity|].
  cbn [loop]. rewrite (H x (or_introl eq_refl)), IH; [reflexivity|].
  intros y Hy. apply H. now right.
Qed.

Lemma flat_map_singleton {A B} (f : A -> B) (xs : list A) :
  flat_map (fun x => [f x]) xs = map f xs.
Proof. induction xs as [|x xs IH]; [reflexivity|]. cbn. now rewrite IH. Qed.

Lemma range_minutes (interval : Z) :
  0 < interval -> range 0 60 interval = inr (minutes_of interval).
Proof.
  intros Hi. unfold range, minutes_of.
  destruct (Z.eqb_spec interval 0); [lia|].
  destruct (Z.ltb_spec 0 interval); [|lia]. reflexivity.
Qed.

Lemma in_minutes_of (interval m : Z) :
  0 < interval ->
  (In m (minutes_of interval) <-> 0 <= m < 60 /\ m mod interval = 0).
Proof.
  intros Hi. unfold minutes_of. rewrite in_map_iff.
  assert (Hq : 0 <= 59 / interval) by (apply Z.div_pos; lia).
  split.
  - intros (k & <- & Hk). apply in_seq in Hk.
    assert (Hk' : Z.of_nat k <= 59 / interval) by lia.
    assert (Z.of_nat k * interval <= 59).
    { pose proof (Z.mul_div_le 59 interval Hi). nia. }
    split; [lia|]. rewrite Z.add_0_l. apply Z.mod_mul. lia.
  - intros [Hm Hmod]. exists (Z.to_nat (m / interval)).
    assert (Hd : 0 <= m / interval) by (apply Z.div_pos; lia).
    split.
    + rewrite Z2Nat.id by lia. rewrite Z.add_0_l.
      pose proof (Z.div_mod m interval ltac:(lia)). lia.
    + apply in_seq. split; [lia|].
      assert (m / interval <= 59 / interval) by (apply Z.div_le_mono; lia). lia.
Qed.

Lemma minutes_of_NoDup (interval : Z) : 0 < interval -> NoDup (minutes_of interval).
Proof.
  intros Hi. unfold minutes_of.
  apply NoDup_map_NoDup_ForallPairs; [|apply seq_NoDup].
  intros a b _ _ H. nia.
Qed.

Lemma generate_filenames_pos (interval : Z) :
  0 < interval ->
  file_namer.generate_filenames interval
  = inr (flat_map (fun hour => map (checklist_name hour) (minutes_of interval))
                  (map Z.of_nat (seq 1 12))).
Proof.
  intros Hi. unfold file_namer.generate_filenames.
  change (range 1 13 1) with (@inr pyexn _ (map Z.of_nat (seq 1 12))).
  cbn [for_each]. rewrite (range_minutes interval Hi). cbn [for_each].
  rewrite <- loop_total. apply loop_ext. intros hour _.
  rewrite loop_total. now rewrite flat_map_singleton.
Qed.

Lemma checklist_name_inj (h m h' m' : Z) :
  0 <= h < 100 -> 0 <= m < 100 -> 0 <= h' < 100 -> 0 <= m' < 100 ->
  checklist_name h m = checklist_name h' m' -> h = h' /\ m = m'.
Proof.
  intros Hh Hm Hh' Hm' H. unfold checklist_name in H.
  rewrite !format_02d_two_digits in H by assumption.
  split; apply two_digits_inj; try assumption;
    unfold two_digits in *; cbn [String.append] in H; congruence.
Qed.

Lemma checklist_name_engine (h m : Z) :
  1 <= h <= 12 -> checklist_name h m = filename_of h m.
Proof.
  intros Hh. unfold checklist_name, filename_of, hour_12_of.
  destruct (Z.eq_dec h 12) as [->|Hne]; [reflexivity|].
  rewrite Z.mod_small by lia. destruct (Z.eqb_spec h 0); [lia|reflexivity].
Qed.

Lemma filename_of_hour_12 (h m : Z) : filename_of (hour_12_of h) m = filename_of h m.
Proof.
  unfold filename_of. f_equal. f_equal.
  unfold hour_12_of. pose proof (Z.mod_pos_bound h 12 ltac:(lia)).
  destruct (Z.eqb_spec (h mod 12) 0) as [E|E]; [reflexivity|].
  rewrite Z.mod_mod by lia. destruct (Z.eqb_spec (h mod 12) 0); [lia|reflexivity].
Qed.

Lemma in_hours (h : Z) : In h (map Z.of_nat (seq 1 12)) <-> 1 <= h <= 12.
Proof.
  rewrite in_map_iff. split.
  - intros (k & <- & Hk). apply in_seq in Hk. lia.
  - intros Hh. exists (Z.to_nat h). split; [lia|]. apply in_seq. lia.
Qed.

Lemma NoDup_flat_map_map {A B C} (f : A -> B -> C) (xs : list A) (ys : list B) :
  NoDup xs -> NoDup ys ->
  (forall x y x' y', In x xs -> In y ys -> In x' xs -> In y' ys ->
                     f x y = f x' y' -> x = x' /\ y = y') ->
  NoDup (flat_map (fun x => map (f x) ys) xs).
Proof.
  intros Hxs Hys Hinj. induction Hxs as [|x xs Hx Hxs IH]; [constructor|].
  cbn [flat_map]. apply NoDup_app.
  - apply NoDup_map_NoDup_ForallPairs; [|exact Hys].
    intros y y' Hy Hy' E.
    now destruct (Hinj x y x y' (or_introl eq_refl) Hy (or_introl eq_refl) Hy' E).
  - apply IH. intros a b a' b' Ha Hb Ha' Hb'. apply Hinj; [now right|exact Hb|now right|exact Hb'].
  - intros c Hc Hc'. apply in_map_iff in Hc. destruct Hc as (y & <- & Hy).
    apply in_flat_map in Hc'. destruct Hc' as (x' & Hx' & Hc').
    apply in_map_iff in Hc'. destruct Hc' as (y' & E & Hy').
    destruct (Hinj x' y' x y (or_intror Hx') Hy' (or_introl eq_refl) Hy E) as [-> _].
    contradiction.
Qed.

(** X17.  The size of the checklist.  For a positive interval
    [generate_filenames] returns 12 names for each multiple of the interval
    below 60, no name twice: 48 names for the interval 15 it is called with.
    For a negative interval it returns no name; for the interval 0 it raises
    [ValueError]. *)
Theorem checklist_size_and_edges (interval : Z) :
  (0 < interval ->
   exists names,
     file_namer.generate_filenames interval = inr names
     /\ List.length names = (12 * Z.to_nat (1 + 59 / interval))%nat
     /\ NoDup names)
  /\ (interval < 0 -> file_namer.generate_filenames interval = inr [])
  /\ (interval = 0 -> file_namer.generate_filenames interval = inl ValueError).
Proof.
  split; [|split].
  - intros Hi. eexists. split; [exact (generate_filenames_pos interval Hi)|]. split.
    + rewrite length_flat_map.
      assert (Hlen : forall hour, List.length (map (checklist_name hour) (minutes_of interval))
                                  = Z.to_nat (1 + 59 / interval)).
      { intros hour. unfold minutes_of. now rewrite !length_map, length_seq. }
      rewrite (map_ext _ (fun _ => Z.to_nat (1 + 59 / interval)))
        by (intros a; apply Hlen).
      generalize (Z.to_nat (1 + 59 / interval)). intros n. cbn. lia.
    + apply NoDup_flat_map_map.
      * apply NoDup_map_NoDup_ForallPairs; [|apply seq_NoDup]. intros a b _ _ H. lia.
      * now apply minutes_of_NoDup.
      * intros h m h' m' Hh Hm Hh' Hm' E.
        apply in_hours in Hh, Hh'. apply (in_minutes_of interval) in Hm, Hm'; try lia.
        apply checklist_name_inj in E; lia.
  - intros Hi. unfold file_namer.generate_filenames, range.
    destruct (Z.eqb_spec interval 0); [lia|].
    destruct (Z.ltb_spec 0 interval); [lia|]. reflexivity.
  - intros ->. reflexivity.
Qed.

Lemma checklist_size_and_edges_witness :
  exists names, file_namer.generate_filenames 15 = inr names
                /\ List.length names = 48%nat.
Proof.
  destruct (checklist_size_and_edges 15) as (H & _).
  destruct (H ltac:(lia)) as (names & Hn & Hl & _).
  exists names. split; [exact Hn|exact Hl].
Defined.

(** X18.  The checklist names exactly the files the engine looks up first.
    For a positive interval, a name is in the list of [generate_filenames]
    exactly when it is the primary file name [_play_time_audio] builds at some
    valid time whose minute is a multiple of the interval. *)
Theorem checklist_names_what_the_engine_resolves (interval : Z) (name : string) :
  0 < interval ->
  exists names,
    file_namer.generate_filenames interval = inr names
    /\ (In name names
        <-> exists now,
              valid_time now /\ minute now mod interval = 0
              /\ name = filename_of (hour now) (minute now)).
Proof.
  intros Hi. eexists. split; [exact (generate_filenames_pos interval Hi)|].
  rewrite in_flat_map. split.
  - intros (h & Hh & Hin). apply in_map_iff in Hin. destruct Hin as (m & <- & Hm).
    apply in_hours in Hh. apply (in_minutes_of interval m Hi) in Hm.
    exists (mkTime (h mod 12) m). cbn [hour minute]. split; [|split].
    + unfold valid_time. cbn [hour minute].
      pose proof (Z.mod_pos_bound h 12 ltac:(lia)). lia.
    + apply Hm.
    + rewrite (checklist_name_engine h m Hh). unfold filename_of. f_equal. f_equal.
      unfold hour_12_of. rewrite Z.mod_mod by lia. reflexivity.
  - intros (now & [Hh Hm] & Hmod & ->).
    exists (hour_12_of (hour now)). split.
    + apply in_hours. apply hour_12_of_range.
    + apply in_map_iff. exists (minute now). split.
      * rewrite checklist_name_engine by apply hour_12_of_range.
        apply filename_of_hour_12.
      * apply in_minutes_of; [exact Hi|]. split; [lia|exact Hmod].
Qed.

Lemma checklist_names_what_the_engine_resolves_witness :
  exists names, file_namer.generate_filenames 15 = inr names /\ In "02_30.ogg" names.
Proof.
  destruct (checklist_names_what_the_engine_resolves 15 "02_30.ogg" ltac:(lia))
    as (names & Hn & Hin).
  exists names. split; [exact Hn|]. apply Hin.
  exists (mkTime 14 30). split; [|split; reflexivity].
  unfold valid_time. cbn. lia.
Defined.

End Checklist.

Section ClipTexts.

Import TimeAnnouncer.
Import generate_audio.

(** Case analysis on the 12-hour value of an hour. *)
Lemma hour_12_cases (h : Z) :
  let x := if h mod 12 =? 0 then 12 else h mod 12 in
  x = 1 \/ x = 2 \/ x = 3 \/ x = 4 \/ x = 5 \/ x = 6
  \/ x = 7 \/ x = 8 \/ x = 9 \/ x = 10 \/ x = 11 \/ x = 12.
Proof.
  cbv zeta. pose proof (Z.mod_pos_bound h 12 ltac:(lia)).
  destruct (Z.eqb_spec (h mod 12) 0); lia.
Qed.

Ltac hour_12_split h :=
  let H := fresh "Hx" in
  pose proof (hour_12_cases h) as H; cbv zeta in H;
  repeat (destruct H as [H|H]); rewrite H.

Lemma in_quarter_hours (m : Z) :
  In m quarter_hours <-> m = 0 \/ m = 15 \/ m = 30 \/ m = 45.
Proof. unfold quarter_hours. cbn [In]. intuition. Qed.

Lemma english_text_defined (h m : Z) :
  In m quarter_hours -> exists text, get_english_text h m = inr text.
Proof.
  intros Hm. apply in_quarter_hours in Hm. unfold get_english_text.
  hour_12_split h; cbn [getitem ENGLISH_HOURS Z.eqb Pos.eqb];
    destruct Hm as [-> | [-> | [-> | ->]]]; cbn; eexists; reflexivity.
Qed.

Lemma english_text_undefined (h m : Z) :
  ~ In m quarter_hours -> get_english_text h m = inl KeyError.
Proof.
  intros Hm. rewrite in_quarter_hours in Hm. unfold get_english_text.
  assert (Hg : getitem ENGLISH_MINUTES m = inl KeyError).
  { unfold ENGLISH_MINUTES. cbn [getitem].
    destruct (Z.eqb_spec m 0); [lia|]. destruct (Z.eqb_spec m 15); [lia|].
    destruct (Z.eqb_spec m 30); [lia|]. destruct (Z.eqb_spec m 45); [lia|]. reflexivity. }
  rewrite Hg.
  destruct (Z.eqb_spec m 0); [lia|].
  hour_12_split h; reflexivity.
Qed.

Lemma bangla_text_defined (h m : Z) :
  In m quarter_hours -> exists text, get_bangla_text h m = inr text.
Proof.
  intros Hm. apply in_quarter_hours in Hm. unfold get_bangla_text.
  hour_12_split h; cbn [getitem BANGLA_HOURS Z.eqb Pos.eqb];
    destruct Hm as [-> | [-> | [-> | ->]]]; cbn [getitem BANGLA_MINUTES Z.eqb Pos.eqb];
    eexists; reflexivity.
Qed.

Lemma bangla_text_undefined (h m : Z) :
  ~ In m quarter_hours -> get_bangla_text h m = inl KeyError.
Proof.
  intros Hm. rewrite in_quarter_hours in Hm. unfold get_bangla_text.
  assert (Hg : getitem BANGLA_MINUTES m = inl KeyError).
  { unfold BANGLA_MINUTES. cbn [getitem].
    destruct (Z.eqb_spec m 0); [lia|]. destruct (Z.eqb_spec m 15); [lia|].
    destruct (Z.eqb_spec m 30); [lia|]. destruct (Z.eqb_spec m 45); [lia|]. reflexivity. }
  rewrite Hg.
  destruct (Z.eqb_spec m 0); [lia|].
  hour_12_split h; reflexivity.
Qed.

(** X19.  The texts of the clips exist on the quarter hours only.
    [get_english_text] and [get_bangla_text] return a text exactly when the
    minute is 0, 15, 30 or 45, and raise [KeyError] for every other minute;
    the hour may be any integer. *)
Theorem clip_text_needs_a_quarter_hour (hour_24 minute : Z) :
  ((exists text, get_english_text hour_24 minute = inr text) <-> In minute quarter_hours)
  /\ ((exists text, get_bangla_text hour_24 minute = inr text) <-> In minute quarter_hours)
  /\ (~ In minute quarter_hours ->
      get_english_text hour_24 minute = inl KeyError
      /\ get_bangla_text hour_24 minute = inl KeyError).
Proof.
  assert (Hdec : In minute quarter_hours \/ ~ In minute quarter_hours).
  { rewrite in_quarter_hours. lia. }
  split; [|split].
  - split; [|apply english_text_defined].
    intros [text H]. destruct Hdec as [Hd|Hd]; [exact Hd|].
    rewrite (english_text_undefined _ _ Hd) in H. discriminate.
  - split; [|apply bangla_text_defined].
    intros [text H]. destruct Hdec as [Hd|Hd]; [exact Hd|].
    rewrite (bangla_text_undefined _ _ Hd) in H. discriminate.
  - intros Hn. split; [now apply english_text_undefined|now apply bangla_text_undefined].
Qed.

Lemma clip_text_needs_a_quarter_hour_witness :
  get_english_text 14 20 = inl KeyError /\ get_bangla_text (-1) 7 = inl KeyError.
Proof.
  split.
  - apply (clip_text_needs_a_quarter_hour 14 20). unfold quarter_hours. cbn [In]. lia.
  - apply (clip_text_needs_a_quarter_hour (-1) 7). unfold quarter_hours. cbn [In]. lia.
Defined.

(** X20.  The two Bangla text functions agree: [get_bangla_text] of
    [test_bangla_voice.py] and [get_bangla_text] of [generate_audio.py]
    return the same for every hour and minute, the same exception included.
    The [replace] of the generator changes nothing: it leaves each hour word
    as it is. *)
Theorem bangla_test_script_agrees_with_generator (hour_24 minute : Z) :
  test_bangla_voice.get_bangla_text hour_24 minute = get_bangla_text hour_24 minute
  /\ (forall hour_12 hour_word,
        getitem BANGLA_HOURS hour_12 = inr hour_word ->
        replace hour_word "টা" "টা" = hour_word).
Proof.
  split.
  - unfold test_bangla_voice.get_bangla_text, get_bangla_text.
    hour_12_split hour_24; cbn [getitem BANGLA_HOURS Z.eqb Pos.eqb];
      destruct (minute =? 0); try reflexivity;
      destruct (getitem BANGLA_MINUTES minute); reflexivity.
  - intros hour_12 hour_word. unfold BANGLA_HOURS. cbn [getitem].
    repeat match goal with
           | |- context [?a =? ?b] => destruct (a =? b)
           | |- inr _ = inr _ -> _ => let H := fresh in intros H; inversion H; reflexivity
           end.
    discriminate.
Qed.

Lemma bangla_test_script_agrees_with_generator_witness :
  replace "দুইটা" "টা" "টা" = "দুইটা".
Proof.
  apply (proj2 (bangla_test_script_agrees_with_generator 16 0) 2). reflexivity.
Defined.

End ClipTexts.

Section GeneratedClips.

Import TimeAnnouncer.
Import generate_audio.

Lemma in_slots (h m : Z) :
  In (h, m) generate_time_slots <-> 0 <= h < 24 /\ In m quarter_hours.
Proof.
  unfold generate_time_slots. rewrite in_flat_map. split.
  - intros (h' & Hh & Hin). apply in_map_iff in Hin. destruct Hin as (m' & E & Hm).
    inversion E; subst. apply in_map_iff in Hh. destruct Hh as (k & <- & Hk).
    apply in_seq in Hk. split; [lia|exact Hm].
  - intros [Hh Hm]. exists h. split.
    + apply in_map_iff. exists (Z.to_nat h). split; [lia|]. apply in_seq. lia.
    + apply in_map_iff. now exists m.
Qed.

Lemma clips_total (assets : path) (language : string) (text_of : Z -> Z -> pyexn + string) :
  (forall h m, In m quarter_hours -> exists text, text_of h m = inr text) ->
  clips assets language text_of
  = inr (map (clip_of_slot assets language text_of) generate_time_slots).
Proof.
  intros Hdef. unfold clips.
  rewrite <- flat_map_singleton, <- loop_total. apply loop_ext.
  intros [h m] Hin. apply in_slots in Hin. destruct Hin as [_ Hm].
  destruct (Hdef h m Hm) as (text & Ht).
  unfold clip_of_slot, generated_path. cbn [fst snd]. now rewrite Ht.
Qed.

Lemma joinpath_inj (p q : path) (a b : string) :
  joinpath p a = joinpath q b -> p = q /\ a = b.
Proof. unfold joinpath. apply app_inj_tail. Qed.

Lemma slot_filename_two_digits (h m : Z) :
  0 <= h < 100 -> 0 <= m < 100 ->
  slot_filename h m = (two_digits h ++ "_" ++ two_digits m ++ ".mp3")%string.
Proof.
  intros Hh Hm. unfold slot_filename. now rewrite !format_02d_two_digits.
Qed.

Lemma slot_filename_inj (h m h' m' : Z) :
  0 <= h < 100 -> 0 <= m < 100 -> 0 <= h' < 100 -> 0 <= m' < 100 ->
  slot_filename h m = slot_filename h' m' -> h = h' /\ m = m'.
Proof.
  intros Hh Hm Hh' Hm' H.
  rewrite !slot_filename_two_digits in H by assumption.
  split; apply two_digits_inj; try assumption;
    unfold two_digits in *; cbn [String.append] in H; congruence.
Qed.

Lemma mp3_names_all_day :
  forallb (fun h =>
             forallb (fun m => String.eqb (name_with_suffix (filename_of h m) ".mp3")
                                          (slot_filename (hour_12_of h) m))
                     (map Z.of_nat (seq 0 60)))
          (map Z.of_nat (seq 0 24)) = true.
Proof. vm_compute. reflexivity. Qed.

Lemma mp3_name (now : datetime) :
  valid_time now ->
  name_with_suffix (filename_of (hour now) (minute now)) ".mp3"
  = slot_filename (hour_12_of (hour now)) (minute now).
Proof.
  intros [Hh Hm]. apply String.eqb_eq.
  pose proof (forallb_range _ 24 mp3_names_all_day (hour now)) as H.
  change (Z.of_nat 24) with 24 in H. specialize (H ltac:(lia)).
  pose proof (forallb_range _ 60 H (minute now)) as H'.
  change (Z.of_nat 60) with 60 in H'. apply H'. lia.
Qed.

Lemma mp3_path_generated (s : state) (language : string) (now : datetime) :
  valid_time now ->
  mp3_path s language (hour now) (minute now)
  = generated_path (joinpath (assets_dir s) "audio") language
                   (hour_12_of (hour now), minute now).
Proof.
  intros Hv. unfold mp3_path, ogg_path, generated_path. cbn [fst snd].
  rewrite with_suffix_joinpath. now rewrite (mp3_name now Hv).
Qed.

Lemma ogg_is_not_generated (h m h' m' : Z) :
  0 <= h < 100 -> 0 <= m < 100 -> 0 <= m' < 100 ->
  slot_filename h m <> filename_of h' m'.
Proof.
  intros Hh Hm Hm'. rewrite slot_filename_two_digits by assumption.
  rewrite filename_of_two_digits by assumption.
  unfold two_digits. cbn [String.append]. intros H. inversion H.
Qed.

(** X21.  The generator names its clips by the 24-hour clock.  Its two loops
    raise nothing and make one clip per slot, 96 for each language, named by
    the hour from 00 to 23.  At a valid time on a quarter hour the fallback
    file the engine looks up is the clip of the slot of the 12-hour value of
    the hour; the primary file it looks up first is never a generated clip;
    and the clips of hour 0 and of the hours 13 to 23 are never looked up, at
    any time, in any language. *)
Theorem generator_names_clips_by_the_24_hour_clock (s : state) :
  english_clips (joinpath (assets_dir s) "audio")
  = inr (map (clip_of_slot (joinpath (assets_dir s) "audio") "en" get_english_text)
             generate_time_slots)
  /\ bangla_clips (joinpath (assets_dir s) "audio")
     = inr (map (clip_of_slot (joinpath (assets_dir s) "audio") "bn" get_bangla_text)
                generate_time_slots)
  /\ List.length generate_time_slots = 96%nat
  /\ (forall now language,
        valid_time now -> In (minute now) quarter_hours ->
        In (hour_12_of (hour now), minute now) generate_time_slots
        /\ mp3_path s language (hour now) (minute now)
           = generated_path (joinpath (assets_dir s) "audio") language
                            (hour_12_of (hour now), minute now))
  /\ (forall slot now language language',
        In slot generate_time_slots -> valid_time now ->
        generated_path (joinpath (assets_dir s) "audio") language' slot
        <> ogg_path s language (hour now) (minute now)
        /\ (fst slot = 0 \/ 13 <= fst slot ->
            generated_path (joinpath (assets_dir s) "audio") language' slot
            <> mp3_path s language (hour now) (minute now))).
Proof.
  split; [apply clips_total, english_text_defined|].
  split; [apply clips_total, bangla_text_defined|].
  split; [reflexivity|]. split.
  - intros now language Hv Hm. split; [|now apply mp3_path_generated].
    apply in_slots. split; [|exact Hm]. pose proof (hour_12_of_range (hour now)). lia.
  - intros [h m] now language language' Hslot Hv. cbn [fst].
    apply in_slots in Hslot. destruct Hslot as [Hh Hm].
    assert (Hm' : 0 <= m < 100).
    { apply in_quarter_hours in Hm. lia. }
    pose proof Hv as [_ Hmin]. split.
    + unfold generated_path, ogg_path. cbn [fst snd]. intros E.
      apply joinpath_inj in E. destruct E as [_ E].
      revert E. apply ogg_is_not_generated; lia.
    + intros Hpm. rewrite (mp3_path_generated s language now Hv).
      unfold generated_path. cbn [fst snd]. intros E.
      apply joinpath_inj in E. destruct E as [_ E].
      pose proof (hour_12_of_range (hour now)).
      apply slot_filename_inj in E; lia.
Qed.

Lemma generator_names_clips_by_the_24_hour_clock_witness :
  mp3_path demo_state "en" 14 30 = ["assets"; "audio"; "en"; "02_30.mp3"]
  /\ generated_path ["assets"; "audio"] "en" (14, 30) = ["assets"; "audio"; "en"; "14_30.mp3"].
Proof.
  split; [|reflexivity].
  destruct (generator_names_clips_by_the_24_hour_clock demo_state) as (_ & _ & _ & H & _).
  destruct (H (mkTime 14 30) "en") as (_ & E).
  - unfold valid_time. cbn. lia.
  - unfold quarter_hours. cbn. tauto.
  - cbn [hour minute] in E. rewrite E. reflexivity.
Defined.

Lemma hour_cases (h : Z) :
  0 <= h <= 23 -> ~ 1 <= h <= 12 ->
  h = 0 \/ h = 13 \/ h = 14 \/ h = 15 \/ h = 16 \/ h = 17 \/ h = 18
  \/ h = 19 \/ h = 20 \/ h = 21 \/ h = 22 \/ h = 23.
Proof. lia. Qed.

Lemma hour_12_of_small (h : Z) : 1 <= h <= 12 -> hour_12_of h = h.
Proof.
  intros Hh. unfold hour_12_of. destruct (Z.eq_dec h 12) as [->|Hne]; [reflexivity|].
  rewrite Z.mod_small by lia. destruct (Z.eqb_spec h 0); [lia|reflexivity].
Qed.

Lemma english_text_of_another_period (h m : Z) (text : string) :
  0 <= h <= 23 -> ~ 1 <= h <= 12 -> In m quarter_hours ->
  get_english_text (hour_12_of h) m = inr text ->
  get_english_text h m <> inr text.
Proof.
  intros Hh Hn Hm Ht. apply in_quarter_hours in Hm.
  pose proof (hour_cases h Hh Hn) as Hc.
  repeat (destruct Hc as [Hc|Hc]); subst h;
    destruct Hm as [-> | [-> | [-> | ->]]];
    vm_compute in Ht; injection Ht as <-; vm_compute; discriminate.
Qed.

Lemma bangla_text_of_another_period (h m : Z) (text : string) :
  0 <= h <= 23 -> ~ 1 <= h <= 12 -> In m quarter_hours ->
  get_bangla_text (hour_12_of h) m = inr text ->
  get_bangla_text h m <> inr text.
Proof.
  intros Hh Hn Hm Ht. apply in_quarter_hours in Hm.
  pose proof (hour_cases h Hh Hn) as Hc.
  repeat (destruct Hc as [Hc|Hc]); subst h;
    destruct Hm as [-> | [-> | [-> | ->]]];
    vm_compute in Ht; injection Ht as <-; vm_compute; discriminate.
Qed.

(** The text recorded under the path the engine looks up. *)
Lemma text_under_mp3_path
  (s : state) (language : string) (text_of : Z -> Z -> pyexn + string)
  (now : datetime) (text : string) :
  (forall h m, In m quarter_hours -> exists text, text_of h m = inr text) ->
  valid_time now -> In (minute now) quarter_hours ->
  In (mp3_path s language (hour now) (minute now), text)
     (map (clip_of_slot (joinpath (assets_dir s) "audio") language text_of)
          generate_time_slots) ->
  text_of (hour_12_of (hour now)) (minute now) = inr text.
Proof.
  intros Hdef Hv Hm Hin. apply in_map_iff in Hin. destruct Hin as ([h m] & E & Hslot).
  unfold clip_of_slot in E. cbn [fst snd] in E. inversion E as [[Hp Ht]]. clear E.
  rewrite (mp3_path_generated s language now Hv) in Hp.
  unfold generated_path in Hp. cbn [fst snd] in Hp.
  apply joinpath_inj in Hp. destruct Hp as [_ Hp].
  apply in_slots in Hslot. destruct Hslot as [Hh Hq].
  pose proof (hour_12_of_range (hour now)). destruct Hv as [_ Hmin].
  assert (0 <= m < 100) by (apply in_quarter_hours in Hq; lia).
  apply slot_filename_inj in Hp; try lia. destruct Hp as [-> ->].
  destruct (Hdef (hour_12_of (hour now)) (minute now) Hm) as (t & Hdef').
  rewrite Hdef'. reflexivity.
Qed.

(** X22.  The clip the engine finds in the afternoon carries the text of the
    morning.  At a valid time on a quarter hour, the text the generator
    recorded under the fallback path the engine looks up is the text for the
    12-hour value of the hour; it is the text for the hour itself exactly
    when the hour is between 1 and 12.  At hour 0 and from hour 13 on the
    clip names another period of the day, in English and in Bangla. *)
Theorem afternoon_lookup_finds_the_morning_clip (s : state) (now : datetime) :
  valid_time now ->
  In (minute now) quarter_hours ->
  (forall clips text,
     english_clips (joinpath (assets_dir s) "audio") = inr clips ->
     In (mp3_path s "en" (hour now) (minute now), text) clips ->
     get_english_text (hour_12_of (hour now)) (minute now) = inr text
     /\ (get_english_text (hour now) (minute now) = inr text <-> 1 <= hour now <= 12))
  /\ (forall clips text,
        bangla_clips (joinpath (assets_dir s) "audio") = inr clips ->
        In (mp3_path s "bn" (hour now) (minute now), text) clips ->
        get_bangla_text (hour_12_of (hour now)) (minute now) = inr text
        /\ (get_bangla_text (hour now) (minute now) = inr text <-> 1 <= hour now <= 12)).
Proof.
  intros Hv Hm. pose proof Hv as [Hh _]. split.
  - intros clips text Hclips Hin.
    unfold english_clips in Hclips.
    rewrite (clips_total _ _ _ english_text_defined) in Hclips. inversion Hclips; subst clips.
    pose proof (text_under_mp3_path s "en" get_english_text now text
                  english_text_defined Hv Hm Hin) as Ht.
    split; [exact Ht|]. split.
    + intros E. destruct (Z_le_dec 1 (hour now)); [destruct (Z_le_dec (hour now) 12)|];
        try lia; exfalso;
        apply (english_text_of_another_period (hour now) (minute now) text); auto; lia.
    + intros H12. now rewrite (hour_12_of_small _ H12) in Ht.
  - intros clips text Hclips Hin.
    unfold bangla_clips in Hclips.
    rewrite (clips_total _ _ _ bangla_text_defined) in Hclips. inversion Hclips; subst clips.
    pose proof (text_under_mp3_path s "bn" get_bangla_text now text
                  bangla_text_defined Hv Hm Hin) as Ht.
    split; [exact Ht|]. split.
    + intros E. destruct (Z_le_dec 1 (hour now)); [destruct (Z_le_dec (hour now) 12)|];
        try lia; exfalso;
        apply (bangla_text_of_another_period (hour now) (minute now) text); auto; lia.
    + intros H12. now rewrite (hour_12_of_small _ H12) in Ht.
Qed.

Lemma afternoon_lookup_finds_the_morning_clip_witness :
  get_english_text (hour_12_of 14) 0 = inr "It is two o'clock at night"
  /\ get_english_text 14 0 <> inr "It is two o'clock at night".
Proof.
  assert (Hv : valid_time (mkTime 14 0)) by (unfold valid_time; cbn; lia).
  assert (Hq : In (minute (mkTime 14 0)) quarter_hours) by (cbn; tauto).
  destruct (afternoon_lookup_finds_the_morning_clip demo_state (mkTime 14 0) Hv Hq)
    as (H & _).
  destruct (H (map (clip_of_slot ["assets"; "audio"] "en" get_english_text)
                   generate_time_slots)
              "It is two o'clock at night") as (H1 & H2).
  - exact (clips_total ["assets"; "audio"] "en" get_english_text english_text_defined).
  - apply in_map_iff. exists (2, 0). split; [reflexivity|].
    apply in_slots. split; [lia|cbn; tauto].
  - split; [exact H1|]. intros E. apply H2 in E. cbn in E. lia.
Defined.

End GeneratedClips.

Section Interface.

Import TimeAnnouncer.
Import ConfigManager.

(** What [save] leaves alone. *)
Lemma save_frame (settings : option dict) (w : write_fault) (s : state) :
  debounce (final (save settings w s)) = debounce s
  /\ played (final (save settings w s)) = played s
  /\ assets_dir (final (save settings w s)) = assets_dir s
  /\ config_path (final (save settings w s)) = config_path s.
Proof.
  rewrite save_unfold.
  destruct settings, w; cbn; try (destruct (snd (write_chunks _))); repeat split.
Qed.

Lemma set_frame (key : string) (value : pyval) (auto_save : bool) (w : write_fault)
  (s : state) :
  debounce (final (set key value auto_save w s)) = debounce s
  /\ played (final (set key value auto_save w s)) = played s
  /\ assets_dir (final (set key value auto_save w s)) = assets_dir s
  /\ config_path (final (set key value auto_save w s)) = config_path s.
Proof.
  unfold set, bind, modify. destruct auto_save; [|repeat split].
  set (s1 := set_settings _ s).
  destruct (save_frame None w s1) as (H1 & H2 & H3 & H4).
  destruct (save None w s1); cbn [final ret] in *; repeat split; assumption.
Qed.

Lemma set_returns_on_failing_write (key : string) (value : pyval) (w : write_fault)
  (s : state) :
  w <> Write_ok -> returned (set key value true w s) = Some tt.
Proof.
  intros Hw. unfold set, bind, modify. rewrite save_unfold.
  destruct w; [contradiction|reflexivity|reflexivity|reflexivity].
Qed.

(** X23.  Muting in the tray takes effect at once.  After
    [_on_mute_toggled], whatever happens to the write, the muted setting is
    the state of the check box, while the interval, the language, the
    debounce state and the calls the player received are as before; when the
    box is active every tick returns [True] and does nothing; and when the
    write fails the handler still returns and logs the new state. *)
Theorem tray_mute_takes_effect_at_once
  (u : ui) (muted : bool) (w : write_fault) (now : datetime) :
  muted_setting (core (ufinal (SystemTray._on_mute_toggled muted w u))) = PBool muted
  /\ interval_setting (core (ufinal (SystemTray._on_mute_toggled muted w u)))
     = interval_setting (core u)
  /\ language_setting (core (ufinal (SystemTray._on_mute_toggled muted w u)))
     = language_setting (core u)
  /\ debounce (core (ufinal (SystemTray._on_mute_toggled muted w u))) = debounce (core u)
  /\ played (core (ufinal (SystemTray._on_mute_toggled muted w u))) = played (core u)
  /\ (muted = true ->
      check_and_announce now (core (ufinal (SystemTray._on_mute_toggled muted w u)))
      = Ret true (core (ufinal (SystemTray._on_mute_toggled muted w u))))
  /\ (w <> Write_ok ->
      ureturned (SystemTray._on_mute_toggled muted w u) = Some tt
      /\ trace (ufinal (SystemTray._on_mute_toggled muted w u))
         = trace u ++ [Log_status muted]).
Proof.
  assert (Hcore : core (ufinal (SystemTray._on_mute_toggled muted w u))
                  = final (set "muted" (PBool muted) true w (core u))).
  { unfold SystemTray._on_mute_toggled, ubind, call, emit.
    destruct (set "muted" (PBool muted) true w (core u)); reflexivity. }
  rewrite Hcore.
  destruct (set_frame "muted" (PBool muted) true w (core u)) as (Hd & Hp & _ & _).
  destruct (set_then_get (core u) "muted" (PBool muted) true w) as (Hother & Hself).
  assert (Hm : muted_setting (final (set "muted" (PBool muted) true w (core u)))
               = PBool muted) by apply Hself.
  split; [exact Hm|].
  split; [apply Hother; discriminate|]. split; [apply Hother; discriminate|].
  split; [exact Hd|]. split; [exact Hp|]. split.
  - intros ->. rewrite check_and_announce_unfold, Hm. reflexivity.
  - intros Hw. pose proof (set_returns_on_failing_write "muted" (PBool muted) w (core u) Hw) as Hr.
    unfold SystemTray._on_mute_toggled, ubind, call, emit.
    destruct (set "muted" (PBool muted) true w (core u)); [|discriminate].
    split; reflexivity.
Qed.

Lemma tray_mute_takes_effect_at_once_witness :
  check_and_announce (mkTime 14 0)
    (core (ufinal (SystemTray._on_mute_toggled true Open_fails demo_ui)))
  = Ret true (core (ufinal (SystemTray._on_mute_toggled true Open_fails demo_ui))).
Proof.
  destruct (tray_mute_takes_effect_at_once demo_ui true Open_fails (mkTime 14 0))
    as (_ & _ & _ & _ & _ & H & _).
  exact (H eq_refl).
Defined.

End Interface.

Section Window.

Import TimeAnnouncer.
Import ConfigManager.
Import SettingsWindow.

(** The two combo boxes [_build_ui] makes. *)
Lemma build_ui_unfold (s : state) :
  _build_ui s
  = Ret (mkWidgets
           (mkCombo LANGUAGES
                    (Some (if str_eq "bn" (language_setting s) then 1%nat else 0%nat)))
           (mkCombo [("15", "Every 15 minutes"); ("30", "Every 30 minutes");
                     ("60", "Every hour")]
                    (Some (if int_eq 60 (interval_setting s) then 2%nat
                           else if int_eq 30 (interval_setting s) then 1%nat
                           else if int_eq 15 (interval_setting s) then 0%nat
                           else 2%nat))))
        s.
Proof.
  unfold _build_ui, bind, get, gets, ret, language_setting, interval_setting.
  cbn [fill LANGUAGES INTERVALS app].
  destruct (str_eq "en" _), (str_eq "bn" _), (int_eq 15 _), (int_eq 30 _), (int_eq 60 _);
    reflexivity.
Qed.

Lemma on_save_clicked_unfold
  (s0 : state) (self0 : widgets) (i j : nat) (code name : string) (minutes : Z)
  (label : string) (on_saved : option (U unit)) (w : write_fault) (popen_ok : bool)
  (u : ui) :
  returned (_build_ui s0) = Some self0 ->
  nth_error LANGUAGES i = Some (code, name) ->
  nth_error INTERVALS j = Some (minutes, label) ->
  _on_save_clicked (mkWidgets (pick i (lang_combo self0)) (pick j (interval_combo self0)))
                   on_saved w popen_ok u
  = ubind (call (save None w))
          (fun _ =>
             ubind (emit (Log_settings_saved (Some code) (Some (json.int_repr minutes))))
                   (fun _ =>
                      ubind (_show_notification "Settings saved successfully!" popen_ok)
                            (fun _ =>
                               ubind (match on_saved with
                                      | Some callback => callback
                                      | None => uret tt
                                      end)
                                     (fun _ => emit Destroy))))
          (chosen code minutes u).
Proof.
  intros Hbuild Hi Hj. rewrite build_ui_unfold in Hbuild. inversion Hbuild; subst self0.
  clear Hbuild.
  destruct i as [|[|[|i]]]; try discriminate Hi; inversion Hi; subst;
    destruct j as [|[|[|[|j]]]]; try discriminate Hj; inversion Hj; subst;
    reflexivity.
Qed.


(** The records of the data model always encode. *)
Lemma data_model_encodes (code name : string) (minutes : Z) (label : string) (muted : bool)
  (i j : nat) :
  nth_error LANGUAGES i = Some (code, name) ->
  nth_error INTERVALS j = Some (minutes, label) ->
  write_chunks (json.iterencode 0 (PDict (settings_record code minutes muted)))
  = (json.dumps (PDict (settings_record code minutes muted)), true).
Proof.
  intros Hi Hj.
  destruct i as [|[|[|i]]]; try discriminate Hi; inversion Hi; subst;
    destruct j as [|[|[|[|j]]]]; try discriminate Hj; inversion Hj; subst;
    destruct muted; vm_compute; reflexivity.
Qed.

Lemma interval_option_positive (minutes : Z) (label : string) (j : nat) :
  nth_error INTERVALS j = Some (minutes, label) -> 0 < minutes.
Proof.
  intros Hj.
  destruct j as [|[|[|[|j]]]]; try discriminate Hj; inversion Hj; subst; lia.
Qed.

(** X24.  The save button reports success whatever happens to the write.
    For every language and interval the user picks, when the write fails
    [_on_save_clicked] still returns, with both choices in memory, the error
    of the save in the log, the success notification sent (or its failure
    logged) and the window destroyed; when the directory or the file cannot
    be created no file has changed. *)
Theorem save_button_reports_success_whatever_the_write
  (s0 : state) (self0 : widgets) (i j : nat) (code name : string) (minutes : Z)
  (label : string) (w : write_fault) (popen_ok : bool) (u : ui) :
  returned (_build_ui s0) = Some self0 ->
  nth_error LANGUAGES i = Some (code, name) ->
  nth_error INTERVALS j = Some (minutes, label) ->
  w <> Write_ok ->
  ureturned (save_after_picking self0 i j None w popen_ok u) = Some tt
  /\ _settings (core (ufinal (save_after_picking self0 i j None w popen_ok u)))
     = dict_setitem (dict_setitem (_settings (core u)) "language" (PStr code))
                    "interval" (PInt minutes)
  /\ trace (ufinal (save_after_picking self0 i j None w popen_ok u))
     = trace u ++ [Log_settings_saved (Some code) (Some (json.int_repr minutes));
                   if popen_ok then Notify_send "Settings saved successfully!"
                   else Log_notification_failed;
                   Destroy]
  /\ log (core (ufinal (save_after_picking self0 i j None w popen_ok u)))
     = log (core u) ++ [(ERROR, Failed_to_save_config OSError)]
  /\ (w = Mkdir_fails \/ w = Open_fails ->
      fs (core (ufinal (save_after_picking self0 i j None w popen_ok u)))
      = fs (core u)).
Proof.
  intros Hbuild Hi Hj Hw. unfold save_after_picking.
  rewrite (on_save_clicked_unfold s0 self0 i j code name minutes label None w popen_ok u
             Hbuild Hi Hj).
  unfold ubind, call, chosen. cbn [core trace]. rewrite save_unfold.
  destruct w; [contradiction| | |]; destruct popen_ok;
    cbn; rewrite <- ?app_assoc; repeat split; try reflexivity;
    intros [H|H]; discriminate H.
Qed.

Lemma save_button_reports_success_whatever_the_write_witness :
  trace (ufinal (save_after_picking demo_widgets 1 0 None Open_fails true demo_ui))
  = [Log_settings_saved (Some "bn") (Some "15");
     Notify_send "Settings saved successfully!"; Destroy]
  /\ fs (core (ufinal (save_after_picking demo_widgets 1 0 None Open_fails true demo_ui)))
     = fs demo_state.
Proof.
  assert (Hw : Open_fails <> Write_ok) by discriminate.
  destruct (save_button_reports_success_whatever_the_write demo_state demo_widgets 1 0
              "bn" "বাংলা (Bangla)" 15 "Every 15 minutes" Open_fails true demo_ui
              eq_refl eq_refl eq_refl Hw) as (_ & _ & H1 & _ & H2).
  split; [exact H1|]. apply H2. now right.
Defined.

(** X25.  Saved settings take effect at once.  In the application, where the
    callback of the window is [_on_settings_saved]: from a settings record
    over the three known keys, with the check box of the tray showing the
    stored flag, after the save button, whatever happens to the write, the
    record holds the chosen language and interval and the former muted flag,
    [set_active] was called on the check box with that flag before the window
    was destroyed, the box is as it was, and the debounce state is reset.  So
    the next tick, at a valid time and unless muted, hands the player the
    clip of the time in the chosen language, if its file exists, exactly when
    the chosen interval divides the minute, even in a minute that was
    announced already.  When the write succeeds the file holds the JSON text
    of the record. *)
Theorem saved_settings_take_effect_at_once
  (s0 : state) (self0 : widgets) (i j : nat) (code name : string) (minutes : Z)
  (label : string) (w : write_fault) (popen_ok : bool) (w' : write_fault) (u : ui)
  (language0 : string) (interval0 : Z) (muted0 : bool) (now : datetime) :
  returned (_build_ui s0) = Some self0 ->
  nth_error LANGUAGES i = Some (code, name) ->
  nth_error INTERVALS j = Some (minutes, label) ->
  _settings (core u) = settings_record language0 interval0 muted0 ->
  shows_flag u ->
  ureturned (save_in_the_application self0 i j w popen_ok w' u) = Some tt
  /\ _settings (core (ufinal (save_in_the_application self0 i j w popen_ok w' u)))
     = settings_record code minutes muted0
  /\ debounce (core (ufinal (save_in_the_application self0 i j w popen_ok w' u)))
     = (-1, -1)
  /\ item_mute (ufinal (save_in_the_application self0 i j w popen_ok w' u)) = item_mute u
  /\ trace (ufinal (save_in_the_application self0 i j w popen_ok w' u))
     = trace u
       ++ [Log_settings_saved (Some code) (Some (json.int_repr minutes));
           if popen_ok then Notify_send "Settings saved successfully!"
           else Log_notification_failed]
       ++ match item_mute u with
          | Some _ => [Set_active (PBool muted0)]
          | None => []
          end
       ++ [Destroy]
  /\ (w = Write_ok ->
      fs (core (ufinal (save_in_the_application self0 i j w popen_ok w' u)))
         (config_path (core u))
      = Some (json.dumps (PDict (settings_record code minutes muted0))))
  /\ (valid_time now -> muted0 = false ->
      played (final (check_and_announce now
                       (core (ufinal (save_in_the_application self0 i j w popen_ok w' u)))))
      = played (core u)
        ++ (if minute now mod minutes =? 0
            then clip_list
                   (clip_for (core (ufinal (save_in_the_application self0 i j w popen_ok
                                              w' u)))
                             code (hour now) (minute now))
            else [])).
Proof.
  intros Hbuild Hi Hj Hrec Hshow. unfold save_in_the_application, save_after_picking.
  rewrite (on_save_clicked_unfold s0 self0 i j code name minutes label _ w popen_ok u
             Hbuild Hi Hj).
  pose proof (data_model_encodes code name minutes label muted0 i j Hi Hj) as Henc.
  pose proof (interval_option_positive minutes label j Hj) as Hpos.
  assert (Hbox : item_mute u = None \/ item_mute u = Some muted0).
  { unfold shows_flag, muted_setting in Hshow. rewrite Hrec in Hshow.
    destruct (item_mute u) as [active|]; [right|now left].
    cbn in Hshow. now subst active. }
  set (o := ubind _ _ _).
  assert (Ho : exists u',
             o = URet tt u'
             /\ _settings (core u') = settings_record code minutes muted0
             /\ debounce (core u') = (-1, -1)
             /\ played (core u') = played (core u)
             /\ item_mute u' = item_mute u
             /\ trace u'
                = trace u
                  ++ [Log_settings_saved (Some code) (Some (json.int_repr minutes));
                      if popen_ok then Notify_send "Settings saved successfully!"
                      else Log_notification_failed]
                  ++ match item_mute u with
                     | Some _ => [Set_active (PBool muted0)]
                     | None => []
                     end
                  ++ [Destroy]
             /\ (w = Write_ok ->
                 fs (core u') (config_path (core u))
                 = Some (json.dumps (PDict (settings_record code minutes muted0))))).
  { unfold o, ubind, call, chosen. destruct u as [c alive box events].
    cbn [core trace _player item_mute set_core] in *. rewrite save_unfold.
    cbn [set_settings _settings config_path]. rewrite Hrec.
    change (dict_setitem (dict_setitem (settings_record language0 interval0 muted0)
                                       "language" (PStr code)) "interval" (PInt minutes))
      with (settings_record code minutes muted0).
    rewrite Henc. cbn [fst snd].
    destruct Hbox as [-> | ->]; destruct w, popen_ok, muted0; eexists;
      (split; [reflexivity|]);
      cbn; rewrite ?path_eqb_refl, <- ?app_assoc; repeat split; try reflexivity;
      intros H; discriminate H. }
  destruct Ho as (u' & -> & Hset & Hdeb & Hplayed & Hbox' & Htrace & Hfs).
  cbn [ureturned ufinal].
  split; [reflexivity|]. split; [exact Hset|]. split; [exact Hdeb|].
  split; [exact Hbox'|]. split; [exact Htrace|]. split; [exact Hfs|].
  intros Hv ->. rewrite tick_played, Hplayed. f_equal.
  unfold tick_plays, muted_setting, interval_setting, language_setting. rewrite Hset.
  cbn [dict_get dict_lookup settings_record String.eqb Ascii.eqb Bool.eqb truthy mod_is_zero].
  destruct (Z.eqb_spec minutes 0); [lia|].
  assert (Hfresh : debounced (core u') now = false).
  { apply debounce_differs. rewrite Hdeb. unfold time_pair, valid_time in *.
    intros H. inversion H. lia. }
  rewrite Hfresh. destruct (minute now mod minutes =? 0); reflexivity.
Qed.

Lemma saved_settings_take_effect_at_once_witness :
  _settings (core (ufinal (save_in_the_application demo_widgets 1 0 Write_ok true Write_ok
                             demo_ui)))
  = settings_record "bn" 15 false
  /\ debounce (core (ufinal (save_in_the_application demo_widgets 1 0 Write_ok true Write_ok
                               demo_ui)))
     = (-1, -1)
  /\ trace (ufinal (save_in_the_application demo_widgets 1 0 Write_ok true Write_ok demo_ui))
     = [Log_settings_saved (Some "bn") (Some "15");
        Notify_send "Settings saved successfully!"; Set_active (PBool false); Destroy].
Proof.
  destruct (saved_settings_take_effect_at_once demo_state demo_widgets 1 0
              "bn" "বাংলা (Bangla)" 15 "Every 15 minutes" Write_ok true Write_ok demo_ui
              "en" 60 false (mkTime 14 0) eq_refl eq_refl eq_refl eq_refl eq_refl)
    as (_ & H1 & H2 & _ & H3 & _).
  split; [exact H1|]. split; [exact H2|exact H3].
Defined.

(** X26.  Saving an untouched settings window normalises the settings.  The
    window preselects the stored language when it is one of the two options
    and English otherwise, the stored interval when it equals one of the
    three options and one hour otherwise; the save button then stores the
    preselected values.  Settings within the options are kept as they are;
    any other language becomes en and any other interval becomes 60. *)
Theorem untouched_save_normalises_the_settings
  (u : ui) (w : write_fault) (popen_ok : bool) :
  exists self,
    _build_ui (core u) = Ret self (core u)
    /\ get_active_id (lang_combo self)
       = Some (preselected_language (language_setting (core u)))
    /\ get_active_id (interval_combo self)
       = Some (json.int_repr (preselected_interval (interval_setting (core u))))
    /\ _settings (core (ufinal (_on_save_clicked self None w popen_ok u)))
       = dict_setitem
           (dict_setitem (_settings (core u)) "language"
                         (PStr (preselected_language (language_setting (core u)))))
           "interval" (PInt (preselected_interval (interval_setting (core u))))
    /\ In (preselected_language (language_setting (core u))) ["en"; "bn"]
    /\ In (preselected_interval (interval_setting (core u))) [15; 30; 60]
    /\ (forall code name, In (code, name) LANGUAGES ->
                          preselected_language (PStr code) = code)
    /\ (forall minutes label, In (minutes, label) INTERVALS ->
                              preselected_interval (PInt minutes) = minutes).
Proof.
  eexists. split; [apply build_ui_unfold|].
  set (self := mkWidgets _ _).
  assert (Hself : exists i j code name label,
             self = mkWidgets (pick i (lang_combo self)) (pick j (interval_combo self))
             /\ nth_error LANGUAGES i = Some (code, name)
             /\ nth_error INTERVALS j
                = Some (preselected_interval (interval_setting (core u)), label)
             /\ code = preselected_language (language_setting (core u))
             /\ get_active_id (lang_combo self) = Some code
             /\ get_active_id (interval_combo self)
                = Some (json.int_repr (preselected_interval (interval_setting (core u))))).
  { unfold self, preselected_language, preselected_interval.
    set (bn := str_eq "bn" (language_setting (core u))).
    set (b60 := int_eq 60 (interval_setting (core u))).
    set (b30 := int_eq 30 (interval_setting (core u))).
    set (b15 := int_eq 15 (interval_setting (core u))).
    destruct bn, b60, b30, b15;
      do 5 eexists; (split; [reflexivity|]); cbn; repeat split; reflexivity. }
  destruct Hself as (i & j & code & name & label & Hpick & Hi & Hj & Hcode & Hl & Hint).
  split; [rewrite Hl, Hcode; reflexivity|]. split; [exact Hint|]. split.
  - rewrite Hpick.
    rewrite (on_save_clicked_unfold (core u) self i j code name _ label None w popen_ok u
               (f_equal returned (build_ui_unfold (core u))) Hi Hj).
    rewrite <- Hcode.
    unfold ubind, call, chosen. cbn [core trace]. rewrite save_unfold.
    destruct w, popen_ok; cbn; try reflexivity;
      destruct (snd (write_chunks _)); reflexivity.
  - split; [|split; [|split]].
    + unfold preselected_language.
      destruct (str_eq "bn" (language_setting (core u))); cbn; tauto.
    + unfold preselected_interval.
      set (b60 := int_eq 60 (interval_setting (core u))).
      set (b30 := int_eq 30 (interval_setting (core u))).
      set (b15 := int_eq 15 (interval_setting (core u))).
      destruct b60, b30, b15; cbn; tauto.
    + intros c n [H|[H|[]]]; inversion H; reflexivity.
    + intros m l [H|[H|[H|[]]]]; inversion H; reflexivity.
Qed.

Lemma untouched_save_normalises_the_settings_witness :
  exists self,
    _build_ui (set_settings [("language", PStr "fr"); ("interval", PInt 45)] demo_state)
    = Ret self (set_settings [("language", PStr "fr"); ("interval", PInt 45)] demo_state)
    /\ _settings (core (ufinal (_on_save_clicked self None Open_fails true
                      (mkUi (set_settings [("language", PStr "fr"); ("interval", PInt 45)]
                                          demo_state) true None []))))
       = [("language", PStr "en"); ("interval", PInt 60)].
Proof.
  destruct (untouched_save_normalises_the_settings
              (mkUi (set_settings [("language", PStr "fr"); ("interval", PInt 45)]
                                  demo_state) true None [])
              Open_fails true) as (self & Hb & _ & _ & Hs & _).
  exists self. split; [exact Hb|]. rewrite Hs. reflexivity.
Defined.

End Window.

Section Player.

Import AudioPlayer.

(** [play] on a file that is missing, and on a file that exists. *)
Lemma play_missing (u : ui) (file_path : path) (result : StateChangeReturn) :
  exists_in (core u) file_path = false ->
  play file_path result u = URet false (add_trace (Log_audio_file_not_found file_path) u).
Proof.
  intros Hex. unfold exists_in in Hex.
  unfold play, ubind, call, path_exists, gets, emit, uret.
  destruct (fs (core u) file_path); [discriminate|]. destruct u; reflexivity.
Qed.

Lemma play_present (u : ui) (file_path : path) (result : StateChangeReturn) :
  _player u = true ->
  exists_in (core u) file_path = true ->
  play file_path result u
  = URet (match result with FAILURE => false | _ => true end)
         (mkUi (core u) (_player u) (item_mute u)
               (trace u ++ [Set_state_NULL; Set_uri file_path; Set_state_PLAYING;
                            match result with
                            | FAILURE => Log_failed_to_play file_path
                            | _ => Log_playing file_path
                            end])).
Proof.
  intros Halive Hex. unfold exists_in in Hex.
  unfold play, ubind, call, path_exists, gets, stop, on_element, emit, uret.
  destruct (fs (core u) file_path); [|discriminate].
  destruct u as [c alive box events]. cbn in Halive |- *. rewrite Halive.
  destruct result; unfold add_trace, set_core; cbn; rewrite <- ?app_assoc; reflexivity.
Qed.

(** X27.  [play] starts existing files only.  On a player whose element is
    alive, [play] changes nothing of the store and the engine.  For a file
    that does not exist it returns [False] and asks nothing of the element,
    so what is playing goes on; for a file that exists it stops the element,
    sets the URI and starts it, in this order, and returns [True] unless the
    element reports a failure.  Every path the engine hands to the player is
    of the second kind. *)
Theorem play_starts_only_existing_files
  (u : ui) (file_path : path) (result : StateChangeReturn) :
  _player u = true ->
  core (ufinal (play file_path result u)) = core u
  /\ (exists_in (core u) file_path = false ->
      play file_path result u = URet false (add_trace (Log_audio_file_not_found file_path) u))
  /\ (exists_in (core u) file_path = true ->
      ureturned (play file_path result u)
      = Some (match result with FAILURE => false | _ => true end)
      /\ trace (ufinal (play file_path result u))
         = trace u ++ [Set_state_NULL; Set_uri file_path; Set_state_PLAYING;
                       match result with
                       | FAILURE => Log_failed_to_play file_path
                       | _ => Log_playing file_path
                       end])
  /\ (forall calls s p,
        core u = run_calls calls s ->
        In p (skipn (List.length (played s)) (played (core u))) ->
        ureturned (play p result u)
        = Some (match result with FAILURE => false | _ => true end)).
Proof.
  intros Halive.
  split; [|split; [apply play_missing|split]].
  - destruct (exists_in (core u) file_path) eqn:E;
      [rewrite (play_present u file_path result Halive E)
      |rewrite (play_missing u file_path result E)]; reflexivity.
  - intros Hex. rewrite (play_present u file_path result Halive Hex). split; reflexivity.
  - intros calls s p Hcore Hin.
    destruct (run_calls_keeps calls s) as (Hfs & _ & _ & _ & new & Hplayed & _ & Hnew).
    rewrite Hcore, Hplayed in Hin.
    rewrite skipn_app, skipn_all, Nat.sub_diag in Hin. cbn [skipn app] in Hin.
    destruct (Hnew p Hin) as (Hex & _).
    assert (Hex' : exists_in (core u) p = true).
    { unfold exists_in in *. now rewrite Hcore, Hfs. }
    now rewrite (play_present u p result Halive Hex').
Qed.

Lemma play_starts_only_existing_files_witness :
  ureturned (play ["assets"; "audio"; "en"; "02_00.ogg"] SUCCESS demo_ui) = Some true
  /\ ureturned (play ["assets"; "audio"; "en"; "02_00.ogg"] FAILURE demo_ui) = Some false
  /\ ureturned (play ["assets"; "audio"; "en"; "04_00.ogg"] SUCCESS demo_ui) = Some false.
Proof.
  split; [|split].
  - destruct (play_starts_only_existing_files demo_ui ["assets"; "audio"; "en"; "02_00.ogg"]
                SUCCESS eq_refl) as (_ & _ & H & _).
    exact (proj1 (H eq_refl)).
  - destruct (play_starts_only_existing_files demo_ui ["assets"; "audio"; "en"; "02_00.ogg"]
                FAILURE eq_refl) as (_ & _ & H & _).
    exact (proj1 (H eq_refl)).
  - destruct (play_starts_only_existing_files demo_ui ["assets"; "audio"; "en"; "04_00.ogg"]
                SUCCESS eq_refl) as (_ & H & _).
    rewrite (H eq_refl). reflexivity.
Defined.

End Player.

Section PlayerEnd.

Import AudioPlayer.

(** X28.  After [cleanup] the player is unusable.  Once [self._player] is
    [None], [stop], [cleanup] and the two bus callbacks raise
    [AttributeError]; [play] raises it for a file that exists and still
    returns [False] for a file that does not.  [cleanup] on a live player
    returns and leaves it so: a second [cleanup] raises. *)
Theorem player_is_unusable_after_cleanup (u : ui) :
  _player u = false ->
  stop u = URaise AttributeError u
  /\ cleanup u = URaise AttributeError u
  /\ ureturned (_on_eos u) = None
  /\ ureturned (_on_error u) = None
  /\ (forall file_path result,
        (exists_in (core u) file_path = true ->
         play file_path result u = URaise AttributeError u)
        /\ (exists_in (core u) file_path = false ->
            ureturned (play file_path result u) = Some false))
  /\ (forall u0, _player u0 = true ->
                 _player (ufinal (cleanup u0)) = false
                 /\ ureturned (cleanup u0) = Some tt
                 /\ ureturned (cleanup (ufinal (cleanup u0))) = None).
Proof.
  intros Hdead. destruct u as [c alive box events]. cbn in Hdead. subst alive.
  split; [reflexivity|]. split; [reflexivity|]. split; [reflexivity|].
  split; [reflexivity|]. split.
  - intros file_path result. unfold exists_in. cbn [core]. split; intros Hex;
      unfold play, ubind, call, path_exists, gets, stop, on_element, emit, uret;
      cbn [core]; destruct (fs c file_path); try discriminate; reflexivity.
  - intros u0 Halive. destruct u0 as [c0 alive0 box0 events0]. cbn in Halive. subst alive0.
    repeat split.
Qed.

Lemma player_is_unusable_after_cleanup_witness :
  ureturned (play ["assets"; "audio"; "en"; "02_00.ogg"] SUCCESS
               (ufinal (cleanup demo_ui))) = None
  /\ ureturned (play ["assets"; "audio"; "en"; "04_00.ogg"] SUCCESS
                  (ufinal (cleanup demo_ui))) = Some false.
Proof.
  destruct (player_is_unusable_after_cleanup (ufinal (cleanup demo_ui)) eq_refl)
    as (_ & _ & _ & _ & H & _).
  split.
  - destruct (H ["assets"; "audio"; "en"; "02_00.ogg"] SUCCESS) as (H1 & _).
    rewrite (H1 eq_refl). reflexivity.
  - destruct (H ["assets"; "audio"; "en"; "04_00.ogg"] SUCCESS) as (_ & H2).
    exact (H2 eq_refl).
Defined.

End PlayerEnd.

Section Tray.

Import TimeAnnouncer.

Lemma tray_in_step_ext (a : bool) (u u' : ui) :
  item_mute u' = item_mute u ->
  muted_setting (core u') = muted_setting (core u) ->
  tray_in_step a u -> tray_in_step a u'.
Proof.
  unfold tray_in_step, shows_flag. intros -> ->. exact (fun H => H).
Qed.

Lemma preserves_bind {A B} (P : ui -> Prop) (c : U A) (k : A -> U B) :
  preserves P c -> (forall x, preserves P (k x)) -> preserves P (ubind c k).
Proof.
  intros Hc Hk u Hu. specialize (Hc u Hu). unfold ubind.
  destruct (c u) as [x u'|e u']; cbn [ufinal] in Hc |- *; [now apply Hk|exact Hc].
Qed.

Lemma keeps_uret {A} (a : bool) (x : A) : preserves (tray_in_step a) (uret x).
Proof. intros u Hu. exact Hu. Qed.

Lemma keeps_emit (a : bool) (e : ui_event) : preserves (tray_in_step a) (emit e).
Proof. intros u. now apply tray_in_step_ext. Qed.

Lemma keeps_ulift {A} (a : bool) (r : pyexn + A) : preserves (tray_in_step a) (ulift r).
Proof. intros u Hu. unfold ulift. now destruct r. Qed.

Lemma keeps_call {A} (a : bool) (m : M A) :
  (forall s, muted_setting (final (m s)) = muted_setting s) ->
  preserves (tray_in_step a) (call m).
Proof.
  intros Hm u. apply tray_in_step_ext.
  - unfold call. now destruct (m (core u)).
  - specialize (Hm (core u)). unfold call. now destruct (m (core u)).
Qed.

Lemma save_keeps_settings (w : write_fault) (s : state) :
  _settings (final (ConfigManager.save None w s)) = _settings s.
Proof.
  rewrite save_unfold. cbv zeta.
  destruct w; try reflexivity.
  destruct (snd (write_chunks _)); reflexivity.
Qed.

Lemma set_keeps_muted (key : string) (value : pyval) (auto_save : bool) (w : write_fault)
  (s : state) :
  key <> "muted" ->
  muted_setting (final (ConfigManager.set key value auto_save w s)) = muted_setting s.
Proof.
  intros Hkey. unfold muted_setting.
  apply (proj1 (set_then_get s key value auto_save w)). congruence.
Qed.

(** Both defaults the program passes for the muted flag are false. *)
Lemma muted_default (s : state) :
  truthy (dict_get (_settings s) "muted" (PBool false)) = truthy (muted_setting s).
Proof.
  unfold muted_setting, dict_get. now destruct (dict_lookup (_settings s) "muted").
Qed.

Lemma keeps_toggled (a : bool) (w : write_fault) :
  preserves (tray_in_step a) (SystemTray.toggled w).
Proof.
  intros u Hu. unfold SystemTray.toggled.
  destruct (item_mute u) as [active|] eqn:Hbox; [|exact Hu].
  destruct Hu as [Hshow Hnone]. rewrite Hbox in Hnone.
  unfold SystemTray._on_mute_toggled, ubind, call, emit.
  pose proof (proj2 (set_then_get (core u) "muted" (PBool (negb active)) true w) PNone)
    as Hset.
  cbn [set_item_mute core].
  destruct (ConfigManager.set "muted" (PBool (negb active)) true w (core u)) as [x s'|e s'];
    cbn [final] in Hset; cbn [ufinal];
    (split; [unfold shows_flag, muted_setting; cbn; now rewrite Hset
            |cbn; rewrite <- Hnone; split; discriminate]).
Qed.

(** With the box showing the stored flag, [update_mute_state] calls
    [set_active] and nothing follows. *)
Lemma update_in_step (w : write_fault) (u : ui) :
  shows_flag u ->
  SystemTray.update_mute_state w u
  = URet tt (match item_mute u with
             | Some _ =>
                 add_trace (Set_active (dict_get (_settings (core u)) "muted" (PBool false))) u
             | None => u
             end).
Proof.
  unfold shows_flag, SystemTray.update_mute_state. intros Hshow.
  destruct (item_mute u) as [active|] eqn:Hbox; [|reflexivity].
  unfold ubind, call, ConfigManager.get, gets, SystemTray.set_active.
  destruct u as [c alive box events]. cbn in Hbox, Hshow |- *. subst box.
  rewrite muted_default, Hshow, Bool.eqb_reflx. reflexivity.
Qed.

Lemma keeps_update (a : bool) (w : write_fault) :
  preserves (tray_in_step a) (SystemTray.update_mute_state w).
Proof.
  intros u Hu. rewrite (update_in_step w u (proj1 Hu)). cbn [ufinal].
  destruct (item_mute u) eqn:Hbox; [|exact Hu].
  revert Hu. now apply tray_in_step_ext.
Qed.

Lemma keeps_on_settings_saved (a : bool) (w : write_fault) :
  preserves (tray_in_step a) (VoiceClockApp._on_settings_saved w).
Proof.
  unfold VoiceClockApp._on_settings_saved.
  apply preserves_bind; [apply keeps_update|]. intros _.
  apply keeps_call. reflexivity.
Qed.

Lemma keeps_on_save_clicked (a : bool) (self : SettingsWindow.widgets)
  (on_saved : option (U unit)) (w : write_fault) (popen_ok : bool) :
  (forall callback, on_saved = Some callback -> preserves (tray_in_step a) callback) ->
  preserves (tray_in_step a) (SettingsWindow._on_save_clicked self on_saved w popen_ok).
Proof.
  intros Hcb. unfold SettingsWindow._on_save_clicked.
  apply preserves_bind.
  { destruct (get_active_id (SettingsWindow.lang_combo self)) as [id|]; [|apply keeps_uret].
    destruct (nonempty (Some id)); [|apply keeps_uret].
    apply keeps_call. intros s. now apply set_keeps_muted. }
  intros _. apply preserves_bind.
  { destruct (get_active_id (SettingsWindow.interval_combo self)) as [id|];
      [|apply keeps_uret].
    destruct (nonempty (Some id)); [|apply keeps_uret].
    apply preserves_bind; [apply keeps_ulift|]. intros n.
    apply keeps_call. intros s. now apply set_keeps_muted. }
  intros _. apply preserves_bind.
  { apply keeps_call. intros s. unfold muted_setting. now rewrite save_keeps_settings. }
  intros _. apply preserves_bind; [apply keeps_emit|].
  intros _. apply preserves_bind.
  { unfold SettingsWindow._show_notification. destruct popen_ok; apply keeps_emit. }
  intros _. apply preserves_bind; [|intros _; apply keeps_emit].
  destruct on_saved as [callback|]; [now apply Hcb|apply keeps_uret].
Qed.

Lemma keeps_handler (a : bool) (e : app_event) : preserves (tray_in_step a) (handler e).
Proof.
  destruct e as [now|w|self w popen_ok w']; cbn [handler].
  - apply preserves_bind; [|intros _; apply keeps_uret].
    apply keeps_call. intros s. unfold VoiceClockApp._on_scheduler_tick, muted_setting.
    now rewrite (proj1 (tick_frame s now)).
  - apply keeps_toggled.
  - apply keeps_on_save_clicked. intros callback H. inversion H.
    apply keeps_on_settings_saved.
Qed.

Lemma init_in_step (a : bool) (u : ui) :
  tray_in_step a (ufinal (SystemTray.__init__ a u)).
Proof.
  destruct u as [c alive box events].
  destruct a; cbn; (split; [|split; discriminate || reflexivity]).
  - unfold shows_flag. cbn. symmetry. apply muted_default.
  - exact I.
Qed.

Lemma run_events_in_step (a : bool) (events : list app_event) :
  forall u, tray_in_step a u -> tray_in_step a (run_events events u).
Proof.
  induction events as [|e events IH]; intros u Hu; [exact Hu|].
  cbn [run_events fold_left]. apply IH. now apply keeps_handler.
Qed.

(** X29.  The check box of the tray and the stored flag never part.  From
    the construction of the tray on, whatever scheduler ticks, clicks on the
    check box and clicks on the save button of a settings window follow, and
    however their handlers end, the check box shows the truth value of the
    muted setting.  So [update_mute_state] never changes the box: it calls
    [set_active] with the stored value and returns, no handler runs, no
    setting and no file changes; and without an indicator library the tray
    has no check box and [update_mute_state] does nothing. *)
Theorem tray_check_box_follows_the_muted_flag
  (appindicator : bool) (events : list app_event) (u : ui) (w : write_fault) :
  let u' := run_events events (ufinal (SystemTray.__init__ appindicator u)) in
  item_mute u' = (if appindicator then Some (truthy (muted_setting (core u'))) else None)
  /\ SystemTray.update_mute_state w u'
     = URet tt
         (if appindicator
          then add_trace (Set_active (dict_get (_settings (core u')) "muted" (PBool false)))
                         u'
          else u').
Proof.
  intros u'.
  destruct (run_events_in_step appindicator events _ (init_in_step appindicator u))
    as [Hshow Hnone].
  fold u' in Hshow, Hnone.
  assert (Hbox : item_mute u'
                 = if appindicator then Some (truthy (muted_setting (core u'))) else None).
  { unfold shows_flag in Hshow. destruct appindicator.
    - destruct (item_mute u') as [active|]; [now rewrite Hshow|].
      destruct Hnone as [Hnone _]. discriminate (Hnone eq_refl).
    - now apply Hnone. }
  split; [exact Hbox|].
  rewrite (update_in_step w u' Hshow), Hbox. now destruct appindicator.
Qed.

Lemma tray_check_box_follows_the_muted_flag_witness :
  item_mute (run_events [Mute_clicked Open_fails;
                         Save_clicked demo_widgets Write_ok true Write_ok;
                         Scheduler_tick (mkTime 14 0)]
                        (ufinal (SystemTray.__init__ true demo_ui)))
  = Some true.
Proof.
  rewrite (proj1 (tray_check_box_follows_the_muted_flag true
                    [Mute_clicked Open_fails;
                     Save_clicked demo_widgets Write_ok true Write_ok;
                     Scheduler_tick (mkTime 14 0)]
                    demo_ui Write_ok)).
  vm_compute. reflexivity.
Defined.

End Tray.
